(** * cc-oci-runtime: protocol codecs, shim I/O loop, state reader and
      lifecycle commands as a shallow embedding.

    The development follows the C sources of
    [vendor/github.com/01org/cc-oci-runtime]:

    - [shim/utils.c]   big-endian codec,
    - [shim/shim.c]    stream frames read from the proxy I/O descriptor,
    - [src/proxy.c]    frames written to the proxy control socket,
    - [src/json.c], [src/state.c]   the state document reader,
    - [src/runtime.c], [src/oci.c], [src/util.c], [src/commands/kill.c]
                       create / kill / list.

    Machine integers are [Z] with the wrap-around of every cast written out,
    bytes are [Z] in [0, 256), buffers are [list Z] updated by index.

    Part I holds the definitions, one module per source file; Part II the
    lemmas and the theorems about them. *)

From Stdlib Require Import ZArith Lia Bool Ascii String.
From stdpp Require Import base tactics option list gmap strings pretty.

Local Open Scope Z_scope.

#[local] Set Warnings "-register-all".

(** * Part I: definitions *)

(** ** C integer types *)

Module CInt.

Definition cast_uint8 (x : Z) : Z := x mod 2 ^ 8.
Definition cast_uint32 (x : Z) : Z := x mod 2 ^ 32.
Definition cast_uint64 (x : Z) : Z := x mod 2 ^ 64.

(** [int] is 32 bit two's complement; a result that does not fit wraps. *)
Definition cast_int (x : Z) : Z := (x + 2 ^ 31) mod 2 ^ 32 - 2 ^ 31.

(** [char] is signed on the supported target (x86-64). *)
Definition cast_char (x : Z) : Z := (x + 2 ^ 7) mod 2 ^ 8 - 2 ^ 7.

Definition is_uint8 (x : Z) : Prop := 0 <= x < 2 ^ 8.
Definition is_uint32 (x : Z) : Prop := 0 <= x < 2 ^ 32.
Definition is_uint64 (x : Z) : Prop := 0 <= x < 2 ^ 64.

End CInt.
Export CInt.

(** ** shim/utils.c: the big-endian codec *)

Module BigEndian.

(** A [uint8_t *] is a buffer together with an index into it; [buf[i]]
    reads a byte (indices inside the allocation, as in the callers). *)
Definition peek (buf : list Z) (i : nat) : Z := default 0 (buf !! i).

(** [set_big_endian_32(buf + off, val)] *)
Definition set_big_endian_32 (buf : list Z) (off : nat) (val : Z) : list Z :=
  let buf := <[off := cast_uint8 (Z.shiftr val 24)]> buf in
  let buf := <[(off + 1)%nat := cast_uint8 (Z.shiftr val 16)]> buf in
  let buf := <[(off + 2)%nat := cast_uint8 (Z.shiftr val 8)]> buf in
  <[(off + 3)%nat := cast_uint8 val]> buf.

(** [get_big_endian_32(buf + off)]: every [buf[i] << k] is computed in
    [int], the four are or-ed and the result is converted to [uint32_t]. *)
Definition get_big_endian_32 (buf : list Z) (off : nat) : Z :=
  cast_uint32
    (Z.lor (Z.lor (Z.lor (cast_int (Z.shiftl (peek buf off) 24))
                         (cast_int (Z.shiftl (peek buf (off + 1)) 16)))
                  (cast_int (Z.shiftl (peek buf (off + 2)) 8)))
           (peek buf (off + 3))).

(** [set_big_endian_64(buf + off, val)] *)
Definition set_big_endian_64 (buf : list Z) (off : nat) (val : Z) : list Z :=
  let buf := set_big_endian_32 buf off (cast_uint32 (Z.shiftr val 32)) in
  set_big_endian_32 buf (off + 4) (cast_uint32 val).

(** [get_big_endian_64(buf + off)] *)
Definition get_big_endian_64 (buf : list Z) (off : nat) : Z :=
  cast_uint64
    (Z.lor (cast_uint64 (Z.shiftl (get_big_endian_32 buf off) 32))
           (get_big_endian_32 buf (off + 4))).

(** The four bytes a 32 bit value is stored as, and the eight of a 64 bit
    value. *)
Definition be32_bytes (val : Z) : list Z :=
  [cast_uint8 (Z.shiftr val 24); cast_uint8 (Z.shiftr val 16);
   cast_uint8 (Z.shiftr val 8); cast_uint8 val].

Definition be64_bytes (val : Z) : list Z :=
  be32_bytes (cast_uint32 (Z.shiftr val 32)) ++ be32_bytes (cast_uint32 val).

End BigEndian.

(** ** GLib and libc functions the runtime calls

    These are not code of the repository; they are written down from the
    libraries' documented behaviour, as far as the callers below use it. *)

Module Glib.

(** [g_utf8_skip[c]]: the length of a UTF-8 sequence from its first byte
    (GLib's [utf8_skip_data] table). *)
Definition g_utf8_skip (c : Z) : nat :=
  if c <? 192 then 1%nat
  else if c <? 224 then 2%nat
  else if c <? 240 then 3%nat
  else if c <? 248 then 4%nat
  else if c <? 252 then 5%nat
  else if c <? 254 then 6%nat
  else 1%nat.

(** [g_utf8_strlen(p, -1)]: [while ( *p ) { p = g_utf8_next_char (p); ++len; }].
    The string is the list of its bytes before the terminating NUL; a
    sequence cut short by the end of the string counts as one character. *)
Fixpoint g_utf8_strlen_from (fuel : nat) (p : list Z) : Z :=
  match fuel with
  | O => 0
  | S fuel =>
      match p with
      | [] => 0
      | c :: _ => 1 + g_utf8_strlen_from fuel (drop (g_utf8_skip c) p)
      end
  end.

(** Every step consumes at least one byte, so [length p] steps suffice. *)
Definition g_utf8_strlen (p : list Z) : Z := g_utf8_strlen_from (length p) p.

(** [strlen] *)
Definition strlen (p : list Z) : Z := Z.of_nat (length p).

(** [__bswap_32] *)
Definition bswap_32 (x : Z) : Z :=
  Z.lor (Z.lor (Z.lor (Z.shiftl (cast_uint8 x) 24)
                      (Z.shiftl (cast_uint8 (Z.shiftr x 8)) 16))
               (Z.shiftl (cast_uint8 (Z.shiftr x 16)) 8))
        (cast_uint8 (Z.shiftr x 24)).

(** [htonl] on a host that is little-endian ([le = true], the supported
    x86-64) or big-endian. *)
Definition htonl (le : bool) (x : Z) : Z := if le then bswap_32 x else x.

(** The four bytes a [guint32] occupies in the host's memory. *)
Definition guint32_in_memory (le : bool) (x : Z) : list Z :=
  if le then
    [cast_uint8 x; cast_uint8 (Z.shiftr x 8);
     cast_uint8 (Z.shiftr x 16); cast_uint8 (Z.shiftr x 24)]
  else BigEndian.be32_bytes x.

(** [GIOStatus], as far as writing returns it. *)
Inductive GIOStatus : Type :=
| G_IO_STATUS_ERROR
| G_IO_STATUS_NORMAL
| G_IO_STATUS_AGAIN.

(** [GIOCondition], the two conditions the write watch is registered for. *)
Inductive GIOCondition : Type :=
| G_IO_OUT
| G_IO_HUP.

(** A [GIOChannel] with a [NULL] encoding (raw bytes) over a socket: the
    bytes buffered in the channel, the bytes that reached the socket, and the
    statuses the next calls on the channel will meet before it is ready
    (each call takes the first; an exhausted list means the channel is
    ready, [G_IO_STATUS_NORMAL]). A call that returns [G_IO_STATUS_AGAIN] or
    [G_IO_STATUS_ERROR] takes no byte. *)
Record GIOChannel : Type := mkGIOChannel {
  chan_buffered : list Z;
  chan_sent : list Z;
  chan_pending : list GIOStatus;
}.

Definition next_status (ch : GIOChannel) : GIOStatus * GIOChannel :=
  match chan_pending ch with
  | [] => (G_IO_STATUS_NORMAL, ch)
  | st :: rest =>
      (st, {| chan_buffered := chan_buffered ch; chan_sent := chan_sent ch;
              chan_pending := rest |})
  end.

(** [g_io_channel_write_chars (ch, buf, count, ...)] with [count >= 0]. *)
Definition g_io_channel_write_chars (ch : GIOChannel) (buf : list Z) (count : Z)
  : GIOStatus * GIOChannel :=
  let '(st, ch) := next_status ch in
  match st with
  | G_IO_STATUS_NORMAL =>
      (st, {| chan_buffered := chan_buffered ch ++ take (Z.to_nat count) buf;
              chan_sent := chan_sent ch; chan_pending := chan_pending ch |})
  | _ => (st, ch)
  end.

(** [g_io_channel_flush (ch, ...)] *)
Definition g_io_channel_flush (ch : GIOChannel) : GIOStatus * GIOChannel :=
  let '(st, ch) := next_status ch in
  match st with
  | G_IO_STATUS_NORMAL =>
      (st, {| chan_buffered := [];
              chan_sent := chan_sent ch ++ chan_buffered ch;
              chan_pending := chan_pending ch |})
  | _ => (st, ch)
  end.

End Glib.

(** ** src/proxy.c: writing a message to the proxy control socket *)

Module Proxy.

Import Glib.

(** [struct proxy_msg]: [length], [reserved] and [data], the pointer to the
    payload. *)
Record proxy_msg : Type := mkProxyMsg {
  msg_length : Z;
  msg_reserved : Z;
  msg_data : list Z;
}.

(** [sizeof (msg.length) + sizeof (msg.reserved)] *)
Definition header_size : Z := 4 + 4.

(** The first [header_size] bytes at [&msg]. *)
Definition proxy_msg_header_in_memory (le : bool) (msg : proxy_msg) : list Z :=
  guint32_in_memory le (msg_length msg) ++ guint32_in_memory le (msg_reserved msg).

(** [do { status = call; } while (status == G_IO_STATUS_AGAIN);] over the
    statuses the channel has pending: every retry takes one. *)
Fixpoint retry_while_again (pending : list GIOStatus)
    (call : GIOChannel -> GIOStatus * GIOChannel) (ch : GIOChannel)
  : GIOStatus * GIOChannel :=
  match call ch with
  | (G_IO_STATUS_AGAIN, ch') =>
      match pending with
      | [] => (G_IO_STATUS_AGAIN, ch')
      | _ :: pending => retry_while_again pending call ch'
      end
  | r => r
  end.

Definition do_while_again (call : GIOChannel -> GIOStatus * GIOChannel)
    (ch : GIOChannel) : GIOStatus * GIOChannel :=
  retry_while_again (chan_pending ch) call ch.

(** [cc_proxy_msg_write (source, condition, proxy_data)]: the channel
    afterwards, and whether the reply watch ([cc_proxy_msg_read]) was
    registered. The function itself always returns [false] (it unregisters
    the write watch). *)
Definition cc_proxy_msg_write (le : bool) (source : GIOChannel)
    (condition : GIOCondition) (msg_to_send : list Z) : GIOChannel * bool :=
  match condition with
  | G_IO_HUP => (source, false)
  | G_IO_OUT =>
      let len := g_utf8_strlen msg_to_send in
      let msg := {| msg_length := htonl le (cast_uint32 len); msg_reserved := 0;
                    msg_data := msg_to_send |} in
      let '(status, source) :=
        do_while_again
          (fun ch => g_io_channel_write_chars ch
                       (proxy_msg_header_in_memory le msg) header_size)
          source in
      match status with
      | G_IO_STATUS_ERROR => (source, false)
      | _ =>
          let '(status, source) :=
            do_while_again
              (fun ch => g_io_channel_write_chars ch msg_to_send len) source in
          match status with
          | G_IO_STATUS_ERROR => (source, false)
          | _ =>
              let '(status, source) := do_while_again g_io_channel_flush source in
              match status with
              | G_IO_STATUS_ERROR => (source, false)
              | _ => (source, true)
              end
          end
      end
  end.

(** A fresh channel that is ready ([g_io_channel_unix_new] in
    [cc_proxy_run_cmd]). *)
Definition ready_channel : GIOChannel :=
  {| chan_buffered := []; chan_sent := []; chan_pending := [] |}.

(** The frame of a message: what reaches the socket from a ready channel. *)
Definition frame_of (le : bool) (msg_to_send : list Z) : list Z :=
  chan_sent (fst (cc_proxy_msg_write le ready_channel G_IO_OUT msg_to_send)).

End Proxy.

(** ** libc: terminal settings *)

Module Termios.

(** [struct termios], the flag words and the control characters. *)
Record termios : Type := mk_termios {
  c_iflag : Z;
  c_oflag : Z;
  c_cflag : Z;
  c_lflag : Z;
  c_cc : list Z;
}.

(** [cfmakeraw], as termios(3) documents it (Linux flag values):
    [c_iflag &= ~(IGNBRK|BRKINT|PARMRK|ISTRIP|INLCR|IGNCR|ICRNL|IXON)],
    [c_oflag &= ~OPOST], [c_lflag &= ~(ECHO|ECHONL|ICANON|ISIG|IEXTEN)],
    [c_cflag &= ~(CSIZE|PARENB)], [c_cflag |= CS8]. *)
Definition cfmakeraw (t : termios) : termios :=
  {| c_iflag := Z.ldiff (c_iflag t) 1515;
     c_oflag := Z.ldiff (c_oflag t) 1;
     c_cflag := Z.lor (Z.ldiff (c_cflag t) 304) 48;
     c_lflag := Z.ldiff (c_lflag t) 32843;
     c_cc := c_cc t |}.

End Termios.

(** ** shim/shim.c: stream frames from the proxy I/O descriptor *)

Module Shim.

Import BigEndian Termios.

Definition STREAM_HEADER_SIZE : Z := 12.
Definition STREAM_HEADER_LENGTH_OFFSET : nat := 8.
Definition HYPERSTART_MAX_RECV_BYTES : Z := 10240.
Definition BUFSIZ : Z := 8192.
Definition STDIN_FILENO : Z := 0.
Definition STDOUT_FILENO : Z := 1.
Definition STDERR_FILENO : Z := 2.
Definition EXIT_FAILURE : Z := 1.
Definition LOG_WARNING : Z := 4.

(** [struct cc_shim] *)
Record cc_shim : Type := mk_cc_shim {
  container_id : string;
  proxy_sock_fd : Z;
  proxy_io_fd : Z;
  io_seq_no : Z;
  err_seq_no : Z;
  exiting : bool;
}.

Definition set_exiting (shim : cc_shim) (b : bool) : cc_shim :=
  {| container_id := container_id shim; proxy_sock_fd := proxy_sock_fd shim;
     proxy_io_fd := proxy_io_fd shim; io_seq_no := io_seq_no shim;
     err_seq_no := err_seq_no shim; exiting := b |}.

(** What the shim does to the outside, in the order it does it.
    [EvLog] is a [shim_log] call that is not filtered out (debug messages
    are left out); the log was opened with [LOG_PERROR], so the line also
    goes to the standard error stream. [EvStderrMessage] is the [fprintf] of
    [err_exit]. *)
Inductive event : Type :=
| EvWrite (fd : Z) (data : list Z) (ret : Z)
| EvTcsetattr (fd : Z) (t : termios) (ret : Z)
| EvStderrMessage
| EvLog (priority : Z).

(** The process and its environment.

    - [proxy_io_pending]: what the next [read]s of the proxy I/O descriptor
      meet: [Some data] is a segment that has arrived (a [read] takes a
      prefix of the first segment, at most what it asked for), [Some []] an
      end of file, [None] a failing [read]; after the last one, end of file.
    - [write_results]: what the next [write]s return; after the last one a
      [write] takes every byte it is given.
    - [stdin_tty]: the settings of the terminal on standard input, [None]
      when it is not a terminal; [tcsetattr_fails]: whether [tcsetattr] on
      it fails.
    - [saved_term_settings]: the global of that name ([None] is [NULL]).
    - [trace]: the events so far. *)
Record world : Type := mk_world {
  proxy_io_pending : list (option (list Z));
  write_results : list Z;
  stdin_tty : option termios;
  tcsetattr_fails : bool;
  saved_term_settings : option termios;
  trace : list event;
}.

Definition set_proxy_io_pending (w : world) (p : list (option (list Z))) : world :=
  {| proxy_io_pending := p; write_results := write_results w;
     stdin_tty := stdin_tty w; tcsetattr_fails := tcsetattr_fails w;
     saved_term_settings := saved_term_settings w; trace := trace w |}.

Definition set_write_results (w : world) (r : list Z) : world :=
  {| proxy_io_pending := proxy_io_pending w; write_results := r;
     stdin_tty := stdin_tty w; tcsetattr_fails := tcsetattr_fails w;
     saved_term_settings := saved_term_settings w; trace := trace w |}.

Definition set_stdin_tty (w : world) (t : option termios) : world :=
  {| proxy_io_pending := proxy_io_pending w; write_results := write_results w;
     stdin_tty := t; tcsetattr_fails := tcsetattr_fails w;
     saved_term_settings := saved_term_settings w; trace := trace w |}.

Definition set_saved_term_settings (w : world) (t : option termios) : world :=
  {| proxy_io_pending := proxy_io_pending w; write_results := write_results w;
     stdin_tty := stdin_tty w; tcsetattr_fails := tcsetattr_fails w;
     saved_term_settings := t; trace := trace w |}.

Definition emit (w : world) (e : event) : world :=
  {| proxy_io_pending := proxy_io_pending w; write_results := write_results w;
     stdin_tty := stdin_tty w; tcsetattr_fails := tcsetattr_fails w;
     saved_term_settings := saved_term_settings w; trace := trace w ++ [e] |}.

(** How a call ends: it returns, the process exits with a status, or the
    model ran out of fuel (which [read_IO_message_fuel] rules out). *)
Inductive outcome (A : Type) : Type :=
| Returns (a : A) (w : world)
| Exits (code : Z) (w : world)
| OutOfFuel.
Arguments Returns {A} a w.
Arguments Exits {A} code w.
Arguments OutOfFuel {A}.

(** The status a parent sees in [wait]: the low eight bits of the code. *)
Definition exit_status (code : Z) : Z := Z.land code 255.

(** [isatty(STDIN_FILENO)] *)
Definition isatty_stdin (w : world) : bool :=
  match stdin_tty w with Some _ => true | None => false end.

(** [tcsetattr (STDIN_FILENO, _, t)]: the return value and the world. *)
Definition tcsetattr (w : world) (t : termios) : Z * world :=
  match stdin_tty w with
  | Some _ =>
      if tcsetattr_fails w then (-1, emit w (EvTcsetattr STDIN_FILENO t (-1)))
      else (0, emit (set_stdin_tty w (Some t)) (EvTcsetattr STDIN_FILENO t 0))
  | None => (-1, emit w (EvTcsetattr STDIN_FILENO t (-1)))
  end.

(** [restore_terminal] *)
Definition restore_terminal (w : world) : world :=
  match saved_term_settings w with
  | Some saved =>
      if isatty_stdin w then
        let '(ret, w) := tcsetattr w saved in
        let w := if ret =? 0 then w else emit w (EvLog LOG_WARNING) in
        set_saved_term_settings w None
      else w
  | None => w
  end.

(** [exit (code)]: [main] registered [restore_terminal] with [atexit]
    before it entered the loop. *)
Definition exit {A : Type} (code : Z) (w : world) : outcome A :=
  Exits code (restore_terminal w).

(** [err_exit (format, ...)] with a format *)
Definition err_exit {A : Type} (w : world) : outcome A :=
  let w := emit w EvStderrMessage in
  let w := restore_terminal w in
  exit EXIT_FAILURE w.

(** The terminal set-up of [main], before the loop: on a terminal the
    settings are saved and the terminal is put in raw mode. *)
Definition setup_terminal (w : world) : world :=
  match stdin_tty w with
  | Some term_settings =>
      let w := set_saved_term_settings w (Some term_settings) in
      snd (tcsetattr w (cfmakeraw term_settings))
  | None => w
  end.

(** [read (shim->proxy_io_fd, buf + bytes_read, want)]: the return value,
    the bytes stored, the world. *)
Definition read (w : world) (want : Z) : Z * list Z * world :=
  match proxy_io_pending w with
  | [] => (0, [], w)
  | None :: rest => (-1, [], set_proxy_io_pending w rest)
  | Some data :: rest =>
      let got := take (Z.to_nat want) data in
      let left := drop (Z.to_nat want) data in
      (Z.of_nat (length got), got,
       set_proxy_io_pending w
         (match left with [] => rest | _ => Some left :: rest end))
  end.

(** [calloc (n, 1)] and [realloc (buf, n)] for a growing size (the fresh
    bytes of a [realloc] are taken as zero). *)
Definition calloc (n : Z) : list Z := replicate (Z.to_nat n) 0.
Definition realloc (buf : list Z) (n : Z) : list Z :=
  buf ++ replicate (Z.to_nat n - length buf) 0.

(** The [return buf] of [read_IO_message], after [*seq] is set. *)
Definition read_IO_return (w : world) (buf : list Z) (stream_len : Z)
  : outcome (option (list Z) * Z * Z) :=
  Returns (Some buf, get_big_endian_64 buf 0, stream_len) w.

(** The [while (bytes_read < need_read)] loop of [read_IO_message]. The
    result is the buffer returned ([None] is [NULL]), [*seq] and
    [*stream_len]. *)
Fixpoint read_IO_loop (fuel : nat) (w : world) (buf : list Z)
    (bytes_read need_read stream_len : Z)
  : outcome (option (list Z) * Z * Z) :=
  match fuel with
  | O => OutOfFuel
  | S fuel =>
      if bytes_read <? need_read then
        let want := need_read - bytes_read in
        let want := if want >? BUFSIZ then BUFSIZ else want in
        let '(ret, data, w) := read w want in
        if ret =? -1 then err_exit w
        else if ret =? 0 then err_exit w
        else
          let buf := list_inserts (Z.to_nat bytes_read) data buf in
          let bytes_read := bytes_read + ret in
          if (stream_len =? 0) && (bytes_read >=? STREAM_HEADER_SIZE) then
            let stream_len :=
              get_big_endian_32 buf STREAM_HEADER_LENGTH_OFFSET in
            if stream_len =? STREAM_HEADER_SIZE then
              read_IO_return w buf stream_len
            else if stream_len >? HYPERSTART_MAX_RECV_BYTES then
              Returns (None, 0, stream_len) (emit w (EvLog LOG_WARNING))
            else if stream_len >? STREAM_HEADER_SIZE then
              read_IO_loop fuel w (realloc buf stream_len)
                bytes_read stream_len stream_len
            else read_IO_loop fuel w buf bytes_read need_read stream_len
          else read_IO_loop fuel w buf bytes_read need_read stream_len
      else read_IO_return w buf stream_len
  end.

(** Every turn of the loop that does not leave it stores at least one
    byte, and at most [HYPERSTART_MAX_RECV_BYTES] bytes are asked for. *)
Definition read_IO_message_fuel : nat :=
  S (Z.to_nat HYPERSTART_MAX_RECV_BYTES).

(** [read_IO_message (shim, &seq, &stream_len)] *)
Definition read_IO_message (shim : cc_shim) (w : world)
  : outcome (option (list Z) * Z * Z) :=
  read_IO_loop read_IO_message_fuel w (calloc STREAM_HEADER_SIZE)
    0 STREAM_HEADER_SIZE 0.

(** The [while (offset < stream_len)] loop of [handle_proxy_output], over
    the results the next [write]s return: the results left and the events. *)
Fixpoint write_loop (results : list Z) (outfd : Z) (buf : list Z)
    (offset stream_len : Z) : list Z * list event :=
  if offset <? stream_len then
    let data := take (Z.to_nat (stream_len - offset)) (drop (Z.to_nat offset) buf) in
    match results with
    | [] => ([], [EvWrite outfd data (stream_len - offset)])
    | ret :: results =>
        if ret <=? 0 then (results, [EvWrite outfd data ret])
        else
          let '(results, evs) :=
            write_loop results outfd buf (offset + ret) stream_len in
          (results, EvWrite outfd data ret :: evs)
    end
  else (results, []).

Definition write_all (w : world) (outfd : Z) (buf : list Z)
    (offset stream_len : Z) : world :=
  let '(results, evs) :=
    write_loop (write_results w) outfd buf offset stream_len in
  {| proxy_io_pending := proxy_io_pending w; write_results := results;
     stdin_tty := stdin_tty w; tcsetattr_fails := tcsetattr_fails w;
     saved_term_settings := saved_term_settings w; trace := trace w ++ evs |}.

(** The part of [handle_proxy_output] after the message is read and found
    usable: routing by sequence number, the end-of-stream protocol, the
    write loop. *)
Definition dispatch_frame (shim : cc_shim) (w : world) (buf : list Z)
    (seq stream_len : Z) : outcome cc_shim :=
  let routed (outfd : Z) : outcome cc_shim :=
    if negb (exiting shim) && (stream_len =? STREAM_HEADER_SIZE) then
      Returns (set_exiting shim true) w
    else if exiting shim && (stream_len =? STREAM_HEADER_SIZE + 1) then
      let code := cast_char (peek buf (Z.to_nat STREAM_HEADER_SIZE)) in
      exit code (restore_terminal w)
    else
      Returns shim (write_all w outfd buf STREAM_HEADER_SIZE stream_len)
  in
  if seq =? io_seq_no shim then routed STDOUT_FILENO
  else if seq =? cast_uint64 (io_seq_no shim + 1) then routed STDERR_FILENO
  else Returns shim (emit w (EvLog LOG_WARNING)).

(** [handle_proxy_output (shim)]: the shim afterwards. *)
Definition handle_proxy_output (shim : cc_shim) (w : world) : outcome cc_shim :=
  match read_IO_message shim w with
  | OutOfFuel => OutOfFuel
  | Exits code w => Exits code w
  | Returns (buf, seq, stream_len) w =>
      match buf with
      | None => Returns shim w
      | Some buf =>
          if (stream_len <=? 0) || (stream_len >? HYPERSTART_MAX_RECV_BYTES)
          then Returns shim w
          else dispatch_frame shim w buf seq stream_len
      end
  end.

(** The [poll] loop of [main], for [n] turns in each of which only the
    proxy I/O descriptor is ready. *)
Fixpoint proxy_io_events (n : nat) (shim : cc_shim) (w : world)
  : outcome cc_shim :=
  match n with
  | O => Returns shim w
  | S n =>
      match handle_proxy_output shim w with
      | Returns shim w => proxy_io_events n shim w
      | o => o
      end
  end.

(** The bytes a descriptor has taken: of every [write] on it, the part the
    call reported as written. *)
Definition fd_output (fd : Z) (tr : list event) : list Z :=
  concat (omap (fun e =>
                  match e with
                  | EvWrite fd' data ret =>
                      if fd' =? fd then Some (take (Z.to_nat ret) data) else None
                  | _ => None
                  end) tr).

(** The bytes pending on the proxy I/O descriptor up to its first end of
    file or failing [read]. *)
Fixpoint pending_bytes (p : list (option (list Z))) : list Z :=
  match p with
  | Some (b :: data) :: rest => (b :: data) ++ pending_bytes rest
  | _ => []
  end.

(** A well-formed stream frame: twelve header bytes and the payload, the
    length field counting both, within the bound the shim accepts. *)
Definition frame_seq (frame : list Z) : Z := get_big_endian_64 frame 0.
Definition frame_length (frame : list Z) : Z :=
  get_big_endian_32 frame STREAM_HEADER_LENGTH_OFFSET.
Definition frame_payload (frame : list Z) : list Z :=
  drop (Z.to_nat STREAM_HEADER_SIZE) frame.

Definition well_formed_frame (frame : list Z) : Prop :=
  frame_length frame = Z.of_nat (length frame) /\
  STREAM_HEADER_SIZE <= Z.of_nat (length frame) <= HYPERSTART_MAX_RECV_BYTES.

(** The frame's sequence number is the shim's for standard output, or one
    more, which the shim takes for standard error. *)
Definition seq_matches (shim : cc_shim) (frame : list Z) : bool :=
  (frame_seq frame =? io_seq_no shim)
  || (frame_seq frame =? cast_uint64 (io_seq_no shim + 1)).

(** The descriptor a frame with a matching sequence number is routed to. *)
Definition routed_fd (shim : cc_shim) (frame : list Z) : Z :=
  if frame_seq frame =? io_seq_no shim then STDOUT_FILENO else STDERR_FILENO.

(** The end-of-stream frame of the agent: a header and no payload, for one
    of the shim's streams. *)
Definition is_eof_frame (shim : cc_shim) (frame : list Z) : bool :=
  seq_matches shim frame && (Z.of_nat (length frame) =? STREAM_HEADER_SIZE).

(** A frame with one payload byte, for one of the shim's streams: after the
    end of stream it carries the exit status. *)
Definition is_one_byte_frame (shim : cc_shim) (frame : list Z) : bool :=
  seq_matches shim frame && (Z.of_nat (length frame) =? STREAM_HEADER_SIZE + 1).

(** The world after a frame that is handled without leaving the process:
    nothing for the end-of-stream frame that sets [exiting], the write loop
    on the routed descriptor for every other frame of the shim's streams, a
    logged warning for a frame of another stream. *)
Definition world_after_frame (shim : cc_shim) (w : world) (frame : list Z)
  : world :=
  if seq_matches shim frame then
    if negb (exiting shim) && (Z.of_nat (length frame) =? STREAM_HEADER_SIZE)
    then w
    else write_all w (routed_fd shim frame) frame STREAM_HEADER_SIZE
           (Z.of_nat (length frame))
  else emit w (EvLog LOG_WARNING).

(** Building a frame from its parts. *)
Definition mk_frame (seq : Z) (payload : list Z) : list Z :=
  be64_bytes seq ++ be32_bytes (STREAM_HEADER_SIZE + Z.of_nat (length payload))
    ++ payload.

End Shim.

(** ** libc and GLib: reading numbers *)

Module Strtol.

Definition g_ascii_isspace (c : ascii) : bool :=
  let n := nat_of_ascii c in
  (n =? 32)%nat || (n =? 9)%nat || (n =? 10)%nat || (n =? 12)%nat || (n =? 13)%nat.

(** [isspace] in the C locale, which also takes the vertical tab. *)
Definition isspace (c : ascii) : bool :=
  g_ascii_isspace c || (nat_of_ascii c =? 11)%nat.

Definition digit_of (c : ascii) : option Z :=
  let n := nat_of_ascii c in
  if (48 <=? n)%nat && (n <=? 57)%nat then Some (Z.of_nat n - 48) else None.

(** The decimal digits at the front of [s]: their value, and how many
    there are. *)
Fixpoint digits (s : list ascii) (acc : Z) (count : nat) : Z * nat :=
  match s with
  | c :: rest =>
      match digit_of c with
      | Some d => digits rest (10 * acc + d) (S count)
      | None => (acc, count)
      end
  | [] => (acc, count)
  end.

Fixpoint skip_spaces (space : ascii -> bool) (s : list ascii) : list ascii :=
  match s with
  | c :: rest => if space c then skip_spaces space rest else s
  | [] => []
  end.

(** Base 10 [strtol]/[strtoll]/[g_ascii_strtoll] for a type with values in
    [lo, hi]: white space, an optional sign, digits; the value clamped to the
    range, and whether any digit was converted ([endptr != nptr]). *)
Definition strto (space : ascii -> bool) (lo hi : Z) (nptr : string)
  : Z * bool :=
  let s := skip_spaces space (list_ascii_of_string nptr) in
  let '(negative, s) :=
    match s with
    | "-"%char :: rest => (true, rest)
    | "+"%char :: rest => (false, rest)
    | _ => (false, s)
    end in
  let '(v, count) := digits s 0 0 in
  match count with
  | O => (0, false)
  | _ => (Z.max lo (Z.min hi (if negative then - v else v)), true)
  end.

(** [g_ascii_strtoll (nptr, &endptr, 10)] *)
Definition g_ascii_strtoll (nptr : string) : Z * bool :=
  strto g_ascii_isspace (- 2 ^ 63) (2 ^ 63 - 1) nptr.

(** [atoi (nptr)], which glibc defines as [(int) strtol (nptr, NULL, 10)]. *)
Definition atoi (nptr : string) : Z :=
  cast_int (fst (strto isspace (- 2 ^ 63) (2 ^ 63 - 1) nptr)).

End Strtol.

(** ** src/json.c: a JSON document as a tree of [GNode]s *)

Module Json.

(** What json-glib hands over: the node types that [cc_oci_json_parse_aux]
    tells apart. A double is carried as its [%f] rendering. The members of
    an object have distinct names (json-glib keeps the last of equal ones). *)
Inductive JsonValue : Type :=
| JString (s : string)
| JInt (n : Z)
| JBoolean (b : bool)
| JDouble (printed : string).

Inductive JsonNode : Type :=
| JSON_NODE_NULL
| JSON_NODE_VALUE (v : JsonValue)
| JSON_NODE_ARRAY (elements : list JsonNode)
| JSON_NODE_OBJECT (members : list (string * JsonNode)).

(** GLib's n-ary tree: the data of a node ([None] is [NULL]) and its
    children, first to last. *)
Inductive GNode : Type :=
| G_NODE (data : option string) (children : list GNode).

Definition node_data (n : GNode) : option string :=
  match n with G_NODE data _ => data end.

Definition node_children (n : GNode) : list GNode :=
  match n with G_NODE _ children => children end.

(** [cc_oci_json_string] *)
Definition cc_oci_json_string (v : JsonValue) : string :=
  match v with
  | JString s => s
  | JDouble printed => printed
  | JInt n => pretty n
  | JBoolean true => "true"
  | JBoolean false => "false"
  end.

(** [cc_oci_json_parse_aux (root, node, parsing_array)]: the children it
    appends to [node]. An object appends a node without data and then one
    node per member, the member's value below it; an array appends what its
    elements append; a value appends its string, with a node without data
    below it inside an array. *)
Fixpoint cc_oci_json_parse_aux (root : JsonNode) (parsing_array : bool)
  : list GNode :=
  match root with
  | JSON_NODE_OBJECT members =>
      G_NODE None []
      :: map (fun member : string * JsonNode =>
                match member with
                | (key, value) =>
                    G_NODE (Some key) (cc_oci_json_parse_aux value false)
                end) members
  | JSON_NODE_ARRAY elements =>
      concat (map (fun element => cc_oci_json_parse_aux element true) elements)
  | JSON_NODE_VALUE v =>
      [G_NODE (Some (cc_oci_json_string v))
         (if parsing_array then [G_NODE None []] else [])]
  | JSON_NODE_NULL => []
  end.

(** [cc_oci_json_parse (&node, filename)], given what
    [json_parser_load_from_file] and [json_parser_get_root] make of the file
    ([None]: the file does not load, or has no root). *)
Definition cc_oci_json_parse (load : string -> option JsonNode)
    (filename : option string) : option GNode :=
  match filename with
  | None => None
  | Some "" => None
  | Some filename =>
      match load filename with
      | None => None
      | Some root =>
          Some (G_NODE (Some filename) (cc_oci_json_parse_aux root false))
      end
  end.

End Json.

(** ** src/state.c: reading the state document *)

Module State.

Import Strtol Json.

Definition PATH_MAX : nat := 4096.

(** [enum oci_status] *)
Inductive oci_status : Type :=
| OCI_STATUS_CREATED
| OCI_STATUS_RUNNING
| OCI_STATUS_PAUSED
| OCI_STATUS_STOPPED
| OCI_STATUS_STOPPING
| OCI_STATUS_INVALID.

Definition oci_status_eqb (a b : oci_status) : bool :=
  match a, b with
  | OCI_STATUS_CREATED, OCI_STATUS_CREATED
  | OCI_STATUS_RUNNING, OCI_STATUS_RUNNING
  | OCI_STATUS_PAUSED, OCI_STATUS_PAUSED
  | OCI_STATUS_STOPPED, OCI_STATUS_STOPPED
  | OCI_STATUS_STOPPING, OCI_STATUS_STOPPING
  | OCI_STATUS_INVALID, OCI_STATUS_INVALID => true
  | _, _ => false
  end.

(** [oci_status_map], up to its terminator. *)
Definition oci_status_map : list (oci_status * string) :=
  [(OCI_STATUS_CREATED, "created"); (OCI_STATUS_RUNNING, "running");
   (OCI_STATUS_PAUSED, "paused"); (OCI_STATUS_STOPPED, "stopped");
   (OCI_STATUS_STOPPING, "stopping")].

(** [cc_oci_status_to_str]; [None] is [NULL]. *)
Definition cc_oci_status_to_str (status : oci_status) : option string :=
  snd <$> List.find (fun p => oci_status_eqb (fst p) status) oci_status_map.

(** [cc_oci_str_to_status] *)
Definition cc_oci_str_to_status (str : string) : oci_status :=
  match List.find (fun p => String.eqb str (snd p)) oci_status_map with
  | Some p => fst p
  | None => OCI_STATUS_INVALID
  end.

(** [enum oci_namespace] and [oci_ns_map] of [src/namespace.c] *)
Inductive oci_namespace : Type :=
| OCI_NS_PID | OCI_NS_NET | OCI_NS_MOUNT | OCI_NS_IPC | OCI_NS_UTS
| OCI_NS_USER | OCI_NS_CGROUP | OCI_NS_INVALID.

Definition oci_ns_map : list (oci_namespace * string) :=
  [(OCI_NS_CGROUP, "cgroup"); (OCI_NS_IPC, "ipc"); (OCI_NS_MOUNT, "mount");
   (OCI_NS_NET, "network"); (OCI_NS_PID, "pid"); (OCI_NS_USER, "user");
   (OCI_NS_UTS, "uts")].

(** [cc_oci_str_to_ns] *)
Definition cc_oci_str_to_ns (str : string) : oci_namespace :=
  match List.find (fun p => String.eqb str (snd p)) oci_ns_map with
  | Some p => fst p
  | None => OCI_NS_INVALID
  end.

(** [struct cc_oci_mount], the members the state reader sets. *)
Record cc_oci_mount : Type := mk_mount {
  dest : string;
  ignore_mount : bool;
  directory_created : option string;
}.

(** [struct oci_cfg_namespace] *)
Record oci_cfg_namespace : Type := mk_namespace {
  ns_type : oci_namespace;
  ns_path : option string;
}.

(** [struct oci_cfg_annotation] *)
Record oci_cfg_annotation : Type := mk_annotation {
  key : string;
  value : option string;
}.

(** [struct cc_oci_vm_cfg] *)
Record cc_oci_vm_cfg : Type := mk_vm_cfg {
  hypervisor_path : string;
  image_path : string;
  kernel_path : string;
  workload_path : string;
  kernel_params : option string;
  vm_pid : Z;
}.

(** [struct cc_proxy], without the live socket. *)
Record cc_proxy : Type := mk_proxy {
  agent_ctl_socket : option string;
  agent_tty_socket : option string;
  vm_console_socket : option string;
}.

(** [struct cc_pod], the members the state reader sets. *)
Record cc_pod : Type := mk_pod {
  sandbox : bool;
  sandbox_name : option string;
}.

(** [struct oci_state]; a [gchar *] is [None] when [NULL]. The [process]
    member is filled by [process_spec_handler] of
    [src/spec_handlers/process.c]; here it keeps the node handed to that
    handler. *)
Record oci_state : Type := mk_state {
  oci_version : option string;
  id : option string;
  pid : Z;
  bundle_path : option string;
  comms_path : option string;
  procsock_path : option string;
  status : oci_status;
  create_time : option string;
  mounts : list cc_oci_mount;
  annotations : list oci_cfg_annotation;
  namespaces : list oci_cfg_namespace;
  console : option string;
  vm : cc_oci_vm_cfg;
  proxy : cc_proxy;
  pod : option cc_pod;
  process : option GNode;
}.

(** [g_new0 (struct oci_state, 1)] with [vm] and [proxy] allocated. *)
Definition state_new : oci_state :=
  {| oci_version := None; id := None; pid := 0; bundle_path := None;
     comms_path := None; procsock_path := None; status := OCI_STATUS_CREATED;
     create_time := None; mounts := []; annotations := []; namespaces := [];
     console := None;
     vm := {| hypervisor_path := ""; image_path := ""; kernel_path := "";
              workload_path := ""; kernel_params := None; vm_pid := 0 |};
     proxy := {| agent_ctl_socket := None; agent_tty_socket := None;
                 vm_console_socket := None |};
     pod := None; process := None |}.

(** [struct handler_data]: the state being filled and the counter of the
    handler that runs. *)
Definition handler_data : Type := oci_state * nat.

Definition set_vm (st : oci_state) (v : cc_oci_vm_cfg) : oci_state :=
  {| oci_version := oci_version st; id := id st; pid := pid st;
     bundle_path := bundle_path st; comms_path := comms_path st;
     procsock_path := procsock_path st; status := status st;
     create_time := create_time st; mounts := mounts st;
     annotations := annotations st; namespaces := namespaces st;
     console := console st; vm := v; proxy := proxy st; pod := pod st;
     process := process st |}.

Definition set_proxy (st : oci_state) (p : cc_proxy) : oci_state :=
  {| oci_version := oci_version st; id := id st; pid := pid st;
     bundle_path := bundle_path st; comms_path := comms_path st;
     procsock_path := procsock_path st; status := status st;
     create_time := create_time st; mounts := mounts st;
     annotations := annotations st; namespaces := namespaces st;
     console := console st; vm := vm st; proxy := p; pod := pod st;
     process := process st |}.

Definition set_pod (st : oci_state) (p : option cc_pod) : oci_state :=
  {| oci_version := oci_version st; id := id st; pid := pid st;
     bundle_path := bundle_path st; comms_path := comms_path st;
     procsock_path := procsock_path st; status := status st;
     create_time := create_time st; mounts := mounts st;
     annotations := annotations st; namespaces := namespaces st;
     console := console st; vm := vm st; proxy := proxy st; pod := p;
     process := process st |}.

Definition set_mounts (st : oci_state) (m : list cc_oci_mount) : oci_state :=
  {| oci_version := oci_version st; id := id st; pid := pid st;
     bundle_path := bundle_path st; comms_path := comms_path st;
     procsock_path := procsock_path st; status := status st;
     create_time := create_time st; mounts := m;
     annotations := annotations st; namespaces := namespaces st;
     console := console st; vm := vm st; proxy := proxy st; pod := pod st;
     process := process st |}.

Definition set_namespaces (st : oci_state) (n : list oci_cfg_namespace)
  : oci_state :=
  {| oci_version := oci_version st; id := id st; pid := pid st;
     bundle_path := bundle_path st; comms_path := comms_path st;
     procsock_path := procsock_path st; status := status st;
     create_time := create_time st; mounts := mounts st;
     annotations := annotations st; namespaces := n;
     console := console st; vm := vm st; proxy := proxy st; pod := pod st;
     process := process st |}.

(** [node->children->data]: the data of the first child. *)
Definition first_child_data (node : GNode) : option string :=
  match node_children node with
  | child :: _ => node_data child
  | [] => None
  end.

(** [g_strlcpy (dest, src, sizeof (dest))] into a [gchar [PATH_MAX]]. *)
Definition g_strlcpy (src : string) : string :=
  String.substring 0 (PATH_MAX - 1) src.

(** The handlers of the sections that are a single string. *)
Definition handle_state_ociVersion_section (node : GNode) (data : handler_data)
  : handler_data :=
  match node_data node with
  | Some s =>
      let st := fst data in
      ({| oci_version := Some s; id := id st; pid := pid st;
          bundle_path := bundle_path st; comms_path := comms_path st;
          procsock_path := procsock_path st; status := status st;
          create_time := create_time st; mounts := mounts st;
          annotations := annotations st; namespaces := namespaces st;
          console := console st; vm := vm st; proxy := proxy st;
          pod := pod st; process := process st |}, S (snd data))
  | None => data
  end.

Definition handle_state_id_section (node : GNode) (data : handler_data)
  : handler_data :=
  match node_data node with
  | Some s =>
      let st := fst data in
      ({| oci_version := oci_version st; id := Some s; pid := pid st;
          bundle_path := bundle_path st; comms_path := comms_path st;
          procsock_path := procsock_path st; status := status st;
          create_time := create_time st; mounts := mounts st;
          annotations := annotations st; namespaces := namespaces st;
          console := console st; vm := vm st; proxy := proxy st;
          pod := pod st; process := process st |}, S (snd data))
  | None => data
  end.

Definition handle_state_pid_section (node : GNode) (data : handler_data)
  : handler_data :=
  match node_data node with
  | Some s =>
      let st := fst data in
      let '(n, converted) := g_ascii_strtoll s in
      ({| oci_version := oci_version st; id := id st; pid := cast_int n;
          bundle_path := bundle_path st; comms_path := comms_path st;
          procsock_path := procsock_path st; status := status st;
          create_time := create_time st; mounts := mounts st;
          annotations := annotations st; namespaces := namespaces st;
          console := console st; vm := vm st; proxy := proxy st;
          pod := pod st; process := process st |},
       if converted then S (snd data) else snd data)
  | None => data
  end.

Definition handle_state_bundlePath_section (node : GNode) (data : handler_data)
  : handler_data :=
  match node_data node with
  | Some s =>
      let st := fst data in
      ({| oci_version := oci_version st; id := id st; pid := pid st;
          bundle_path := Some s; comms_path := comms_path st;
          procsock_path := procsock_path st; status := status st;
          create_time := create_time st; mounts := mounts st;
          annotations := annotations st; namespaces := namespaces st;
          console := console st; vm := vm st; proxy := proxy st;
          pod := pod st; process := process st |}, S (snd data))
  | None => data
  end.

Definition handle_state_commsPath_section (node : GNode) (data : handler_data)
  : handler_data :=
  match node_data node with
  | Some s =>
      let st := fst data in
      ({| oci_version := oci_version st; id := id st; pid := pid st;
          bundle_path := bundle_path st; comms_path := Some s;
          procsock_path := procsock_path st; status := status st;
          create_time := create_time st; mounts := mounts st;
          annotations := annotations st; namespaces := namespaces st;
          console := console st; vm := vm st; proxy := proxy st;
          pod := pod st; process := process st |}, S (snd data))
  | None => data
  end.

Definition handle_state_processPath_section (node : GNode) (data : handler_data)
  : handler_data :=
  match node_data node with
  | Some s =>
      let st := fst data in
      ({| oci_version := oci_version st; id := id st; pid := pid st;
          bundle_path := bundle_path st; comms_path := comms_path st;
          procsock_path := Some s; status := status st;
          create_time := create_time st; mounts := mounts st;
          annotations := annotations st; namespaces := namespaces st;
          console := console st; vm := vm st; proxy := proxy st;
          pod := pod st; process := process st |}, S (snd data))
  | None => data
  end.

Definition handle_state_status_section (node : GNode) (data : handler_data)
  : handler_data :=
  match node_data node with
  | Some s =>
      let st := fst data in
      ({| oci_version := oci_version st; id := id st; pid := pid st;
          bundle_path := bundle_path st; comms_path := comms_path st;
          procsock_path := procsock_path st;
          status := cc_oci_str_to_status s;
          create_time := create_time st; mounts := mounts st;
          annotations := annotations st; namespaces := namespaces st;
          console := console st; vm := vm st; proxy := proxy st;
          pod := pod st; process := process st |}, S (snd data))
  | None => data
  end.

Definition handle_state_created_section (node : GNode) (data : handler_data)
  : handler_data :=
  match node_data node with
  | Some s =>
      let st := fst data in
      ({| oci_version := oci_version st; id := id st; pid := pid st;
          bundle_path := bundle_path st; comms_path := comms_path st;
          procsock_path := procsock_path st; status := status st;
          create_time := Some s; mounts := mounts st;
          annotations := annotations st; namespaces := namespaces st;
          console := console st; vm := vm st; proxy := proxy st;
          pod := pod st; process := process st |}, S (snd data))
  | None => data
  end.

(** Changing the last element of a [GSList] in place. *)
Definition alter_last {A : Type} (f : A -> A) (l : list A) : list A :=
  match List.rev l with
  | x :: before => List.rev (f x :: before)
  | [] => []
  end.

Definition handle_state_mounts_section (node : GNode) (data : handler_data)
  : handler_data :=
  match node_data node, first_child_data node with
  | Some name, Some v =>
      let st := fst data in
      if String.eqb name "destination" then
        (set_mounts st
           (mounts st ++ [{| dest := g_strlcpy v; ignore_mount := false;
                             directory_created := None |}]), snd data)
      else if String.eqb name "directory_created" then
        (set_mounts st
           (alter_last (fun m => {| dest := dest m;
                                    ignore_mount := ignore_mount m;
                                    directory_created := Some v |})
              (mounts st)), snd data)
      else data
  | _, _ => data
  end.

Definition handle_state_namespaces_section (node : GNode) (data : handler_data)
  : handler_data :=
  match node_data node, first_child_data node with
  | Some name, Some v =>
      let st := fst data in
      if String.eqb name "type" then
        (set_namespaces st
           (namespaces st ++ [{| ns_type := cc_oci_str_to_ns v;
                                 ns_path := None |}]), snd data)
      else if String.eqb name "path" then
        (set_namespaces st
           (alter_last (fun n => {| ns_type := ns_type n; ns_path := Some v |})
              (namespaces st)), snd data)
      else data
  | _, _ => data
  end.

Definition handle_state_console_section (node : GNode) (data : handler_data)
  : handler_data :=
  match node_data node, first_child_data node with
  | Some name, Some v =>
      let st := fst data in
      if String.eqb name "path" then
        ({| oci_version := oci_version st; id := id st; pid := pid st;
            bundle_path := bundle_path st; comms_path := comms_path st;
            procsock_path := procsock_path st; status := status st;
            create_time := create_time st; mounts := mounts st;
            annotations := annotations st; namespaces := namespaces st;
            console := Some v; vm := vm st; proxy := proxy st;
            pod := pod st; process := process st |}, S (snd data))
      else data
  | _, _ => data
  end.

Definition handle_state_vm_section (node : GNode) (data : handler_data)
  : handler_data :=
  match node_data node, first_child_data node with
  | Some name, Some v =>
      let st := fst data in
      let m := vm st in
      if String.eqb name "workload_path" then
        (set_vm st {| hypervisor_path := hypervisor_path m;
                      image_path := image_path m;
                      kernel_path := kernel_path m;
                      workload_path := g_strlcpy v;
                      kernel_params := kernel_params m; vm_pid := vm_pid m |},
         S (snd data))
      else if String.eqb name "hypervisor_path" then
        (set_vm st {| hypervisor_path := g_strlcpy v;
                      image_path := image_path m;
                      kernel_path := kernel_path m;
                      workload_path := workload_path m;
                      kernel_params := kernel_params m; vm_pid := vm_pid m |},
         S (snd data))
      else if String.eqb name "kernel_path" then
        (set_vm st {| hypervisor_path := hypervisor_path m;
                      image_path := image_path m;
                      kernel_path := g_strlcpy v;
                      workload_path := workload_path m;
                      kernel_params := kernel_params m; vm_pid := vm_pid m |},
         S (snd data))
      else if String.eqb name "image_path" then
        (set_vm st {| hypervisor_path := hypervisor_path m;
                      image_path := g_strlcpy v;
                      kernel_path := kernel_path m;
                      workload_path := workload_path m;
                      kernel_params := kernel_params m; vm_pid := vm_pid m |},
         S (snd data))
      else if String.eqb name "kernel_params" then
        (set_vm st {| hypervisor_path := hypervisor_path m;
                      image_path := image_path m;
                      kernel_path := kernel_path m;
                      workload_path := workload_path m;
                      kernel_params := Some v; vm_pid := vm_pid m |},
         S (snd data))
      else if String.eqb name "pid" then
        let '(n, converted) := g_ascii_strtoll v in
        (set_vm st {| hypervisor_path := hypervisor_path m;
                      image_path := image_path m;
                      kernel_path := kernel_path m;
                      workload_path := workload_path m;
                      kernel_params := kernel_params m;
                      vm_pid := cast_int n |},
         if converted then S (snd data) else snd data)
      else data
  | _, _ => data
  end.

Definition handle_state_proxy_section (node : GNode) (data : handler_data)
  : handler_data :=
  match node_data node, first_child_data node with
  | Some name, Some v =>
      let st := fst data in
      let p := proxy st in
      if String.eqb name "ctlSocket" then
        (set_proxy st {| agent_ctl_socket := Some v;
                         agent_tty_socket := agent_tty_socket p;
                         vm_console_socket := vm_console_socket p |},
         S (snd data))
      else if String.eqb name "ioSocket" then
        (set_proxy st {| agent_ctl_socket := agent_ctl_socket p;
                         agent_tty_socket := Some v;
                         vm_console_socket := vm_console_socket p |},
         S (snd data))
      else if String.eqb name "consoleSocket" then
        (set_proxy st {| agent_ctl_socket := agent_ctl_socket p;
                         agent_tty_socket := agent_tty_socket p;
                         vm_console_socket := Some v |},
         S (snd data))
      else data
  | _, _ => data
  end.

Definition handle_state_pod_section (node : GNode) (data : handler_data)
  : handler_data :=
  match node_data node, first_child_data node with
  | Some name, Some v =>
      let st := fst data in
      let p := match pod st with
               | Some p => p
               | None => {| sandbox := false; sandbox_name := None |}
               end in
      if String.eqb name "sandbox" then
        (set_pod st (Some {| sandbox := String.eqb v "true";
                             sandbox_name := sandbox_name p |}), S (snd data))
      else if String.eqb name "sandbox_name" then
        (set_pod st (Some {| sandbox := sandbox p; sandbox_name := Some v |}),
         S (snd data))
      else (set_pod st (Some p), snd data)
  | _, _ => data
  end.

Definition handle_state_annotations_section (node : GNode) (data : handler_data)
  : handler_data :=
  match node_data node, first_child_data node with
  | Some name, Some v =>
      let st := fst data in
      ({| oci_version := oci_version st; id := id st; pid := pid st;
          bundle_path := bundle_path st; comms_path := comms_path st;
          procsock_path := procsock_path st; status := status st;
          create_time := create_time st; mounts := mounts st;
          annotations := {| key := name; value := Some v |} :: annotations st;
          namespaces := namespaces st;
          console := console st; vm := vm st; proxy := proxy st;
          pod := pod st; process := process st |}, snd data)
  | _, _ => data
  end.

(** [handle_state_process_section] *)
Definition handle_state_process_section (node : GNode) (st : oci_state)
  : oci_state :=
  {| oci_version := oci_version st; id := id st; pid := pid st;
     bundle_path := bundle_path st; comms_path := comms_path st;
     procsock_path := procsock_path st; status := status st;
     create_time := create_time st; mounts := mounts st;
     annotations := annotations st; namespaces := namespaces st;
     console := console st; vm := vm st; proxy := proxy st;
     pod := pod st; process := Some node |}.

(** [struct state_handler]; [subelements_count], the member that changes,
    is kept in a map from the handler's name. *)
Record state_handler : Type := mk_handler {
  name : string;
  handle_section : GNode -> handler_data -> handler_data;
  subelements_needed : nat;
}.

(** [state_handlers], up to its terminator. *)
Definition state_handlers : list state_handler :=
  [ mk_handler "ociVersion" handle_state_ociVersion_section 1;
    mk_handler "id" handle_state_id_section 1;
    mk_handler "pid" handle_state_pid_section 1;
    mk_handler "bundlePath" handle_state_bundlePath_section 1;
    mk_handler "commsPath" handle_state_commsPath_section 1;
    mk_handler "processPath" handle_state_processPath_section 1;
    mk_handler "status" handle_state_status_section 1;
    mk_handler "created" handle_state_created_section 1;
    mk_handler "mounts" handle_state_mounts_section 0;
    mk_handler "console" handle_state_console_section 0;
    mk_handler "vm" handle_state_vm_section 6;
    mk_handler "proxy" handle_state_proxy_section 2;
    mk_handler "pod" handle_state_pod_section 0;
    mk_handler "annotations" handle_state_annotations_section 0;
    mk_handler "namespaces" handle_state_namespaces_section 0 ].

(** The [subelements_count] of a handler. *)
Definition subelements_count (counts : gmap string nat) (handler : string)
  : nat :=
  default 0%nat (counts !! handler).

(** [g_node_children_foreach (node, G_TRAVERSE_ALL, func, data)] *)
Definition g_node_children_foreach {D : Type} (node : GNode)
    (func : GNode -> D -> D) (data : D) : D :=
  foldl (fun data child => func child data) data (node_children node).

(** [handle_state_sections (node, state)] *)
Definition handle_state_sections (node : GNode)
    (data : oci_state * gmap string nat) : oci_state * gmap string nat :=
  match node_data node with
  | None => data
  | Some section =>
      match List.find (fun h => String.eqb (name h) section) state_handlers with
      | Some handler =>
          let '(st, count) :=
            g_node_children_foreach node (handle_section handler)
              (fst data, subelements_count (snd data) (name handler)) in
          (st, <[name handler := count]> (snd data))
      | None =>
          if String.eqb section "process" then
            (handle_state_process_section node (fst data), snd data)
          else data
      end
  end.

(** [cc_oci_state_file_read (file)]; [None] is [NULL]. *)
Definition cc_oci_state_file_read (load : string -> option JsonNode)
    (file : option string) : option oci_state :=
  match cc_oci_json_parse load file with
  | None => None
  | Some node =>
      let '(state, counts) :=
        g_node_children_foreach node handle_state_sections (state_new, ∅) in
      if forallb (fun h => (subelements_needed h <=? subelements_count counts (name h))%nat)
           state_handlers
      then Some state
      else None
  end.

End State.

(** ** The runtime's view of the host *)

Module Host.

(** A path, as the list of its components below the root directory. *)
Definition path : Type := list string.

Inductive ftype : Type :=
| Dir
| File.

(** What a command can do to the outside, in the order it does it.
    [EvStateFile] is a state file written ([g_file_set_contents] succeeded),
    with its [status] and [created] members; [EvSignal] a
    [kill (pid, signum)] that succeeded; [EvHyper] a [hyper] command sent
    through the proxy; [EvCritical] a [g_critical] message; [EvPrint] a
    [g_print]. *)
Inductive event : Type :=
| EvMkdir (p : path)
| EvStateFile (file : string) (status : string) (created : string)
| EvSignal (pid : Z) (signum : Z)
| EvHyper (command : string) (container : string) (signum : Z)
| EvNamespaceSetup
| EvHandleMounts
| EvVmLaunch
| EvPodContainerCreate
| EvCritical (message : string)
| EvPrint (text : string).

(** The part of the host a command does not change, and the results of the
    steps that are not modelled further:
    - [load]: what json-glib makes of each file;
    - [mkdir_denied]: the directories [mkdir] may not create;
    - [can_signal]: [kill (pid, 0) == 0], the pid names a process that the
      caller may signal;
    - the proxy: whether [cc_proxy_connect], [cc_proxy_attach] and
      [cc_proxy_run_hyper_cmd] succeed;
    - [state_document_ok]: whether the mounts, namespaces and process of a
      configuration convert to JSON (in [cc_oci_state_file_create]);
    - the steps of [create] outside the runtime directory. *)
Record env : Type := mk_env {
  load : string -> option Json.JsonNode;
  mkdir_denied : path -> bool;
  can_signal : Z -> bool;
  proxy_connect_ok : bool;
  proxy_attach_ok : bool;
  hyper_cmd_ok : bool;
  state_document_ok : bool;
  config_file_parse_ok : bool;
  config_check_ok : bool;
  ns_setup_ok : bool;
  handle_mounts_ok : bool;
  vm_launch_ok : bool;
  pod_container_create_ok : bool;
}.

(** The part a command changes: the directories and files, the results the
    next writes of a state file meet ([g_file_set_contents]; after the last
    one they succeed), the [status] member of the state file as it is on
    disk ([None] until the command has written it), and the events. *)
Record world : Type := mk_world {
  fs : gmap path ftype;
  state_write_results : list bool;
  state_file_status : option string;
  trace : list event;
}.

Definition emit (w : world) (e : event) : world :=
  {| fs := fs w; state_write_results := state_write_results w;
     state_file_status := state_file_status w; trace := trace w ++ [e] |}.

(** The root directory is a directory. *)
Definition lookup_path (w : world) (p : path) : option ftype :=
  match p with
  | [] => Some Dir
  | _ => fs w !! p
  end.

(** [g_file_test (p, G_FILE_TEST_EXISTS)], [g_file_test (p,
    G_FILE_TEST_IS_DIR)] and the test for either ([G_FILE_TEST_EXISTS |
    G_FILE_TEST_IS_DIR]: true when any of the tests is). *)
Definition g_file_test_exists (w : world) (p : path) : bool :=
  match lookup_path w p with Some _ => true | None => false end.

Definition g_file_test_is_dir (w : world) (p : path) : bool :=
  match lookup_path w p with Some Dir => true | _ => false end.

Definition g_file_test_exists_or_is_dir (w : world) (p : path) : bool :=
  g_file_test_exists w p || g_file_test_is_dir w p.

(** In a file system, what exists lies in a directory. *)
Definition fs_closed (w : world) : Prop :=
  forall p : path,
    g_file_test_exists w p = true -> g_file_test_is_dir w (removelast p) = true.

(** [mkdir (p, mode)]: 0 or -1. *)
Definition mkdir (e : env) (w : world) (p : path) : Z * world :=
  if g_file_test_exists w p then (-1, w)
  else if negb (g_file_test_is_dir w (removelast p)) then (-1, w)
  else if mkdir_denied e p then (-1, w)
  else (0, {| fs := <[p := Dir]> (fs w);
              state_write_results := state_write_results w;
              state_file_status := state_file_status w;
              trace := trace w ++ [EvMkdir p] |}).

(** [g_mkdir_with_parents (pathname, mode)], as GLib documents it: every
    prefix of the path, root first, is created when it does not exist and
    must be a directory when it does; 0 when the directory exists in the
    end, else -1. [prefix] is the part of the path already walked. *)
Fixpoint g_mkdir_with_parents_from (e : env) (w : world) (prefix rest : path)
  : Z * world :=
  match rest with
  | [] => (0, w)
  | component :: rest =>
      let fn := prefix ++ [component] in
      if negb (g_file_test_exists w fn) then
        let '(ret, w) := mkdir e w fn in
        if ret =? -1 then (-1, w)
        else g_mkdir_with_parents_from e w fn rest
      else if negb (g_file_test_is_dir w fn) then (-1, w)
      else g_mkdir_with_parents_from e w fn rest
  end.

Definition g_mkdir_with_parents (e : env) (w : world) (pathname : path)
  : Z * world :=
  g_mkdir_with_parents_from e w [] pathname.

(** The components of a path name: the parts between its [/]. *)
Fixpoint split_components (s : list ascii) (current : list ascii)
  : list (list ascii) :=
  match s with
  | [] => [List.rev current]
  | c :: rest =>
      if Ascii.eqb c "/" then List.rev current :: split_components rest []
      else split_components rest (c :: current)
  end.

Definition path_of_string (s : string) : path :=
  List.filter (fun component => negb (String.eqb component ""))
    (map string_of_list_ascii (split_components (list_ascii_of_string s) [])).

(** [g_path_get_dirname], on the components. *)
Definition g_path_get_dirname (p : path) : path := removelast p.

(** What a trace holds of each kind: the [status] members of the state
    files written, the signals sent, the [hyper] commands run, the
    [g_critical] messages. *)
Definition written_statuses (tr : list event) : list string :=
  omap (fun ev => match ev with
                  | EvStateFile _ status _ => Some status
                  | _ => None
                  end) tr.

Definition signals (tr : list event) : list (Z * Z) :=
  omap (fun ev => match ev with
                  | EvSignal pid signum => Some (pid, signum)
                  | _ => None
                  end) tr.

Definition hyper_commands (tr : list event) : list (string * string * Z) :=
  omap (fun ev => match ev with
                  | EvHyper command container signum =>
                      Some (command, container, signum)
                  | _ => None
                  end) tr.

Definition criticals (tr : list event) : list string :=
  omap (fun ev => match ev with
                  | EvCritical message => Some message
                  | _ => None
                  end) tr.

End Host.

(** ** src/runtime.c, src/state.c, src/pod.c, src/proxy.c, src/oci.c:
       the runtime directory, the state file, [create], [kill], [list] *)

Module Oci.

Import Host.

(** From the build configuration: [LOCALSTATEDIR] is [/var]. *)
Definition CC_OCI_RUNTIME_DIR_PREFIX : string := "/var/run/cc-oci-runtime".
Definition CC_OCI_STATE_FILE : string := "state.json".
Definition CC_OCI_HYPERVISOR_SOCKET : string := "hypervisor.sock".
Definition CC_OCI_PROCESS_SOCKET : string := "process.sock".
Definition CC_OCI_CONFIG_FILE : string := "config.json".

Definition SIGKILL : Z := 9.
Definition SIGTERM : Z := 15.
Definition SIGSTOP : Z := 19.

(** [struct cc_oci_container_state]; an empty string is a buffer whose
    first byte is zero. *)
Record cc_oci_container_state : Type := mk_container_state {
  state_file_path : string;
  runtime_path : string;
  comms_path : string;
  procsock_path : string;
  workload_pid : Z;
  status : State.oci_status;
}.

(** [struct cc_oci_config], the members these functions use. *)
Record cc_oci_config : Type := mk_config {
  optarg_container_id : option string;
  bundle_path : option string;
  root_dir : option string;
  state : cc_oci_container_state;
  pod : option State.cc_pod;
  vm : option State.cc_oci_vm_cfg;
  proxy : option State.cc_proxy;
  console : option string;
  oci_mounts : list State.cc_oci_mount;
  oci_namespaces : list State.oci_cfg_namespace;
  oci_process : option Json.GNode;
  dry_run_mode : bool;
}.

Definition set_state (config : cc_oci_config) (s : cc_oci_container_state)
  : cc_oci_config :=
  {| optarg_container_id := optarg_container_id config;
     bundle_path := bundle_path config; root_dir := root_dir config;
     state := s; pod := pod config; vm := vm config; proxy := proxy config;
     console := console config; oci_mounts := oci_mounts config;
     oci_namespaces := oci_namespaces config;
     oci_process := oci_process config;
     dry_run_mode := dry_run_mode config |}.

Definition set_status (config : cc_oci_config) (s : State.oci_status)
  : cc_oci_config :=
  set_state config
    {| state_file_path := state_file_path (state config);
       runtime_path := runtime_path (state config);
       comms_path := comms_path (state config);
       procsock_path := procsock_path (state config);
       workload_pid := workload_pid (state config);
       status := s |}.

(** [g_snprintf (buf, sizeof (buf), "%s/%s", a, b)] into a
    [gchar [PATH_MAX]]. *)
Definition snprintf_path (a b : string) : string :=
  State.g_strlcpy (a ++ "/" ++ b).

(** [cc_oci_runtime_path_get] *)
Definition cc_oci_runtime_path_get (config : cc_oci_config)
  : bool * cc_oci_config :=
  match optarg_container_id config with
  | None => (false, config)
  | Some container_id =>
      let s := state config in
      (true,
       set_state config
         {| state_file_path := state_file_path s;
            runtime_path :=
              snprintf_path (default CC_OCI_RUNTIME_DIR_PREFIX (root_dir config))
                container_id;
            comms_path := comms_path s; procsock_path := procsock_path s;
            workload_pid := workload_pid s; status := status s |})
  end.

(** [cc_oci_state_file_get] *)
Definition cc_oci_state_file_get (config : cc_oci_config)
  : bool * cc_oci_config :=
  let s := state config in
  if String.eqb (runtime_path s) "" then (false, config)
  else
    (true,
     set_state config
       {| state_file_path := snprintf_path (runtime_path s) CC_OCI_STATE_FILE;
          runtime_path := runtime_path s;
          comms_path := comms_path s; procsock_path := procsock_path s;
          workload_pid := workload_pid s; status := status s |}).

(** [cc_oci_runtime_dir_setup] *)
Definition cc_oci_runtime_dir_setup (e : env) (config : cc_oci_config)
    (w : world) : bool * cc_oci_config * world :=
  let '(ok, config) :=
    if String.eqb (runtime_path (state config)) ""
    then cc_oci_runtime_path_get config
    else (true, config) in
  if negb ok then (false, config, w)
  else
    let s := state config in
    let config :=
      set_state config
        {| state_file_path := state_file_path s;
           runtime_path := runtime_path s;
           comms_path := snprintf_path (runtime_path s) CC_OCI_HYPERVISOR_SOCKET;
           procsock_path := snprintf_path (runtime_path s) CC_OCI_PROCESS_SOCKET;
           workload_pid := workload_pid s; status := status s |} in
    let runtime_dir := path_of_string (runtime_path s) in
    let dirname := g_path_get_dirname runtime_dir in
    let '(ret, w) := g_mkdir_with_parents e w dirname in
    let w :=
      if ret =? 0 then w else emit w (EvCritical "failed to create directory") in
    let '(ret, w) := g_mkdir_with_parents e w runtime_dir in
    (ret =? 0, config, w).

(** [cc_pod_is_sandbox] and [cc_pod_is_vm] of [src/pod.c] *)
Definition cc_pod_is_sandbox (config : cc_oci_config) : bool :=
  match pod config with
  | Some p => State.sandbox p
  | None => false
  end.

Definition cc_pod_is_vm (config : cc_oci_config) : bool :=
  match pod config with
  | Some p => State.sandbox p
  | None => true
  end.

(** [cc_pod_container_id] *)
Definition cc_pod_container_id (config : cc_oci_config) : option string :=
  match pod config with
  | Some p =>
      if State.sandbox p then optarg_container_id config
      else State.sandbox_name p
  | None => optarg_container_id config
  end.

(** [cc_oci_create]: the steps before and after the runtime directory are
    taken from the environment. *)
Definition cc_oci_create (e : env) (config : cc_oci_config) (w : world)
  : bool * cc_oci_config * world :=
  if negb (config_file_parse_ok e) then (false, config, w)
  else if negb (config_check_ok e) then (false, config, w)
  else
    let '(ok, config, w) := cc_oci_runtime_dir_setup e config w in
    if negb ok then
      if g_file_test_exists_or_is_dir w
           (path_of_string (runtime_path (state config)))
      then (false, config, emit w (EvCritical "container already exists"))
      else (false, config,
            emit w (EvCritical "failed to create runtime directory"))
    else
      let w := emit w EvNamespaceSetup in
      if negb (ns_setup_ok e) then
        (false, config, emit w (EvCritical "failed to setup namespaces"))
      else
        let w := emit w EvHandleMounts in
        if negb (handle_mounts_ok e) then
          (false, config, emit w (EvCritical "failed to handle mounts"))
        else if dry_run_mode config then (true, config, w)
        else if cc_pod_is_vm config then
          let w := emit w EvVmLaunch in
          if negb (vm_launch_ok e) then
            (false, config, emit w (EvCritical "failed to launch VM"))
          else (true, config, w)
        else
          let w := emit w EvPodContainerCreate in
          if negb (pod_container_create_ok e) then
            (false, config,
             emit w (EvCritical "failed to launch pod container"))
          else (true, config, w).

(** [cc_oci_state_file_create (config, created_timestamp)]: the checks on
    the configuration, the document, the write. Of the document the
    [status] and [created] members are kept; [state_document_ok] says
    whether the mounts, namespaces and process convert and the object
    serialises. *)
Definition cc_oci_state_file_create (e : env) (config : cc_oci_config)
    (created_timestamp : option string) (w : world)
  : bool * cc_oci_config * world :=
  match created_timestamp, optarg_container_id config, bundle_path config,
        vm config, proxy config with
  | Some created, Some container_id, Some _, Some _, Some _ =>
      if String.eqb container_id "" then (false, config, w)
      else if String.eqb (runtime_path (state config)) "" then (false, config, w)
      else if String.eqb (comms_path (state config)) "" then (false, config, w)
      else if String.eqb (procsock_path (state config)) ""
      then (false, config, w)
      else
        let '(ok, config) := cc_oci_state_file_get config in
        if negb ok then (false, config, w)
        else
          match State.cc_oci_status_to_str (status (state config)) with
          | None => (false, config, w)
          | Some status_str =>
              if negb (state_document_ok e) then (false, config, w)
              else
                let '(ret, results) :=
                  match state_write_results w with
                  | [] => (true, [])
                  | ret :: results => (ret, results)
                  end in
                if ret then
                  (true, config,
                   {| fs := fs w; state_write_results := results;
                      state_file_status := Some status_str;
                      trace := trace w
                               ++ [EvStateFile (state_file_path (state config))
                                     status_str created] |})
                else
                  (false, config,
                   {| fs := fs w; state_write_results := results;
                      state_file_status := state_file_status w;
                      trace := trace w
                               ++ [EvCritical "failed to create state file"] |})
          end
  | _, _, _, _, _ => (false, config, w)
  end.

(** What [cc_oci_state_file_create] asks of a configuration and of the
    host before it writes, the status apart. *)
Definition state_file_ready (e : env) (config : cc_oci_config)
    (created_timestamp : option string) : bool :=
  match created_timestamp, optarg_container_id config, bundle_path config,
        vm config, proxy config with
  | Some _, Some container_id, Some _, Some _, Some _ =>
      negb (String.eqb container_id "")
      && negb (String.eqb (runtime_path (state config)) "")
      && negb (String.eqb (comms_path (state config)) "")
      && negb (String.eqb (procsock_path (state config)) "")
      && state_document_ok e
  | _, _, _, _, _ => false
  end.

(** A configuration with another [state_file_path]; two configurations
    that differ in it at most. *)
Definition set_state_file_path (config : cc_oci_config) (file : string)
  : cc_oci_config :=
  set_state config
    {| state_file_path := file;
       runtime_path := runtime_path (state config);
       comms_path := comms_path (state config);
       procsock_path := procsock_path (state config);
       workload_pid := workload_pid (state config);
       status := status (state config) |}.

Definition same_but_state_file (config config' : cc_oci_config) : Prop :=
  config' = set_state_file_path config (state_file_path (state config')).

(** [kill (pid, signum)]: 0 when the signal is sent, else -1. The signal
    numbers are those of Linux, 0 (the test for existence) to 64. *)
Definition kill (e : env) (w : world) (pid signum : Z) : Z * world :=
  if can_signal e pid && (0 <=? signum) && (signum <=? 64)
  then (0, emit w (EvSignal pid signum))
  else (-1, w).

(** [cc_proxy_hyper_kill_container] of [src/proxy.c] *)
Definition cc_proxy_hyper_kill_container (e : env) (config : cc_oci_config)
    (signum : Z) (w : world) : bool * world :=
  match proxy config, cc_pod_container_id config with
  | Some _, Some container_id =>
      if negb (proxy_connect_ok e) then (false, w)
      else if negb (proxy_attach_ok e) then (false, w)
      else
        let w :=
          emit w (EvHyper "killcontainer"
                    (default "" (optarg_container_id config)) signum) in
        if hyper_cmd_ok e then (true, w)
        else (false, emit w (EvCritical "failed to run cmd killcontainer"))
  | _, _ => (false, w)
  end.

(** [cc_oci_kill (config, state, signum)], built without [UNIT_TESTING]. *)
Definition cc_oci_kill (e : env) (config : cc_oci_config)
    (state : State.oci_state) (signum : Z) (w : world)
  : bool * cc_oci_config * world :=
  let last_status := status (Oci.state config) in
  if cc_pod_is_sandbox config then
    let config := set_status config State.OCI_STATUS_STOPPED in
    let '(ok, config, w) :=
      cc_oci_state_file_create e config (State.create_time state) w in
    if ok then (true, config, w)
    else (false, set_status config last_status,
          emit w (EvCritical "failed to recreate state file"))
  else
    let config := set_status config State.OCI_STATUS_STOPPING in
    let '(ok, config, w) :=
      cc_oci_state_file_create e config (State.create_time state) w in
    if negb ok then
      (false, set_status config last_status,
       emit w (EvCritical "failed to recreate state file"))
    else
      let '(ret, w) := kill e w (State.pid state) signum in
      if ret <? 0 then
        let w := emit w (EvCritical "failed to stop container") in
        let config := set_status config last_status in
        let '(ok, config, w) :=
          cc_oci_state_file_create e config (State.create_time state) w in
        (false, config,
         if ok then w else emit w (EvCritical "failed to recreate state file"))
      else
        let '(hyper_ok, w) :=
          if (signum =? SIGKILL) || (signum =? SIGSTOP)
          then cc_proxy_hyper_kill_container e config signum w
          else (true, w) in
        if negb hyper_ok then
          (false, config, emit w (EvCritical "failed to kill container"))
        else
          let last_status := status (Oci.state config) in
          let config := set_status config State.OCI_STATUS_STOPPED in
          let '(ok, config, w) :=
            cc_oci_state_file_create e config (State.create_time state) w in
          if ok then (true, config, w)
          else (false, set_status config last_status,
                emit w (EvCritical "failed to recreate state file")).

(** [cc_oci_vm_running]; the [vm] of a state that was read is allocated. *)
Definition cc_oci_vm_running (e : env) (state : State.oci_state) : bool :=
  if State.vm_pid (State.vm state) =? 0 then false
  else can_signal e (State.vm_pid (State.vm state)).

(** [struct format_options]; its JSON array is what listing returns. *)
Record format_options : Type := mk_format_options {
  use_json : bool;
  show_all : bool;
  id_width : nat;
  pid_width : nat;
  status_width : nat;
  bundle_width : nat;
  created_width : nat;
  hypervisor_width : nat;
  image_width : nat;
  kernel_width : nat;
}.

(** [printf]'s [%-*s]: left-justified in a field of at least [width]
    characters; a [NULL] string prints as [(null)]. *)
Definition spaces (n : nat) : string :=
  string_of_list_ascii (replicate n " "%char).

Definition pad (width : nat) (s : string) : string :=
  s ++ spaces (width - String.length s).

Definition or_null (s : option string) : string := default "(null)" s.

(** [json_object_set_string_member]: a [NULL] string is the null node. *)
Definition json_string_member (name : string) (s : option string)
  : string * Json.JsonNode :=
  (name,
   match s with
   | Some s => Json.JSON_NODE_VALUE (Json.JString s)
   | None => Json.JSON_NODE_NULL
   end).

(** What [cc_oci_list_vm] shows of a VM: the text it prints, or the object
    it adds to the JSON array. *)
Inductive list_entry : Type :=
| TableLine (line : string)
| JsonObject (members : list (string * Json.JsonNode)).

Definition newline : string := String (ascii_of_nat 10) "".

(** [cc_oci_list_vm (state, options)] *)
Definition cc_oci_list_vm (e : env) (state : State.oci_state)
    (options : format_options) : list_entry :=
  let status :=
    if negb (cc_oci_vm_running e state)
    then State.cc_oci_status_to_str State.OCI_STATUS_STOPPED
    else State.cc_oci_status_to_str (State.status state) in
  if negb (use_json options) then
    TableLine
      ((pad (id_width options) (or_null (State.id state)) ++ " ")
       ++ (if State.pid state =? 0
           then pad (pid_width options)
                  (String.substring 0 (pid_width options) "0") ++ " "
           else pad (pid_width options) (pretty (cast_uint32 (State.pid state)))
                ++ " ")
       ++ (pad (status_width options) (or_null status) ++ " "
           ++ pad (bundle_width options) (or_null (State.bundle_path state))
           ++ " "
           ++ pad (created_width options) (or_null (State.create_time state))
           ++ (if show_all options then " " else newline))
       ++ (if show_all options then
             pad (hypervisor_width options)
               (State.hypervisor_path (State.vm state)) ++ " "
             ++ pad (kernel_width options) (State.kernel_path (State.vm state))
             ++ " "
             ++ pad (image_width options) (State.image_path (State.vm state))
             ++ newline
           else ""))
  else
    JsonObject
      ([json_string_member "id" (State.id state);
        ("pid", Json.JSON_NODE_VALUE (Json.JInt (State.pid state)));
        json_string_member "status" status;
        json_string_member "bundle" (State.bundle_path state);
        json_string_member "created" (State.create_time state)]
       ++ (if show_all options then
             [json_string_member "hypervisor"
                (Some (State.hypervisor_path (State.vm state)));
              json_string_member "kernel"
                (Some (State.kernel_path (State.vm state)));
              json_string_member "image"
                (Some (State.image_path (State.vm state)))]
           else [])).

(** Reading the listing back: a text without the spaces at its end, and the
    status an entry shows, which is the [status] member of the object or
    the third column of the line (the columns before it are as wide as
    [cc_oci_update_options] made them). *)
Fixpoint rtrim (s : string) : string :=
  match s with
  | EmptyString => EmptyString
  | String c rest =>
      let r := rtrim rest in
      if Ascii.eqb c " " && String.eqb r "" then "" else String c r
  end.

Definition reported_status (options : format_options) (entry : list_entry)
  : option string :=
  match entry with
  | JsonObject members =>
      match List.find (fun m => String.eqb (fst m) "status") members with
      | Some (_, Json.JSON_NODE_VALUE (Json.JString s)) => Some s
      | _ => None
      end
  | TableLine line =>
      Some (rtrim (String.substring
                     (id_width options + 1 + pid_width options + 1)
                     (status_width options) line))
  end.

(** [cc_oci_config_file_path] over [cc_oci_get_bundlepath_file];
    [g_build_path] joins the two with one [/] (separators already at the
    joint are not doubled, which is left out here: the callers below only
    test the result for [NULL]). *)
Definition cc_oci_config_file_path (bundle_path : option string)
  : option string :=
  match bundle_path with
  | None => None
  | Some bundle_path =>
      if String.eqb bundle_path "" then None
      else Some (bundle_path ++ "/" ++ CC_OCI_CONFIG_FILE)%string
  end.

(** [g_strlcpy (dest, src, sizeof (dest))], which leaves [dest] as it is
    when [src] is [NULL]. *)
Definition strlcpy_from (dest : string) (src : option string) : string :=
  match src with
  | Some src => State.g_strlcpy src
  | None => dest
  end.

(** [cc_oci_get_config_and_state (&config_file, config, &state)] *)
Definition cc_oci_get_config_and_state (e : env) (config : cc_oci_config)
    (w : world)
  : bool * option string * cc_oci_config * option State.oci_state * world :=
  let '(ok, config) := cc_oci_runtime_path_get config in
  if negb ok then (false, None, config, None, w)
  else
    let '(ok, config) := cc_oci_state_file_get config in
    if negb ok then (false, None, config, None, w)
    else
      match State.cc_oci_state_file_read (load e)
              (Some (state_file_path (Oci.state config))) with
      | None =>
          (false, None, config, None,
           emit w (EvCritical "failed to read state file"))
      | Some st =>
          let s := Oci.state config in
          let config :=
            {| optarg_container_id := optarg_container_id config;
               bundle_path := State.bundle_path st;
               root_dir := root_dir config;
               state :=
                 {| state_file_path := state_file_path s;
                    runtime_path := runtime_path s;
                    comms_path := strlcpy_from (comms_path s) (State.comms_path st);
                    procsock_path :=
                      strlcpy_from (procsock_path s) (State.procsock_path st);
                    workload_pid := State.pid st;
                    status := State.status st |};
               pod := pod config; vm := vm config; proxy := proxy config;
               console := console config; oci_mounts := oci_mounts config;
               oci_namespaces := oci_namespaces config;
               oci_process := oci_process config;
               dry_run_mode := dry_run_mode config |} in
          match cc_oci_config_file_path (State.bundle_path st) with
          | None => (false, None, config, None, w)
          | Some config_file => (true, Some config_file, config, Some st, w)
          end
      end.

(** [cc_oci_config_update (config, state)]: the members it moves are
    cleared in [state]; of that, [handler_kill] reads [pid] and
    [create_time] afterwards. *)
Definition cc_oci_config_update (config : cc_oci_config)
    (st : State.oci_state) : bool * cc_oci_config :=
  let s := Oci.state config in
  (true,
   {| optarg_container_id := optarg_container_id config;
      bundle_path := bundle_path config;
      root_dir := root_dir config;
      state :=
        {| state_file_path := state_file_path s;
           runtime_path := runtime_path s;
           comms_path := comms_path s;
           procsock_path :=
             strlcpy_from (procsock_path s) (State.procsock_path st);
           workload_pid := workload_pid s;
           status := status s |};
      pod := match State.pod st with Some p => Some p | None => pod config end;
      vm := Some (State.vm st);
      proxy := Some (State.proxy st);
      console :=
        match State.console st with
        | Some c => Some c
        | None => console config
        end;
      oci_mounts :=
        match State.mounts st with [] => oci_mounts config | m => m end;
      oci_namespaces :=
        match State.namespaces st with
        | [] => oci_namespaces config
        | n => n
        end;
      oci_process :=
        match State.process st, oci_process config with
        | Some p, None => Some p
        | _, process => process
        end;
      dry_run_mode := dry_run_mode config |}).

End Oci.

(** ** src/util.c: signal names *)

Module Util.

(** [signal_table], up to its terminator: [make_table_entry (SIGHUP)] is
    [{ SIGHUP, "SIGHUP" }], with the numbers of [<signal.h>] on Linux
    (x86, ARM). *)
Definition signal_table : list (Z * string) :=
  [(1, "SIGHUP"); (2, "SIGINT"); (3, "SIGQUIT"); (4, "SIGILL");
   (5, "SIGTRAP"); (6, "SIGABRT"); (6, "SIGIOT"); (7, "SIGBUS");
   (8, "SIGFPE"); (9, "SIGKILL"); (10, "SIGUSR1"); (11, "SIGSEGV");
   (12, "SIGUSR2"); (13, "SIGPIPE"); (14, "SIGALRM"); (15, "SIGTERM");
   (16, "SIGSTKFLT"); (17, "SIGCLD"); (17, "SIGCHLD"); (18, "SIGCONT");
   (19, "SIGSTOP"); (20, "SIGTSTP"); (21, "SIGTTIN"); (22, "SIGTTOU");
   (23, "SIGURG"); (24, "SIGXCPU"); (25, "SIGXFSZ"); (26, "SIGVTALRM");
   (27, "SIGPROF"); (28, "SIGWINCH"); (29, "SIGPOLL"); (29, "SIGIO");
   (30, "SIGPWR"); (31, "SIGSYS"); (31, "SIGUNUSED")].

(** [g_str_has_prefix] *)
Definition g_str_has_prefix (str prefix : string) : bool :=
  String.prefix prefix str.

(** [g_strlcpy] and [g_strlcat] into [gchar full_name[32]]. *)
Definition g_strlcat_32 (dest src : string) : string :=
  String.substring 0 31 (dest ++ src).

(** [cc_oci_get_signum (signame)]; [None] is [NULL]. *)
Definition cc_oci_get_signum (signame : option string) : Z :=
  match signame with
  | None => -1
  | Some signame =>
      let full_name :=
        if negb (g_str_has_prefix signame "SIG")
        then String.substring 0 31 "SIG"
        else "" in
      let full_name := g_strlcat_32 full_name signame in
      match List.find (fun s => String.eqb full_name (snd s)) signal_table with
      | Some s => fst s
      | None => -1
      end
  end.

End Util.

(** ** src/command.c, src/commands/kill.c: the [kill] command *)

Module Commands.

Import Host Oci.

(** [handle_default_usage (argc, argv, cmd, &ret, min_argc, extra)]:
    whether the arguments have been handled, and [*ret] then. *)
Definition handle_default_usage (argv : list string) (cmd : string)
    (min_argc : Z) (extra : option string) (w : world)
  : bool * bool * world :=
  let argc := Z.of_nat (length argv) in
  let help :=
    match argv with
    | arg :: _ => String.eqb arg "--help" || String.eqb arg "-h"
    | [] => false
    end in
  if help || (argc =? 0) || (argc <? min_argc) then
    let w :=
      emit w (EvPrint ("Usage: " ++ cmd ++ " <container-id>"
                       ++ (match extra with Some _ => " " | None => "" end)
                       ++ default "" extra ++ newline)) in
    (true, if help then argc =? 1 else min_argc <=? argc, w)
  else (false, false, w).

(** The end of [handler_kill], from [cc_oci_get_config_and_state] on,
    once [signum] is known. *)
Definition handler_kill_signal (e : env) (config : cc_oci_config)
    (signum : Z) (w : world) : bool * cc_oci_config * world :=
  let '(ret, config_file, config, state, w) :=
    cc_oci_get_config_and_state e config w in
  match ret, state with
  | true, Some state =>
      let '(ok, config) := cc_oci_config_update config state in
      if negb ok then (ret, config, w)
      else cc_oci_kill e config state signum w
  | _, _ => (false, config, w)
  end.

(** [handler_kill (sub, config, argc, argv)]: [argv] starts at the
    container id. *)
Definition handler_kill (e : env) (config : cc_oci_config)
    (argv : list string) (w : world) : bool * cc_oci_config * world :=
  let '(handled, ret, w) :=
    handle_default_usage argv "kill" 1 (Some "[<signal>]") w in
  if handled then (ret, config, w)
  else
    let config :=
      {| optarg_container_id := argv !! 0%nat;
         bundle_path := bundle_path config; root_dir := root_dir config;
         state := state config; pod := pod config; vm := vm config;
         proxy := proxy config; console := console config;
         oci_mounts := oci_mounts config;
         oci_namespaces := oci_namespaces config;
         oci_process := oci_process config;
         dry_run_mode := dry_run_mode config |} in
    match argv with
    | [_; signame] =>
        let signum := Strtol.atoi signame in
        let signum :=
          if signum <=? 0 then Util.cc_oci_get_signum (Some signame)
          else signum in
        if signum <? 0 then
          (false, config, emit w (EvCritical "invalid signal specified"))
        else handler_kill_signal e config signum w
    | _ => handler_kill_signal e config SIGTERM w
    end.

(** The configuration [handler_kill] hands to [cc_oci_kill] for container
    [id], once the state [st] has been read: the one of the command line
    with the container id, after [cc_oci_get_config_and_state] and
    [cc_oci_config_update]. *)
Definition kill_config (e : env) (config : cc_oci_config) (id : string)
    (st : State.oci_state) (w : world) : cc_oci_config :=
  let config :=
    {| optarg_container_id := Some id;
       bundle_path := bundle_path config; root_dir := root_dir config;
       state := state config; pod := pod config; vm := vm config;
       proxy := proxy config; console := console config;
       oci_mounts := oci_mounts config;
       oci_namespaces := oci_namespaces config;
       oci_process := oci_process config;
       dry_run_mode := dry_run_mode config |} in
  let '(_, _, config, _, _) := cc_oci_get_config_and_state e config w in
  snd (cc_oci_config_update config st).

(** The state file of container [id] for a configuration. *)
Definition state_file_of (config : cc_oci_config) (id : string) : string :=
  snprintf_path
    (snprintf_path (default CC_OCI_RUNTIME_DIR_PREFIX (root_dir config)) id)
    CC_OCI_STATE_FILE.

End Commands.

(** ** shim/shim.c: standard input, signals and the control socket *)

Module ShimInput.

Import BigEndian Shim.

Definition MAX_POLL_FDS : Z := 4.
Definition SIGNAL_FD_INDEX : nat := 0.
Definition PROXY_IO_INDEX : nat := 1.
Definition PROXY_CTL_INDEX : nat := 2.
Definition STDIN_INDEX : nat := 3.
Definition PROXY_CTL_HEADER_SIZE : Z := 8.
Definition PROXY_CTL_HEADER_LENGTH_OFFSET : nat := 0.
Definition LOG_ERR : Z := 3.
Definition EINTR : Z := 4.
Definition SIGWINCH : Z := 28.

(** [struct pollfd], without [revents]. *)
Record pollfd : Type := mk_pollfd {
  pfd_fd : Z;
  pfd_events : Z;
}.

(** The process and what is around it, for the handlers of this part.

    - [stdin_pending]: what the next [read]s of standard input meet, as
      [proxy_io_pending] of [Shim.world].
    - [signal_pipe]: the signal numbers [signal_handler] has written to the
      pipe and [handle_signals] has not read.
    - [window]: the rows and columns [ioctl (TIOCGWINSZ)] reports, [None]
      when it fails.
    - [write_result k n]: what the [k]-th [write] of the process returns
      when it is asked to take [n] bytes; [writes] counts the [write]s
      done.
    - [poll_fds]: the global of that name.
    - [stdin_buf]: the [static] buffer of [handle_stdin].
    - [trace]: the events so far. *)
Record world : Type := mk_world {
  stdin_pending : list (option (list Z));
  signal_pipe : list Z;
  window : option (Z * Z);
  write_result : nat -> Z -> Z;
  writes : nat;
  poll_fds : list pollfd;
  stdin_buf : list Z;
  trace : list event;
}.

Definition emit (w : world) (e : event) : world :=
  {| stdin_pending := stdin_pending w; signal_pipe := signal_pipe w;
     window := window w; write_result := write_result w; writes := writes w;
     poll_fds := poll_fds w; stdin_buf := stdin_buf w;
     trace := trace w ++ [e] |}.

(** [add_pollfd (poll_fds, index, fd, events)] *)
Definition add_pollfd (w : world) (index : Z) (fd : Z) (events : Z) : world :=
  if (fd <? 0) || (index >=? MAX_POLL_FDS) then emit w (EvLog LOG_WARNING)
  else
    {| stdin_pending := stdin_pending w; signal_pipe := signal_pipe w;
       window := window w; write_result := write_result w;
       writes := writes w;
       poll_fds := <[Z.to_nat index := {| pfd_fd := fd; pfd_events := events |}]>
                     (poll_fds w);
       stdin_buf := stdin_buf w; trace := trace w |}.

(** [write (fd, data, n)], [data] being the [n] bytes at the pointer. *)
Definition write (w : world) (fd : Z) (data : list Z) (n : Z) : Z * world :=
  let ret := write_result w (writes w) n in
  (ret,
   {| stdin_pending := stdin_pending w; signal_pipe := signal_pipe w;
      window := window w; write_result := write_result w;
      writes := S (writes w); poll_fds := poll_fds w;
      stdin_buf := stdin_buf w; trace := trace w ++ [EvWrite fd data ret] |}).

(** [read (STDIN_FILENO, buf + STREAM_HEADER_SIZE, want)]: the return
    value, the bytes stored, the world. *)
Definition read_stdin (w : world) (want : Z) : Z * list Z * world :=
  let with_pending (p : list (option (list Z))) : world :=
    {| stdin_pending := p; signal_pipe := signal_pipe w; window := window w;
       write_result := write_result w; writes := writes w;
       poll_fds := poll_fds w; stdin_buf := stdin_buf w; trace := trace w |} in
  match stdin_pending w with
  | [] => (0, [], w)
  | None :: rest => (-1, [], with_pending rest)
  | Some data :: rest =>
      let got := take (Z.to_nat want) data in
      let left := drop (Z.to_nat want) data in
      (Z.of_nat (length got), got,
       with_pending (match left with [] => rest | _ => Some left :: rest end))
  end.

(** [handle_stdin (shim)] *)
Definition handle_stdin (shim : cc_shim) (w : world) : world :=
  if proxy_io_fd shim <? 0 then w
  else
    let '(nread, data, w) := read_stdin w BUFSIZ in
    if nread <? 0 then emit w (EvLog LOG_WARNING)
    else
      let fds :=
        if nread =? 0 then
          match poll_fds w !! STDIN_INDEX with
          | Some pfd =>
              <[STDIN_INDEX := {| pfd_fd := -1; pfd_events := pfd_events pfd |}]>
                (poll_fds w)
          | None => poll_fds w
          end
        else poll_fds w in
      let len := nread + STREAM_HEADER_SIZE in
      let buf := list_inserts (Z.to_nat STREAM_HEADER_SIZE) data (stdin_buf w) in
      let buf := set_big_endian_64 buf 0 (io_seq_no shim) in
      let buf :=
        set_big_endian_32 buf STREAM_HEADER_LENGTH_OFFSET (cast_uint32 len) in
      let w :=
        {| stdin_pending := stdin_pending w; signal_pipe := signal_pipe w;
           window := window w; write_result := write_result w;
           writes := writes w; poll_fds := fds; stdin_buf := buf;
           trace := trace w |} in
      let '(ret, w) := write w (proxy_io_fd shim) (take (Z.to_nat len) buf) len in
      if cast_int ret =? -1 then emit w (EvLog LOG_WARNING) else w.

(** The bytes of a C string. *)
Definition bytes_of_string (s : string) : list Z :=
  map (fun c => Z.of_nat (nat_of_ascii c)) (list_ascii_of_string s).

(** [get_proxy_ctl_msg (json, &len)]: the buffer, which ends with a zero
    byte after the message, and [*len]. [None] is [NULL]. *)
Definition get_proxy_ctl_msg (json : option (list Z)) : option (list Z * Z) :=
  match json with
  | None => None
  | Some json =>
      let json_len := Glib.strlen json in
      let len := json_len + PROXY_CTL_HEADER_SIZE in
      let proxy_ctl_msg := calloc (len + 1) in
      let proxy_ctl_msg :=
        set_big_endian_32 proxy_ctl_msg PROXY_CTL_HEADER_LENGTH_OFFSET
          (cast_uint32 json_len) in
      let proxy_ctl_msg :=
        list_inserts (Z.to_nat PROXY_CTL_HEADER_SIZE)
          (take (Z.to_nat json_len) json) proxy_ctl_msg in
      Some (proxy_ctl_msg, len)
  end.

(** The [while (offset < len)] loop of [send_proxy_hyper_message]: a
    [write] that returns [EINTR] (the number 4) is tried again from the
    same offset. [None] when the fuel runs out. *)
Fixpoint send_loop (fuel : nat) (w : world) (fd : Z) (proxy_ctl_msg : list Z)
    (offset len : Z) : option world :=
  match fuel with
  | O => None
  | S fuel =>
      if offset <? len then
        let '(ret, w) :=
          write w fd
            (take (Z.to_nat (len - offset)) (drop (Z.to_nat offset) proxy_ctl_msg))
            (len - offset) in
        if ret =? EINTR then send_loop fuel w fd proxy_ctl_msg offset len
        else if ret <=? 0 then Some (emit w (EvLog LOG_ERR))
        else send_loop fuel w fd proxy_ctl_msg (offset + ret) len
      else Some w
  end.

(** The double quote. *)
Definition dq : string := String (ascii_of_nat 34) "".

(** [asprintf (&proxy_payload, "{\"id\":\"%s\",\"data\":{\"hyperName\":\"%s\",\"data\":%s}}", ...)] *)
Definition hyper_payload (hyper_cmd json : string) : string :=
  "{" ++ dq ++ "id" ++ dq ++ ":" ++ dq ++ "hyper" ++ dq ++ ","
  ++ dq ++ "data" ++ dq ++ ":{" ++ dq ++ "hyperName" ++ dq ++ ":"
  ++ dq ++ hyper_cmd ++ dq ++ "," ++ dq ++ "data" ++ dq ++ ":" ++ json ++ "}}".

(** [send_proxy_hyper_message (fd, hyper_cmd, json)] *)
Definition send_proxy_hyper_message (fuel : nat) (w : world) (fd : Z)
    (hyper_cmd : string) (json : option string) : option world :=
  match json with
  | None => Some w
  | Some json =>
      if fd <? 0 then Some w
      else
        match get_proxy_ctl_msg
                (Some (bytes_of_string (hyper_payload hyper_cmd json))) with
        | None => Some w
        | Some (proxy_ctl_msg, len) => send_loop fuel w fd proxy_ctl_msg 0 len
        end
  end.

(** The two messages of [handle_signals]:
    [{"seq":%PRIu64, "row":%d, "column":%d}] and
    [{"container":"%s", "signal":%d}]. *)
Definition winsize_json (seq row column : Z) : string :=
  "{" ++ dq ++ "seq" ++ dq ++ ":" ++ pretty seq ++ ", "
  ++ dq ++ "row" ++ dq ++ ":" ++ pretty row ++ ", "
  ++ dq ++ "column" ++ dq ++ ":" ++ pretty column ++ "}".

Definition killcontainer_json (container : string) (sig : Z) : string :=
  "{" ++ dq ++ "container" ++ dq ++ ":" ++ dq ++ container ++ dq ++ ", "
  ++ dq ++ "signal" ++ dq ++ ":" ++ pretty sig ++ "}".

(** The loop of [handle_signals], over the signals in the pipe. *)
Fixpoint handle_signals_loop (fuel : nat) (shim : cc_shim) (sigs : list Z)
    (w : world) : option world :=
  match sigs with
  | [] => Some w
  | sig :: sigs =>
      let w :=
        {| stdin_pending := stdin_pending w; signal_pipe := sigs;
           window := window w; write_result := write_result w;
           writes := writes w; poll_fds := poll_fds w;
           stdin_buf := stdin_buf w; trace := trace w |} in
      if sig =? SIGWINCH then
        match window w with
        | None => handle_signals_loop fuel shim sigs (emit w (EvLog LOG_WARNING))
        | Some (row, column) =>
            match send_proxy_hyper_message fuel w (proxy_sock_fd shim) "winsize"
                    (Some (winsize_json (io_seq_no shim) row column)) with
            | None => None
            | Some w => handle_signals_loop fuel shim sigs w
            end
        end
      else
        match send_proxy_hyper_message fuel w (proxy_sock_fd shim)
                "killcontainer"
                (Some (killcontainer_json (container_id shim) sig)) with
        | None => None
        | Some w => handle_signals_loop fuel shim sigs w
        end
  end.

(** [handle_signals (shim)]; [fuel] bounds the [write]s of one message. *)
Definition handle_signals (fuel : nat) (shim : cc_shim) (w : world)
  : option world :=
  if proxy_sock_fd shim <? 0 then Some w
  else handle_signals_loop fuel shim (signal_pipe w) w.

(** [strtoll (nptr, &endptr, 10)]: the value, what [endptr] points at, and
    whether [errno] is set ([ERANGE]; glibc sets nothing when there is no
    digit). *)
Definition strtoll (nptr : string) : Z * list ascii * bool :=
  let all := list_ascii_of_string nptr in
  let s := Strtol.skip_spaces Strtol.isspace all in
  let '(negative, s) :=
    match s with
    | "-"%char :: rest => (true, rest)
    | "+"%char :: rest => (false, rest)
    | _ => (false, s)
    end in
  let '(v, count) := Strtol.digits s 0 0 in
  match count with
  | O => (0, all, false)
  | _ =>
      let v := if negative then - v else v in
      (Z.max (- 2 ^ 63) (Z.min (2 ^ 63 - 1) v), drop count s,
       (v <? - 2 ^ 63) || (2 ^ 63 - 1 <? v))
  end.

(** [parse_numeric_option (input)]; [None] is [NULL]. *)
Definition parse_numeric_option (input : option string) : Z :=
  match input with
  | None => -1
  | Some input =>
      let '(num, endptr, errno) := strtoll input in
      if errno || match endptr with [] => false | _ => true end then -1
      else num
  end.

(** The bytes of a [hyper] message as the proxy is to read them: the length
    of the payload in four bytes, most significant first, four zero bytes,
    the payload. *)
Definition hyper_message (hyper_cmd json : string) : list Z :=
  let payload := bytes_of_string (hyper_payload hyper_cmd json) in
  be32_bytes (cast_uint32 (Glib.strlen payload)) ++ [0; 0; 0; 0] ++ payload.

(** Every [write] from the [from]-th on takes at least one of the bytes it
    is given, never more than it is given, and not exactly [EINTR] of
    them. *)
Definition writes_progress_from (from : nat) (w : world) : Prop :=
  forall (k : nat) (n : Z),
    (from <= k)%nat -> 0 < n ->
    0 < write_result w k n <= n /\ write_result w k n <> EINTR.

Definition writes_progress (w : world) : Prop :=
  writes_progress_from (writes w) w.

(** What [handle_signals] is to send for one signal. *)
Definition signal_message (shim : cc_shim) (window : option (Z * Z)) (sig : Z)
  : list Z :=
  if sig =? SIGWINCH then
    match window with
    | Some (row, column) =>
        hyper_message "winsize" (winsize_json (io_seq_no shim) row column)
    | None => []
    end
  else hyper_message "killcontainer" (killcontainer_json (container_id shim) sig).

End ShimInput.

(** ** Example inputs *)

Module Examples.

Import Termios Shim.

(** A shim whose streams are 5 (standard output) and 6 (standard error). *)
Definition shim_5 (exiting : bool) : cc_shim :=
  {| container_id := "c1"; proxy_sock_fd := 3; proxy_io_fd := 4;
     io_seq_no := 5; err_seq_no := 6; exiting := exiting |}.

(** Cooked-mode settings of a terminal. *)
Definition cooked : termios :=
  {| c_iflag := 1280; c_oflag := 5; c_cflag := 191; c_lflag := 35387;
     c_cc := [3; 28; 127; 21; 4; 0; 1] |}.

(** A process on a terminal with the given input pending on the proxy I/O
    descriptor, at the start of [main]. *)
Definition world_on_tty (pending : list (option (list Z))) : world :=
  {| proxy_io_pending := pending; write_results := [];
     stdin_tty := Some cooked; tcsetattr_fails := false;
     saved_term_settings := None; trace := [] |}.

(** The end-of-stream frame and the frame with exit status 7 of the
    specification's scenario 6, on stream 5. *)
Definition eof_frame : list Z := mk_frame 5 [].
Definition status_frame : list Z := mk_frame 5 [7].

(** A session: one byte for standard output, one for standard error, the
    end of stream, the exit status. *)
Definition session_frames : list (list Z) :=
  [mk_frame 5 [104]; mk_frame 6 [33]; eof_frame; status_frame].

(** A state document as [cc_oci_state_file_create] writes it, with the
    members of its [vm] and [proxy] objects given. *)
Definition state_document (vm proxy : list (string * Json.JsonNode))
  : Json.JsonNode :=
  Json.JSON_NODE_OBJECT
    [("ociVersion", Json.JSON_NODE_VALUE (Json.JString "1.0.0-rc1"));
     ("id", Json.JSON_NODE_VALUE (Json.JString "c1"));
     ("pid", Json.JSON_NODE_VALUE (Json.JInt 4242));
     ("bundlePath", Json.JSON_NODE_VALUE (Json.JString "/tmp/b1"));
     ("commsPath",
      Json.JSON_NODE_VALUE
        (Json.JString "/var/run/cc-oci-runtime/c1/hypervisor.sock"));
     ("processPath",
      Json.JSON_NODE_VALUE
        (Json.JString "/var/run/cc-oci-runtime/c1/process.sock"));
     ("status", Json.JSON_NODE_VALUE (Json.JString "running"));
     ("created", Json.JSON_NODE_VALUE (Json.JString "2016-11-01T10:00:00Z"));
     ("vm", Json.JSON_NODE_OBJECT vm);
     ("proxy", Json.JSON_NODE_OBJECT proxy)].

Definition vm_members : list (string * Json.JsonNode) :=
  [("pid", Json.JSON_NODE_VALUE (Json.JInt 4300));
   ("hypervisor_path", Json.JSON_NODE_VALUE (Json.JString "/usr/bin/qemu-lite"));
   ("image_path", Json.JSON_NODE_VALUE (Json.JString "/usr/share/cc/cc.img"));
   ("kernel_path", Json.JSON_NODE_VALUE (Json.JString "/usr/share/cc/vmlinux"));
   ("workload_path", Json.JSON_NODE_VALUE (Json.JString "/tmp/b1/rootfs"));
   ("kernel_params", Json.JSON_NODE_VALUE (Json.JString "quiet"))].

Definition ctlSocket : string * Json.JsonNode :=
  ("ctlSocket",
   Json.JSON_NODE_VALUE (Json.JString "/var/run/cc-oci-runtime/c1/ga-ctl.sock")).
Definition ioSocket : string * Json.JsonNode :=
  ("ioSocket",
   Json.JSON_NODE_VALUE (Json.JString "/var/run/cc-oci-runtime/c1/ga-tty.sock")).
Definition consoleSocket : string * Json.JsonNode :=
  ("consoleSocket",
   Json.JSON_NODE_VALUE (Json.JString "/var/run/cc-oci-runtime/c1/console.sock")).

(** A file system that holds one state file. *)
Definition state_path : string := "/var/run/cc-oci-runtime/c1/state.json".
Definition load_state (document : Json.JsonNode) (path : string)
  : option Json.JsonNode :=
  if String.eqb path state_path then Some document else None.

(** Reading the state file that holds the document with the given [vm] and
    [proxy] members. *)
Definition read_state (vm proxy : list (string * Json.JsonNode))
  : option State.oci_state :=
  State.cc_oci_state_file_read (load_state (state_document vm proxy))
    (Some state_path).

(** The host of container [c1]: its state file is complete, its shim
    (pid 4242) and its hypervisor (pid 4300) run, the proxy answers. *)
Definition host_env : Host.env :=
  {| Host.load :=
       load_state (state_document vm_members [ctlSocket; ioSocket; consoleSocket]);
     Host.mkdir_denied := fun _ => false;
     Host.can_signal := fun pid => (pid =? 4242) || (pid =? 4300);
     Host.proxy_connect_ok := true; Host.proxy_attach_ok := true;
     Host.hyper_cmd_ok := true; Host.state_document_ok := true;
     Host.config_file_parse_ok := true; Host.config_check_ok := true;
     Host.ns_setup_ok := true; Host.handle_mounts_ok := true;
     Host.vm_launch_ok := true; Host.pod_container_create_ok := true |}.

(** The same host after the shim has gone: only the hypervisor runs. *)
Definition host_env_shim_gone : Host.env :=
  {| Host.load := Host.load host_env;
     Host.mkdir_denied := fun _ => false;
     Host.can_signal := fun pid => pid =? 4300;
     Host.proxy_connect_ok := true; Host.proxy_attach_ok := true;
     Host.hyper_cmd_ok := true; Host.state_document_ok := true;
     Host.config_file_parse_ok := true; Host.config_check_ok := true;
     Host.ns_setup_ok := true; Host.handle_mounts_ok := true;
     Host.vm_launch_ok := true; Host.pod_container_create_ok := true |}.

(** [cc_oci_config_create ()], and the configuration of a command given
    the container id [c1]. *)
Definition config_new : Oci.cc_oci_config :=
  {| Oci.optarg_container_id := None; Oci.bundle_path := None;
     Oci.root_dir := None;
     Oci.state :=
       {| Oci.state_file_path := ""; Oci.runtime_path := "";
          Oci.comms_path := ""; Oci.procsock_path := "";
          Oci.workload_pid := 0; Oci.status := State.OCI_STATUS_CREATED |};
     Oci.pod := None; Oci.vm := None; Oci.proxy := None; Oci.console := None;
     Oci.oci_mounts := []; Oci.oci_namespaces := []; Oci.oci_process := None;
     Oci.dry_run_mode := false |}.

Definition config_c1 : Oci.cc_oci_config :=
  {| Oci.optarg_container_id := Some "c1"; Oci.bundle_path := None;
     Oci.root_dir := None; Oci.state := Oci.state config_new;
     Oci.pod := None; Oci.vm := None; Oci.proxy := None; Oci.console := None;
     Oci.oci_mounts := []; Oci.oci_namespaces := []; Oci.oci_process := None;
     Oci.dry_run_mode := false |}.

(** The runtime directory of [c1] and the directories above it. *)
Definition runtime_dirs : gmap Host.path Host.ftype :=
  <[ ["var"; "run"; "cc-oci-runtime"; "c1"] := Host.Dir ]>
    (<[ ["var"; "run"; "cc-oci-runtime"] := Host.Dir ]>
       (<[ ["var"; "run"] := Host.Dir ]> (<[ ["var"] := Host.Dir ]> ∅))).

(** A host where [c1] runs, the coming writes of its state file meeting
    [results]. *)
Definition world_c1 (results : list bool) : Host.world :=
  {| Host.fs := runtime_dirs; Host.state_write_results := results;
     Host.state_file_status := Some "running"; Host.trace := [] |}.

(** The state of [c1] as [kill] has it after reading the state file. *)
Definition state_c1 : State.oci_state :=
  default State.state_new
    (read_state vm_members [ctlSocket; ioSocket; consoleSocket]).

Definition config_c1_read : Oci.cc_oci_config :=
  let '(_, _, config, _, _) :=
    Oci.cc_oci_get_config_and_state host_env config_c1 (world_c1 []) in
  snd (Oci.cc_oci_config_update config state_c1).

(** The widths [cc_oci_update_options] computes for [c1] alone. *)
Definition table_options (show_all : bool) : Oci.format_options :=
  {| Oci.use_json := false; Oci.show_all := show_all;
     Oci.id_width := 2; Oci.pid_width := 4; Oci.status_width := 8;
     Oci.bundle_width := 7; Oci.created_width := 20;
     Oci.hypervisor_width := 18; Oci.image_width := 20;
     Oci.kernel_width := 21 |}.

Definition json_options (show_all : bool) : Oci.format_options :=
  {| Oci.use_json := true; Oci.show_all := show_all;
     Oci.id_width := 0; Oci.pid_width := 0; Oci.status_width := 0;
     Oci.bundle_width := 0; Oci.created_width := 0;
     Oci.hypervisor_width := 0; Oci.image_width := 0;
     Oci.kernel_width := 0 |}.

(** The shim of [shim_5] once [main] has filled [poll_fds], with input
    pending on its standard input and signals in its pipe, on a terminal of
    24 rows and 80 columns. A [write] takes all it is given, three bytes
    when it is given four. *)
Definition input_world (pending : list (option (list Z))) (sigs : list Z)
  : ShimInput.world :=
  ShimInput.mk_world pending sigs (Some (24, 80))
    (fun _ n => if n =? 4 then 3 else n) 0
    [ShimInput.mk_pollfd 7 3; ShimInput.mk_pollfd 4 3;
     ShimInput.mk_pollfd 3 3; ShimInput.mk_pollfd 0 3]
    (replicate (Z.to_nat 8204) 0) [].

(** The same with a first [write] that takes four bytes. *)
Definition input_world_four (sigs : list Z) : ShimInput.world :=
  ShimInput.mk_world [] sigs (Some (24, 80))
    (fun k n => match k with O => 4 | S _ => if n =? 4 then 3 else n end) 0
    [ShimInput.mk_pollfd 7 3; ShimInput.mk_pollfd 4 3;
     ShimInput.mk_pollfd 3 3; ShimInput.mk_pollfd 0 3]
    (replicate (Z.to_nat 8204) 0) [].

End Examples.

(** * Part II: lemmas and theorems *)

(** ** C integer types *)

Lemma cast_uint8_range x : is_uint8 (cast_uint8 x).
Proof. unfold is_uint8, cast_uint8. apply Z.mod_pos_bound. lia. Qed.

Lemma cast_uint32_range x : is_uint32 (cast_uint32 x).
Proof. unfold is_uint32, cast_uint32. apply Z.mod_pos_bound. lia. Qed.

Lemma cast_uint64_range x : is_uint64 (cast_uint64 x).
Proof. unfold is_uint64, cast_uint64. apply Z.mod_pos_bound. lia. Qed.

Lemma cast_uint32_id x : is_uint32 x -> cast_uint32 x = x.
Proof. unfold is_uint32, cast_uint32. intros H. apply Z.mod_small. lia. Qed.

Lemma cast_uint64_id x : is_uint64 x -> cast_uint64 x = x.
Proof. unfold is_uint64, cast_uint64. intros H. apply Z.mod_small. lia. Qed.

Lemma cast_uint8_id x : is_uint8 x -> cast_uint8 x = x.
Proof. unfold is_uint8, cast_uint8. intros H. apply Z.mod_small. lia. Qed.

(** Converting an [int] to [uint32_t] forgets the wrap of [cast_int]. *)
Lemma cast_uint32_int x : cast_uint32 (cast_int x) = cast_uint32 x.
Proof.
  unfold cast_uint32, cast_int.
  rewrite Zminus_mod, Z.mod_mod by lia.
  rewrite <- Zminus_mod.
  replace (x + 2 ^ 31 - 2 ^ 31) with x by lia. reflexivity.
Qed.

Lemma cast_uint8_char x : cast_uint8 (cast_char x) = cast_uint8 x.
Proof.
  unfold cast_uint8, cast_char.
  rewrite Zminus_mod, Z.mod_mod by lia.
  rewrite <- Zminus_mod.
  replace (x + 2 ^ 7 - 2 ^ 7) with x by lia. reflexivity.
Qed.


(** ** Bit-level facts used by the codec *)

Section Bits.

Lemma mod_pow2_land x n : 0 <= n -> x mod 2 ^ n = Z.land x (Z.ones n).
Proof. intros Hn. symmetry. apply Z.land_ones. exact Hn. Qed.

Lemma testbit_above x n k :
  0 <= x < 2 ^ n -> 0 <= n -> n <= k -> Z.testbit x k = false.
Proof.
  intros Hx Hn Hk.
  rewrite <- (Z.mod_small x (2 ^ n)) by lia.
  apply Z.mod_pow2_bits_high. lia.
Qed.

(** [lor] commutes with reduction modulo a power of two. *)
Lemma lor_mod_pow2 a b n :
  0 <= n -> (Z.lor a b) mod 2 ^ n = Z.lor (a mod 2 ^ n) (b mod 2 ^ n).
Proof.
  intros Hn. rewrite !mod_pow2_land by lia.
  apply Z.land_lor_distr_l.
Qed.

(** One byte of [v], moved back to its place. *)
Lemma byte_slice_bits v s k :
  0 <= s -> 0 <= k ->
  Z.testbit (Z.shiftl ((Z.shiftr v s) mod 2 ^ 8) s) k
  = (s <=? k) && (k <? s + 8) && Z.testbit v k.
Proof.
  intros Hs Hk.
  rewrite Z.shiftl_spec by lia.
  destruct (Z.leb_spec s k) as [Hle|Hlt]; simpl.
  - rewrite mod_pow2_land by lia.
    rewrite Z.land_spec, Z.shiftr_spec by lia.
    rewrite Z.testbit_ones_nonneg by lia.
    replace (k - s + s) with k by lia.
    destruct (Z.ltb_spec (k - s) 8), (Z.ltb_spec k (s + 8)); try lia;
      simpl; rewrite ?andb_true_r, ?andb_false_r; reflexivity.
  - apply Z.testbit_neg_r. lia.
Qed.

Lemma be32_recompose v :
  is_uint32 v ->
  Z.lor (Z.lor (Z.lor (Z.shiftl ((Z.shiftr v 24) mod 2 ^ 8) 24)
                      (Z.shiftl ((Z.shiftr v 16) mod 2 ^ 8) 16))
               (Z.shiftl ((Z.shiftr v 8) mod 2 ^ 8) 8))
        (v mod 2 ^ 8) = v.
Proof.
  intros Hv. apply Z.bits_inj'. intros k Hk.
  replace (v mod 2 ^ 8) with (Z.shiftl ((Z.shiftr v 0) mod 2 ^ 8) 0)
    by (rewrite Z.shiftl_0_r, Z.shiftr_0_r; reflexivity).
  rewrite !Z.lor_spec, !byte_slice_bits by lia.
  destruct (Z.ltb_spec k 32) as [Hlt|Hge].
  - destruct (Z.testbit v k); rewrite ?andb_false_r, ?andb_true_r; [|reflexivity].
    destruct (Z.leb_spec 24 k), (Z.leb_spec 16 k), (Z.leb_spec 8 k),
      (Z.leb_spec 0 k), (Z.ltb_spec k (24 + 8)), (Z.ltb_spec k (16 + 8)),
      (Z.ltb_spec k (8 + 8)), (Z.ltb_spec k (0 + 8)); simpl; try reflexivity; lia.
  - rewrite (testbit_above v 32 k) by (unfold is_uint32 in Hv; lia).
    rewrite !andb_false_r. reflexivity.
Qed.

Lemma be64_recompose v :
  is_uint64 v ->
  Z.lor (Z.shiftl (Z.shiftr v 32 mod 2 ^ 32) 32) (v mod 2 ^ 32) = v.
Proof.
  intros Hv. unfold is_uint64 in Hv. apply Z.bits_inj'. intros k Hk.
  rewrite Z.lor_spec, Z.shiftl_spec by lia.
  destruct (Z.ltb_spec k 32) as [Hlt|Hge].
  - rewrite Z.testbit_neg_r by lia. simpl.
    apply Z.mod_pow2_bits_low. lia.
  - rewrite (Z.mod_pow2_bits_high v 32 k) by lia.
    rewrite orb_false_r.
    destruct (Z.ltb_spec k 64) as [Hlt|Hge64].
    + rewrite Z.mod_pow2_bits_low by lia.
      rewrite Z.shiftr_spec by lia. f_equal. lia.
    + rewrite Z.mod_pow2_bits_high by lia.
      symmetry. apply (testbit_above v 64); lia.
Qed.

End Bits.

(** ** shim/utils.c: the big-endian codec *)

Section BigEndianFacts.

Import BigEndian.

Lemma length_set_big_endian_32 buf off val :
  length (set_big_endian_32 buf off val) = length buf.
Proof. unfold set_big_endian_32. rewrite !length_insert. reflexivity. Qed.

Lemma length_set_big_endian_64 buf off val :
  length (set_big_endian_64 buf off val) = length buf.
Proof.
  unfold set_big_endian_64. rewrite !length_set_big_endian_32. reflexivity.
Qed.

Lemma peek_insert_eq (buf : list Z) (i : nat) (x : Z) :
  (i < length buf)%nat -> peek (<[i := x]> buf) i = x.
Proof. intros H. unfold peek. rewrite list_lookup_insert_eq by exact H. reflexivity. Qed.

Lemma peek_insert_ne (buf : list Z) (i j : nat) (x : Z) :
  i <> j -> peek (<[i := x]> buf) j = peek buf j.
Proof. intros H. unfold peek. rewrite list_lookup_insert_ne by exact H. reflexivity. Qed.

(** What the four positions hold after a store. *)
Lemma peek_set_big_endian_32 buf off val (k : nat) :
  (off + 4 <= length buf)%nat -> (k < 4)%nat ->
  peek (set_big_endian_32 buf off val) (off + k)
  = default 0 (be32_bytes val !! k).
Proof.
  intros Hlen Hk. unfold set_big_endian_32.
  destruct k as [|[|[|[|k]]]]; try lia; simpl;
    rewrite ?Nat.add_0_r;
    repeat first
      [ rewrite peek_insert_eq by (rewrite ?length_insert; lia)
      | rewrite peek_insert_ne by lia ];
    reflexivity.
Qed.

(** A store leaves every other position alone. *)
Lemma peek_set_big_endian_32_other buf off val (j : nat) :
  (j < off \/ off + 4 <= j)%nat ->
  peek (set_big_endian_32 buf off val) j = peek buf j.
Proof.
  intros Hj. unfold set_big_endian_32.
  rewrite !peek_insert_ne by lia. reflexivity.
Qed.

(** The value four in-range bytes decode to. *)
Lemma get_big_endian_32_bytes buf off b0 b1 b2 b3 :
  peek buf off = b0 -> peek buf (off + 1) = b1 ->
  peek buf (off + 2) = b2 -> peek buf (off + 3) = b3 ->
  is_uint8 b0 -> is_uint8 b1 -> is_uint8 b2 -> is_uint8 b3 ->
  get_big_endian_32 buf off
  = Z.lor (Z.lor (Z.lor (Z.shiftl b0 24) (Z.shiftl b1 16)) (Z.shiftl b2 8)) b3.
Proof.
  unfold is_uint8. intros <- <- <- <- H0 H1 H2 H3.
  unfold get_big_endian_32.
  set (p0 := peek buf off) in *. set (p1 := peek buf (off + 1)) in *.
  set (p2 := peek buf (off + 2)) in *. set (p3 := peek buf (off + 3)) in *.
  unfold cast_uint32 at 1. rewrite !lor_mod_pow2 by lia.
  fold (cast_uint32 (cast_int (Z.shiftl p0 24))).
  fold (cast_uint32 (cast_int (Z.shiftl p1 16))).
  fold (cast_uint32 (cast_int (Z.shiftl p2 8))).
  rewrite !cast_uint32_int.
  rewrite !Z.shiftl_mul_pow2 by lia.
  rewrite !cast_uint32_id by (unfold is_uint32; lia).
  rewrite (Z.mod_small p3) by lia. reflexivity.
Qed.

Lemma get_set_big_endian_32 buf off val :
  (off + 4 <= length buf)%nat -> is_uint32 val ->
  get_big_endian_32 (set_big_endian_32 buf off val) off = val.
Proof.
  intros Hlen Hval.
  rewrite (get_big_endian_32_bytes _ off
             (cast_uint8 (Z.shiftr val 24)) (cast_uint8 (Z.shiftr val 16))
             (cast_uint8 (Z.shiftr val 8)) (cast_uint8 val)).
  - unfold cast_uint8. apply be32_recompose. exact Hval.
  - rewrite <- (Nat.add_0_r off) at 2.
    rewrite peek_set_big_endian_32 by lia. reflexivity.
  - rewrite peek_set_big_endian_32 by lia. reflexivity.
  - rewrite peek_set_big_endian_32 by lia. reflexivity.
  - rewrite peek_set_big_endian_32 by lia. reflexivity.
  - apply cast_uint8_range.
  - apply cast_uint8_range.
  - apply cast_uint8_range.
  - apply cast_uint8_range.
Qed.

(** Reading is determined by the four bytes read. *)
Lemma get_big_endian_32_ext buf buf' off off' :
  (forall k : nat, (k < 4)%nat -> peek buf (off + k) = peek buf' (off' + k)) ->
  get_big_endian_32 buf off = get_big_endian_32 buf' off'.
Proof.
  intros H. unfold get_big_endian_32.
  rewrite <- (Nat.add_0_r off) at 1. rewrite <- (Nat.add_0_r off') at 1.
  rewrite !H by lia. reflexivity.
Qed.

Lemma get_set_big_endian_64 buf off val :
  (off + 8 <= length buf)%nat -> is_uint64 val ->
  get_big_endian_64 (set_big_endian_64 buf off val) off = val.
Proof.
  intros Hlen Hval. unfold get_big_endian_64, set_big_endian_64.
  rewrite (get_set_big_endian_32 _ (off + 4))
    by (rewrite ?length_set_big_endian_32; try apply cast_uint32_range; lia).
  rewrite (get_big_endian_32_ext _ (set_big_endian_32 buf off
             (cast_uint32 (Z.shiftr val 32))) off off)
    by (intros k Hk; apply peek_set_big_endian_32_other; lia).
  rewrite get_set_big_endian_32 by (try apply cast_uint32_range; lia).
  unfold is_uint64 in Hval.
  assert (Hhi : 0 <= cast_uint32 (Z.shiftr val 32) < 2 ^ 32)
    by apply cast_uint32_range.
  rewrite (cast_uint64_id (Z.shiftl _ 32)).
  2:{ unfold is_uint64. rewrite Z.shiftl_mul_pow2 by lia. lia. }
  unfold cast_uint32 at 1 2. rewrite be64_recompose by exact Hval.
  apply cast_uint64_id. exact Hval.
Qed.

(** C9. The big-endian codec round-trips: a 32 bit unsigned value stored with
    [set_big_endian_32] is read back by [get_big_endian_32], and a 64 bit
    unsigned value stored with [set_big_endian_64] is read back by
    [get_big_endian_64], at any position of a buffer that has room for it. *)
Theorem big_endian_codec_roundtrip
    (buf32 : list Z) (off32 : nat) (v32 : Z)
    (buf64 : list Z) (off64 : nat) (v64 : Z) :
  (off32 + 4 <= length buf32)%nat -> is_uint32 v32 ->
  (off64 + 8 <= length buf64)%nat -> is_uint64 v64 ->
  get_big_endian_32 (set_big_endian_32 buf32 off32 v32) off32 = v32 /\
  get_big_endian_64 (set_big_endian_64 buf64 off64 v64) off64 = v64.
Proof.
  intros H32 Hv32 H64 Hv64. split.
  - apply get_set_big_endian_32; assumption.
  - apply get_set_big_endian_64; assumption.
Qed.

Lemma big_endian_codec_roundtrip_witness :
  ((1 + 4 <= length (replicate 6 0%Z))%nat /\ is_uint32 3735928559 /\
   (3 + 8 <= length (replicate 12 7%Z))%nat /\
   is_uint64 18364758544493064720) /\
  get_big_endian_32 (set_big_endian_32 (replicate 6 0) 1 3735928559) 1
  = 3735928559 /\
  get_big_endian_64
    (set_big_endian_64 (replicate 12 7) 3 18364758544493064720) 3
  = 18364758544493064720.
Proof.
  assert (H1 : (1 + 4 <= length (replicate 6 0%Z))%nat) by (simpl; lia).
  assert (H2 : is_uint32 3735928559) by (unfold is_uint32; lia).
  assert (H3 : (3 + 8 <= length (replicate 12 7%Z))%nat) by (simpl; lia).
  assert (H4 : is_uint64 18364758544493064720) by (unfold is_uint64; lia).
  split; [ exact (conj H1 (conj H2 (conj H3 H4))) | ].
  exact (big_endian_codec_roundtrip _ 1%nat _ _ 3%nat _ H1 H2 H3 H4).
Defined.

(** The stored bytes, on an example: 0xDEADBEEF at offset 1. *)
Example set_big_endian_32_example :
  set_big_endian_32 [0; 0; 0; 0; 0; 0] 1 3735928559 = [0; 222; 173; 190; 239; 0].
Proof. reflexivity. Qed.

End BigEndianFacts.

(** ** src/proxy.c: the frame written to the proxy control socket *)

Section ProxyFacts.

Import BigEndian Glib Proxy.

Lemma g_utf8_skip_pos c : (1 <= g_utf8_skip c)%nat.
Proof. unfold g_utf8_skip. repeat case_match; lia. Qed.

Lemma g_utf8_skip_single c : c < 192 -> g_utf8_skip c = 1%nat.
Proof.
  intros Hc. unfold g_utf8_skip.
  destruct (Z.ltb_spec c 192); [reflexivity | lia].
Qed.

(** A character count never exceeds the byte count. *)
Lemma g_utf8_strlen_from_le fuel p :
  0 <= g_utf8_strlen_from fuel p <= Z.of_nat (length p).
Proof.
  revert p. induction fuel as [|fuel IH]; intros p; simpl; [lia|].
  destruct p as [|c p]; simpl; [lia|].
  specialize (IH (drop (g_utf8_skip c) (c :: p))).
  rewrite length_drop in IH. simpl in IH.
  pose proof (g_utf8_skip_pos c). lia.
Qed.

Lemma g_utf8_strlen_le p : 0 <= g_utf8_strlen p <= strlen p.
Proof. apply g_utf8_strlen_from_le. Qed.

(** On a string of single-byte characters the count is the byte length. *)
Lemma g_utf8_strlen_from_single fuel p :
  (length p <= fuel)%nat -> Forall (fun c => c < 192) p ->
  g_utf8_strlen_from fuel p = Z.of_nat (length p).
Proof.
  revert p. induction fuel as [|fuel IH]; intros p Hlen Hp.
  - destruct p; simpl in *; [reflexivity | lia].
  - destruct p as [|c p]; simpl in *; [reflexivity|].
    inversion Hp as [|? ? Hc Hp']; subst.
    rewrite g_utf8_skip_single by exact Hc. simpl. rewrite drop_0.
    rewrite IH by (try assumption; lia). lia.
Qed.

Lemma g_utf8_strlen_single p :
  Forall (fun c => c < 192) p -> g_utf8_strlen p = strlen p.
Proof. intros Hp. apply g_utf8_strlen_from_single; [lia | exact Hp]. Qed.

(** A lead byte of a two-byte sequence makes the count fall short. *)
Lemma g_utf8_strlen_two_byte c d p :
  192 <= c < 224 -> g_utf8_strlen (c :: d :: p) < strlen (c :: d :: p).
Proof.
  intros Hc. unfold g_utf8_strlen, strlen.
  assert (Hs : g_utf8_skip c = 2%nat).
  { unfold g_utf8_skip.
    destruct (Z.ltb_spec c 192); [lia|].
    destruct (Z.ltb_spec c 224); [reflexivity | lia]. }
  change (g_utf8_strlen_from (length (c :: d :: p)) (c :: d :: p))
    with (1 + g_utf8_strlen_from (S (length p))
                (drop (g_utf8_skip c) (c :: d :: p))).
  rewrite Hs. change (drop 2 (c :: d :: p)) with p.
  change (length (c :: d :: p)) with (S (S (length p))).
  pose proof (g_utf8_strlen_from_le (S (length p)) p).
  rewrite !Nat2Z.inj_succ. lia.
Qed.

(** The bytes of a value recomposed from four bytes. *)
Lemma bytes_slice_of_compose b0 b1 b2 b3 s :
  is_uint8 b0 -> is_uint8 b1 -> is_uint8 b2 -> is_uint8 b3 ->
  s = 0 \/ s = 8 \/ s = 16 \/ s = 24 ->
  cast_uint8
    (Z.shiftr (Z.lor (Z.lor (Z.lor (Z.shiftl b0 24) (Z.shiftl b1 16))
                            (Z.shiftl b2 8)) b3) s)
  = if s =? 24 then b0 else if s =? 16 then b1 else if s =? 8 then b2 else b3.
Proof.
  unfold is_uint8, cast_uint8. intros H0 H1 H2 H3 Hs.
  apply Z.bits_inj'. intros k Hk.
  rewrite mod_pow2_land by lia.
  rewrite Z.land_spec, Z.shiftr_spec, !Z.lor_spec, !Z.shiftl_spec by lia.
  rewrite Z.testbit_ones_nonneg by lia.
  destruct (Z.ltb_spec k 8) as [Hlt|Hge].
  - rewrite andb_true_r.
    destruct Hs as [-> | [-> | [-> | -> ] ] ]; simpl;
      rewrite ?(Z.testbit_neg_r _ (k + _ - _)) by lia;
      rewrite ?(testbit_above b0 8 (k + _ - _)) by lia;
      rewrite ?(testbit_above b1 8 (k + _ - _)) by lia;
      rewrite ?(testbit_above b2 8 (k + _ - _)) by lia;
      rewrite ?(testbit_above b3 8 (k + _)) by lia;
      rewrite ?orb_false_r, ?orb_false_l; f_equal; lia.
  - rewrite andb_false_r. symmetry.
    repeat case_match; apply (testbit_above _ 8); lia.
Qed.

(** Storing [htonl x] in the host's memory lays down the big-endian bytes of
    [x], whatever the host's byte order. *)
Lemma htonl_in_memory le x :
  guint32_in_memory le (htonl le x) = be32_bytes x.
Proof.
  destruct le; [|reflexivity].
  unfold guint32_in_memory, htonl, bswap_32, be32_bytes.
  pose proof (cast_uint8_range x).
  pose proof (cast_uint8_range (Z.shiftr x 8)).
  pose proof (cast_uint8_range (Z.shiftr x 16)).
  pose proof (cast_uint8_range (Z.shiftr x 24)).
  rewrite <- (Z.shiftr_0_r (Z.lor _ _)) at 1.
  rewrite !bytes_slice_of_compose by (try assumption; lia).
  reflexivity.
Qed.

Lemma guint32_in_memory_zero le : guint32_in_memory le 0 = [0; 0; 0; 0].
Proof. destruct le; reflexivity. Qed.

(** What [cc_proxy_msg_write] puts on the socket of a ready channel: the
    character count, big-endian, four zero bytes, and as many payload
    {e bytes} as the payload has {e characters}. *)
Lemma frame_of_eq le msg_to_send :
  frame_of le msg_to_send
  = be32_bytes (cast_uint32 (g_utf8_strlen msg_to_send)) ++ [0; 0; 0; 0]
    ++ take (Z.to_nat (g_utf8_strlen msg_to_send)) msg_to_send.
Proof.
  unfold frame_of, cc_proxy_msg_write, do_while_again, ready_channel,
    proxy_msg_header_in_memory. simpl.
  rewrite htonl_in_memory, guint32_in_memory_zero. reflexivity.
Qed.

(** For a payload of single-byte characters the frame is as specified. *)
Lemma frame_of_single_byte_payload le msg_to_send :
  Forall (fun c => c < 192) msg_to_send -> strlen msg_to_send < 2 ^ 32 ->
  frame_of le msg_to_send
  = be32_bytes (strlen msg_to_send) ++ [0; 0; 0; 0] ++ msg_to_send /\
  Z.of_nat (length (frame_of le msg_to_send)) = 8 + strlen msg_to_send /\
  get_big_endian_32 (frame_of le msg_to_send) 0 = strlen msg_to_send.
Proof.
  intros Hp Hlen. rewrite frame_of_eq, g_utf8_strlen_single by exact Hp.
  unfold strlen in *. rewrite Nat2Z.id, firstn_all.
  assert (Hu : is_uint32 (Z.of_nat (length msg_to_send)))
    by (unfold is_uint32; lia).
  rewrite cast_uint32_id by exact Hu.
  split; [reflexivity|]. split.
  - rewrite !length_app. simpl. lia.
  - pose proof (get_set_big_endian_32 (replicate 4 0 ++ [0; 0; 0; 0] ++ msg_to_send)
                  0 _ ltac:(rewrite length_app; simpl; lia) Hu) as Hget.
    exact Hget.
Qed.

(** C1, evaluated on the payload [{"id":"é"}] (eleven bytes, ten
    characters: [é] is the two bytes 195, 169). The frame written is 18 bytes
    long, not 8 + 11; its length field holds 10, not 11; and the payload's
    last byte is not sent. *)
Theorem cc_proxy_msg_write_non_ascii_payload (le : bool) :
  let payload := [123; 34; 105; 100; 34; 58; 34; 195; 169; 34; 125] in
  Glib.strlen payload = 11 /\
  frame_of le payload
  = [0; 0; 0; 10; 0; 0; 0; 0; 123; 34; 105; 100; 34; 58; 34; 195; 169; 34] /\
  Z.of_nat (length (frame_of le payload)) = 8 + Glib.strlen payload - 1 /\
  get_big_endian_32 (frame_of le payload) 0 = Glib.strlen payload - 1.
Proof.
  intros payload. subst payload. rewrite frame_of_eq.
  repeat split; reflexivity.
Qed.

End ProxyFacts.

(** ** shim/shim.c: reading stream frames *)

Section ShimReadFacts.

Import BigEndian Termios Shim.

Lemma set_proxy_io_pending_twice w p q :
  set_proxy_io_pending (set_proxy_io_pending w p) q = set_proxy_io_pending w q.
Proof. reflexivity. Qed.

Lemma set_proxy_io_pending_same w :
  set_proxy_io_pending w (proxy_io_pending w) = w.
Proof. destruct w; reflexivity. Qed.

(** A [read] that finds bytes pending takes between one byte and what it
    asked for, from the front. *)
Lemma read_pending w want bs :
  pending_bytes (proxy_io_pending w) = bs -> bs <> [] -> 1 <= want ->
  exists (n : nat) p',
    (1 <= n)%nat /\ Z.of_nat n <= want /\ (n <= length bs)%nat /\
    read w want = (Z.of_nat n, take n bs, set_proxy_io_pending w p') /\
    pending_bytes p' = drop n bs.
Proof.
  intros Hbs Hne Hwant. unfold read.
  destruct (proxy_io_pending w) as [|[[|b data]|] rest];
    try (simpl in Hbs; subst bs; congruence).
  change (pending_bytes (Some (b :: data) :: rest))
    with ((b :: data) ++ pending_bytes rest) in Hbs.
  set (chunk := b :: data) in *.
  assert (Hchunk : (1 <= length chunk)%nat) by (subst chunk; simpl; lia).
  exists (length (take (Z.to_nat want) chunk)),
    (match drop (Z.to_nat want) chunk with
     | [] => rest
     | _ => Some (drop (Z.to_nat want) chunk) :: rest
     end).
  rewrite length_take. subst bs. rewrite length_app.
  split; [lia|]. split; [lia|]. split; [lia|]. split.
  - f_equal. f_equal.
    rewrite take_app_le by lia.
    destruct (decide (Z.to_nat want <= length chunk)%nat).
    + rewrite Nat.min_l by lia. reflexivity.
    + rewrite Nat.min_r by lia. rewrite !take_ge by lia. reflexivity.
  - destruct (decide (Z.to_nat want < length chunk)%nat) as [Hlt|Hge].
    + rewrite Nat.min_l by lia. rewrite drop_app_le by lia.
      destruct (drop (Z.to_nat want) chunk) as [|x left] eqn:Hleft.
      * apply drop_nil_inv in Hleft. lia.
      * reflexivity.
    + rewrite Nat.min_r by lia. rewrite drop_app_length.
      rewrite drop_ge by lia. reflexivity.
Qed.

(** Storing bytes behind the part of the buffer that is filled. *)
Lemma list_inserts_fill (filled data : list Z) (room : nat) :
  (length data <= room)%nat ->
  list_inserts (length filled) data (filled ++ replicate room 0)
  = (filled ++ data) ++ replicate (room - length data) 0.
Proof.
  intros Hroom.
  rewrite <- (Nat.add_0_r (length filled)), list_inserts_app_r.
  replace room with (length data + (room - length data))%nat at 1 by lia.
  rewrite replicate_add, list_inserts_0_r by (rewrite length_replicate; reflexivity).
  rewrite app_assoc. reflexivity.
Qed.

Lemma read_IO_loop_unfold fuel w buf bytes_read need_read stream_len :
  read_IO_loop (S fuel) w buf bytes_read need_read stream_len
  = if bytes_read <? need_read then
      let want := need_read - bytes_read in
      let want := if want >? BUFSIZ then BUFSIZ else want in
      let '(ret, data, w) := read w want in
      if ret =? -1 then err_exit w
      else if ret =? 0 then err_exit w
      else
        let buf := list_inserts (Z.to_nat bytes_read) data buf in
        let bytes_read := bytes_read + ret in
        if (stream_len =? 0) && (bytes_read >=? STREAM_HEADER_SIZE) then
          let stream_len :=
            get_big_endian_32 buf STREAM_HEADER_LENGTH_OFFSET in
          if stream_len =? STREAM_HEADER_SIZE then
            read_IO_return w buf stream_len
          else if stream_len >? HYPERSTART_MAX_RECV_BYTES then
            Returns (None, 0, stream_len) (emit w (EvLog LOG_WARNING))
          else if stream_len >? STREAM_HEADER_SIZE then
            read_IO_loop fuel w (realloc buf stream_len)
              bytes_read stream_len stream_len
          else read_IO_loop fuel w buf bytes_read need_read stream_len
        else read_IO_loop fuel w buf bytes_read need_read stream_len
    else read_IO_return w buf stream_len.
Proof. reflexivity. Qed.

(** The loop once the header is in: it fills the buffer with the rest of the
    frame, whatever the segments the bytes arrive in. *)
Lemma read_IO_loop_payload fuel w frame rest (n : nat) :
  pending_bytes (proxy_io_pending w) = drop n frame ++ rest ->
  (n <= length frame)%nat -> (12 < length frame)%nat ->
  (length frame - n < fuel)%nat ->
  exists p',
    read_IO_loop fuel w
      (take n frame ++ replicate (length frame - n) 0)
      (Z.of_nat n) (Z.of_nat (length frame)) (Z.of_nat (length frame))
    = Returns (Some frame, frame_seq frame, Z.of_nat (length frame))
        (set_proxy_io_pending w p') /\
    pending_bytes p' = rest.
Proof.
  revert w n. induction fuel as [|fuel IH]; intros w n Hpend Hn Hlen Hfuel;
    [lia|].
  rewrite read_IO_loop_unfold.
  destruct (Z.ltb_spec (Z.of_nat n) (Z.of_nat (length frame))) as [Hlt|Hge].
  - cbv zeta.
    set (want := if Z.of_nat (length frame) - Z.of_nat n >? BUFSIZ
                 then BUFSIZ else Z.of_nat (length frame) - Z.of_nat n).
    assert (Hwant : 1 <= want <= Z.of_nat (length frame) - Z.of_nat n).
    { subst want. unfold BUFSIZ.
      destruct (Z.gtb_spec (Z.of_nat (length frame) - Z.of_nat n) 8192); lia. }
    destruct (read_pending w want _ Hpend) as (k & p1 & Hk1 & Hk2 & Hk3 & Hread & Hp1).
    { intros Hnil. apply (f_equal length) in Hnil.
      rewrite length_app, length_drop in Hnil. simpl in Hnil. lia. }
    { lia. }
    rewrite Hread.
    destruct (Z.eqb_spec (Z.of_nat k) (-1)) as [|_]; [lia|].
    destruct (Z.eqb_spec (Z.of_nat k) 0) as [|_]; [lia|].
    replace (Z.of_nat (length frame) =? 0) with false
      by (symmetry; apply Z.eqb_neq; lia).
    cbn [andb].
    assert (Htake : take k (drop n frame ++ rest) = take k (drop n frame)).
    { apply take_app_le. rewrite length_drop. lia. }
    rewrite Htake, Nat2Z.id.
    assert (Hfill :
      list_inserts n (take k (drop n frame))
        (take n frame ++ replicate (length frame - n) 0)
      = take (n + k) frame ++ replicate (length frame - (n + k)) 0).
    { rewrite <- (length_take_le frame n) at 1 by lia.
      rewrite list_inserts_fill by (rewrite length_take, length_drop; lia).
      rewrite take_take_drop, length_take, length_drop.
      f_equal. f_equal. lia. }
    rewrite Hfill.
    replace (Z.of_nat n + Z.of_nat k) with (Z.of_nat (n + k)) by lia.
    destruct (IH (set_proxy_io_pending w p1) (n + k)%nat) as (p' & Hloop & Hp').
    { cbn. rewrite Hp1.
      rewrite drop_app_le by (rewrite length_drop; lia).
      rewrite drop_drop. reflexivity. }
    { lia. }
    { lia. }
    { lia. }
    exists p'. rewrite Hloop. split; [reflexivity | exact Hp'].
  - assert (n = length frame) by lia. subst n.
    rewrite Nat.sub_diag, drop_all in *. simpl in Hpend.
    rewrite firstn_all, app_nil_r.
    exists (proxy_io_pending w). rewrite set_proxy_io_pending_same.
    split; [reflexivity | exact Hpend].
Qed.

(** The header of a frame read from its first twelve bytes. *)
Lemma frame_length_take frame :
  get_big_endian_32 (take 12 frame) STREAM_HEADER_LENGTH_OFFSET
  = frame_length frame.
Proof.
  unfold frame_length. apply get_big_endian_32_ext.
  intros k Hk. unfold peek, STREAM_HEADER_LENGTH_OFFSET.
  rewrite lookup_take_lt by lia. reflexivity.
Qed.

(** The loop from its start: header, then payload. *)
Lemma read_IO_loop_header fuel w frame rest (n : nat) :
  well_formed_frame frame ->
  pending_bytes (proxy_io_pending w) = drop n frame ++ rest ->
  (n < 12)%nat -> (length frame - n < fuel)%nat ->
  exists p',
    read_IO_loop fuel w (take n frame ++ replicate (12 - n) 0)
      (Z.of_nat n) STREAM_HEADER_SIZE 0
    = Returns (Some frame, frame_seq frame, Z.of_nat (length frame))
        (set_proxy_io_pending w p') /\
    pending_bytes p' = rest.
Proof.
  intros [Hfl Hbound]. unfold STREAM_HEADER_SIZE, HYPERSTART_MAX_RECV_BYTES in *.
  revert w n. induction fuel as [|fuel IH]; intros w n Hpend Hn Hfuel; [lia|].
  rewrite read_IO_loop_unfold.
  unfold STREAM_HEADER_SIZE, HYPERSTART_MAX_RECV_BYTES.
  destruct (Z.ltb_spec (Z.of_nat n) 12) as [_|]; [|lia].
  cbv zeta.
  destruct (Z.gtb_spec (12 - Z.of_nat n) BUFSIZ) as [Hbig|_];
    [unfold BUFSIZ in Hbig; lia|].
  destruct (read_pending w (12 - Z.of_nat n) _ Hpend)
    as (k & p1 & Hk1 & Hk2 & Hk3 & Hread & Hp1).
  { intros Hnil. apply (f_equal length) in Hnil.
    rewrite length_app, length_drop in Hnil. simpl in Hnil. lia. }
  { lia. }
  rewrite Hread.
  destruct (Z.eqb_spec (Z.of_nat k) (-1)) as [|_]; [lia|].
  destruct (Z.eqb_spec (Z.of_nat k) 0) as [|_]; [lia|].
  assert (Htake : take k (drop n frame ++ rest) = take k (drop n frame)).
  { apply take_app_le. rewrite length_drop. lia. }
  rewrite Htake, Nat2Z.id.
  assert (Hfill :
    list_inserts n (take k (drop n frame)) (take n frame ++ replicate (12 - n) 0)
    = take (n + k) frame ++ replicate (12 - (n + k)) 0).
  { rewrite <- (length_take_le frame n) at 1 by lia.
    rewrite list_inserts_fill by (rewrite length_take, length_drop; lia).
    rewrite take_take_drop, length_take, length_drop.
    f_equal. f_equal. lia. }
  rewrite Hfill.
  replace (Z.of_nat n + Z.of_nat k) with (Z.of_nat (n + k)) by lia.
  assert (Hpend1 : pending_bytes (proxy_io_pending (set_proxy_io_pending w p1))
                   = drop (n + k) frame ++ rest).
  { cbn. rewrite Hp1. rewrite drop_app_le by (rewrite length_drop; lia).
    rewrite drop_drop. reflexivity. }
  cbn [Z.eqb andb].
  destruct (Z.geb_spec (Z.of_nat (n + k)) 12) as [Hfull|Hpart].
  - assert (Hnk : (n + k)%nat = 12%nat) by lia. rewrite Hnk in *.
    change (12 - 12)%nat with 0%nat. cbn [replicate]. rewrite app_nil_r.
    cbv zeta. rewrite frame_length_take, Hfl.
    destruct (Z.eqb_spec (Z.of_nat (length frame)) 12) as [H12|Hn12].
    + assert (Hall : take 12 frame = frame) by (apply take_ge; lia).
      rewrite Hall. unfold read_IO_return.
      exists p1. split; [reflexivity|].
      rewrite Hp1. rewrite drop_app_le by (rewrite length_drop; lia).
      rewrite drop_drop, Hnk, drop_ge by lia. reflexivity.
    + destruct (Z.gtb_spec (Z.of_nat (length frame)) 10240) as [|_]; [lia|].
      destruct (Z.gtb_spec (Z.of_nat (length frame)) 12) as [_|]; [|lia].
      unfold realloc. rewrite length_take_le, Nat2Z.id by lia.
      destruct (read_IO_loop_payload fuel (set_proxy_io_pending w p1)
                  frame rest 12) as (p' & Hloop & Hp'); try lia.
      { exact Hpend1. }
      rewrite Hloop.
      exists p'. split; [reflexivity | exact Hp'].
  - destruct (IH (set_proxy_io_pending w p1) (n + k)%nat) as (p' & Hloop & Hp');
      try lia.
    { exact Hpend1. }
    unfold STREAM_HEADER_SIZE in Hloop. rewrite Hloop.
    exists p'. split; [reflexivity | exact Hp'].
Qed.

(** Reading one well-formed frame: [read_IO_message] returns the frame, its
    sequence number and its length, and leaves what follows the frame. *)
Lemma read_IO_message_frame shim w frame rest :
  well_formed_frame frame ->
  pending_bytes (proxy_io_pending w) = frame ++ rest ->
  exists p',
    read_IO_message shim w
    = Returns (Some frame, frame_seq frame, Z.of_nat (length frame))
        (set_proxy_io_pending w p') /\
    pending_bytes p' = rest.
Proof.
  intros Hwf Hpend. unfold read_IO_message, calloc.
  pose proof Hwf as [_ Hbound].
  unfold STREAM_HEADER_SIZE, HYPERSTART_MAX_RECV_BYTES in Hbound.
  apply (read_IO_loop_header read_IO_message_fuel w frame rest 0 Hwf).
  - rewrite drop_0. exact Hpend.
  - lia.
  - unfold read_IO_message_fuel, HYPERSTART_MAX_RECV_BYTES. lia.
Qed.

End ShimReadFacts.

(** ** shim/shim.c: routing the frames read *)

Section ShimDispatchFacts.

Import BigEndian Termios Shim.

Lemma fd_output_app fd tr1 tr2 :
  fd_output fd (tr1 ++ tr2) = fd_output fd tr1 ++ fd_output fd tr2.
Proof. unfold fd_output. rewrite omap_app, concat_app. reflexivity. Qed.

Lemma fd_output_cons_write fd fd' data ret tr :
  fd_output fd (EvWrite fd' data ret :: tr)
  = (if fd' =? fd then take (Z.to_nat ret) data else []) ++ fd_output fd tr.
Proof. unfold fd_output. simpl. destruct (fd' =? fd); reflexivity. Qed.

Lemma write_loop_unfold results outfd buf offset stream_len :
  write_loop results outfd buf offset stream_len
  = if offset <? stream_len then
      let data :=
        take (Z.to_nat (stream_len - offset)) (drop (Z.to_nat offset) buf) in
      match results with
      | [] => ([], [EvWrite outfd data (stream_len - offset)])
      | ret :: results =>
          if ret <=? 0 then (results, [EvWrite outfd data ret])
          else
            let '(results, evs) :=
              write_loop results outfd buf (offset + ret) stream_len in
            (results, EvWrite outfd data ret :: evs)
      end
    else (results, []).
Proof. destruct results; reflexivity. Qed.

(** When no [write] fails or returns zero, the loop hands the descriptor
    every byte from [offset] on, and nothing to any other descriptor,
    however the [write]s split the bytes. *)
Lemma write_loop_output results outfd buf offset :
  Forall (fun ret => 0 < ret) results -> 0 <= offset ->
  fd_output outfd
    (snd (write_loop results outfd buf offset (Z.of_nat (length buf))))
  = drop (Z.to_nat offset) buf /\
  (forall fd, fd <> outfd ->
     fd_output fd
       (snd (write_loop results outfd buf offset (Z.of_nat (length buf)))) = []).
Proof.
  intros Hres. revert offset.
  induction Hres as [|ret results Hret Hres IH]; intros offset Hoff;
    rewrite write_loop_unfold;
    destruct (Z.ltb_spec offset (Z.of_nat (length buf))) as [Hlt|Hge].
  - cbv zeta. cbn [snd].
    rewrite take_ge by (rewrite length_drop; lia). split.
    + rewrite fd_output_cons_write, Z.eqb_refl.
      rewrite take_ge by (rewrite length_drop; lia).
      apply app_nil_r.
    + intros fd Hfd. rewrite fd_output_cons_write.
      destruct (Z.eqb_spec outfd fd); [congruence | reflexivity].
  - cbn [snd]. split; [|reflexivity].
    rewrite drop_ge by lia. reflexivity.
  - cbv zeta. destruct (Z.leb_spec ret 0) as [|_]; [lia|].
    destruct (IH (offset + ret) ltac:(lia)) as [IHout IHother].
    destruct (write_loop results outfd buf (offset + ret)
                (Z.of_nat (length buf))) as [results' evs].
    cbn [snd] in *.
    rewrite take_ge by (rewrite length_drop; lia). split.
    + rewrite fd_output_cons_write, Z.eqb_refl, IHout.
      replace (Z.to_nat (offset + ret))
        with (Z.to_nat offset + Z.to_nat ret)%nat by lia.
      rewrite <- drop_drop. apply take_drop.
    + intros fd Hfd. rewrite fd_output_cons_write, (IHother fd Hfd).
      destruct (Z.eqb_spec outfd fd); [congruence | reflexivity].
  - cbn [snd]. split; [|reflexivity].
    rewrite drop_ge by lia. reflexivity.
Qed.

(** The first [write] is always handed everything from [offset] on. *)
Lemma write_loop_first results outfd buf offset :
  0 <= offset < Z.of_nat (length buf) ->
  exists ret evs,
    snd (write_loop results outfd buf offset (Z.of_nat (length buf)))
    = EvWrite outfd (drop (Z.to_nat offset) buf) ret :: evs.
Proof.
  intros Hoff. rewrite write_loop_unfold.
  destruct (Z.ltb_spec offset (Z.of_nat (length buf))) as [_|]; [|lia].
  cbv zeta. rewrite take_ge by (rewrite length_drop; lia).
  destruct results as [|ret results]; [eexists _, _; reflexivity|].
  destruct (ret <=? 0); [eexists _, _; reflexivity|].
  destruct (write_loop results outfd buf (offset + ret) (Z.of_nat (length buf))).
  eexists _, _; reflexivity.
Qed.

Lemma write_all_trace w outfd buf offset stream_len :
  trace (write_all w outfd buf offset stream_len)
  = trace w ++ snd (write_loop (write_results w) outfd buf offset stream_len).
Proof.
  unfold write_all.
  destruct (write_loop (write_results w) outfd buf offset stream_len).
  reflexivity.
Qed.

Lemma write_all_pending w outfd buf offset stream_len :
  proxy_io_pending (write_all w outfd buf offset stream_len)
  = proxy_io_pending w.
Proof.
  unfold write_all.
  destruct (write_loop (write_results w) outfd buf offset stream_len).
  reflexivity.
Qed.

(** Handling one well-formed frame is the dispatch of that frame. *)
Lemma handle_proxy_output_frame shim w frame rest :
  well_formed_frame frame ->
  pending_bytes (proxy_io_pending w) = frame ++ rest ->
  exists p',
    pending_bytes p' = rest /\
    handle_proxy_output shim w
    = dispatch_frame shim (set_proxy_io_pending w p') frame
        (frame_seq frame) (Z.of_nat (length frame)).
Proof.
  intros Hwf Hpend.
  destruct (read_IO_message_frame shim w frame rest Hwf Hpend)
    as (p' & Hread & Hp').
  exists p'. split; [exact Hp'|].
  unfold handle_proxy_output. rewrite Hread.
  destruct Hwf as [_ Hbound].
  unfold STREAM_HEADER_SIZE, HYPERSTART_MAX_RECV_BYTES in *.
  destruct (Z.leb_spec (Z.of_nat (length frame)) 0) as [|_]; [lia|].
  destruct (Z.gtb_spec (Z.of_nat (length frame)) 10240) as [|_]; [lia|].
  reflexivity.
Qed.

Lemma set_exiting_same shim : set_exiting shim (exiting shim) = shim.
Proof. destruct shim; reflexivity. Qed.

(** One frame, by cases: after the end of stream a one-byte frame of the
    shim's streams ends the process with that byte; every other frame
    returns, and only the end-of-stream frame changes the shim. *)
Lemma dispatch_frame_step shim w frame :
  dispatch_frame shim w frame (frame_seq frame) (Z.of_nat (length frame))
  = if exiting shim && is_one_byte_frame shim frame then
      exit (cast_char (peek frame (Z.to_nat STREAM_HEADER_SIZE)))
        (restore_terminal w)
    else
      Returns (set_exiting shim (exiting shim || is_eof_frame shim frame))
        (world_after_frame shim w frame).
Proof.
  unfold dispatch_frame, world_after_frame, is_one_byte_frame, is_eof_frame,
    seq_matches, routed_fd, STREAM_HEADER_SIZE.
  destruct (frame_seq frame =? io_seq_no shim) eqn:Hout;
    [|destruct (frame_seq frame =? cast_uint64 (io_seq_no shim + 1)) eqn:Herr];
    cbn [orb andb];
    destruct (exiting shim) eqn:Hex; cbn [negb orb andb];
    destruct (Z.eqb_spec (Z.of_nat (length frame)) 12) as [H12|H12];
    destruct (Z.eqb_spec (Z.of_nat (length frame)) (12 + 1)) as [H13|H13];
    try lia; cbn [negb orb andb];
    rewrite <- ?Hex, ?set_exiting_same; try reflexivity.
Qed.

Lemma write_all_nothing w outfd buf offset stream_len :
  stream_len <= offset -> write_all w outfd buf offset stream_len = w.
Proof.
  intros Hle. unfold write_all. rewrite write_loop_unfold.
  destruct (Z.ltb_spec offset stream_len); [lia|].
  destruct w; cbn. rewrite app_nil_r. reflexivity.
Qed.

(** A frame that is handled leaves the terminal, the saved settings and the
    pending input alone, and only adds to the trace. *)
Lemma world_after_frame_env shim w frame :
  proxy_io_pending (world_after_frame shim w frame) = proxy_io_pending w /\
  stdin_tty (world_after_frame shim w frame) = stdin_tty w /\
  tcsetattr_fails (world_after_frame shim w frame) = tcsetattr_fails w /\
  saved_term_settings (world_after_frame shim w frame) = saved_term_settings w.
Proof.
  unfold world_after_frame, write_all.
  destruct (seq_matches shim frame); [|repeat split].
  destruct (negb (exiting shim) && _); [repeat split|].
  destruct (write_loop _ _ _ _ _). repeat split.
Qed.

(** [io_seq_no + 1] in 64 bit arithmetic is never [io_seq_no]. *)
Lemma cast_uint64_succ_neq n : is_uint64 n -> cast_uint64 (n + 1) <> n.
Proof.
  unfold is_uint64, cast_uint64. intros Hn Heq.
  destruct (Z.eq_dec n (2 ^ 64 - 1)) as [->|Hne].
  - vm_compute in Heq. discriminate.
  - rewrite Z.mod_small in Heq by lia. lia.
Qed.

(** The routing predicates only look at [io_seq_no]. *)
Lemma is_one_byte_frame_set_exiting shim e frame :
  is_one_byte_frame (set_exiting shim e) frame = is_one_byte_frame shim frame.
Proof. reflexivity. Qed.

Lemma is_eof_frame_set_exiting shim e frame :
  is_eof_frame (set_exiting shim e) frame = is_eof_frame shim frame.
Proof. reflexivity. Qed.

(** [restore_terminal] when [tcsetattr] works: a terminal with saved
    settings gets them back, and the settings are saved no longer. *)
Lemma restore_terminal_saved w cur saved :
  stdin_tty w = Some cur -> saved_term_settings w = Some saved ->
  tcsetattr_fails w = false ->
  restore_terminal w
  = set_saved_term_settings
      (emit (set_stdin_tty w (Some saved)) (EvTcsetattr STDIN_FILENO saved 0))
      None.
Proof.
  intros Htty Hsaved Hok. unfold restore_terminal, isatty_stdin, tcsetattr.
  rewrite Hsaved, Htty, Hok. reflexivity.
Qed.

Lemma restore_terminal_not_saved w :
  saved_term_settings w = None -> restore_terminal w = w.
Proof. intros Hsaved. unfold restore_terminal. rewrite Hsaved. reflexivity. Qed.

Lemma restore_terminal_not_tty w :
  stdin_tty w = None -> restore_terminal w = w.
Proof.
  intros Htty. unfold restore_terminal, isatty_stdin. rewrite Htty.
  destruct (saved_term_settings w); reflexivity.
Qed.

(** The status the parent sees is the payload byte. *)
Lemma exit_status_cast_char b : is_uint8 b -> exit_status (cast_char b) = b.
Proof.
  intros Hb. unfold exit_status.
  change 255 with (Z.ones 8). rewrite Z.land_ones by lia.
  fold (cast_uint8 (cast_char b)).
  rewrite cast_uint8_char. apply cast_uint8_id. exact Hb.
Qed.

(** A run of the loop over well-formed frames that ends the process does so
    on a one-byte frame of the shim's streams, with that byte as the code;
    and if the run started with [exiting] clear, an end-of-stream frame of
    the shim's streams came before it. *)
Lemma proxy_io_events_exits frames :
  forall shim w rest (k : nat) code w',
    Forall well_formed_frame frames ->
    pending_bytes (proxy_io_pending w) = concat frames ++ rest ->
    (k <= length frames)%nat ->
    proxy_io_events k shim w = Exits code w' ->
    exists (j : nat) f_status,
      (j < k)%nat /\ frames !! j = Some f_status /\
      is_one_byte_frame shim f_status = true /\
      code = cast_char (peek f_status (Z.to_nat STREAM_HEADER_SIZE)) /\
      (exiting shim = false ->
       exists (i : nat) f_eof,
         (i < j)%nat /\ frames !! i = Some f_eof /\
         is_eof_frame shim f_eof = true).
Proof.
  induction frames as [|f frames IH]; intros shim w rest k code w' Hwf Hpend Hk Hrun.
  - assert (k = 0%nat) by (simpl in Hk; lia). subst k. discriminate.
  - destruct k as [|k]; [discriminate|].
    inversion Hwf as [|? ? Hwf1 Hwfs]; subst.
    cbn [concat] in Hpend. rewrite <- app_assoc in Hpend.
    destruct (handle_proxy_output_frame shim w f _ Hwf1 Hpend)
      as (p1 & Hp1 & Hstep).
    cbn [proxy_io_events] in Hrun. rewrite Hstep, dispatch_frame_step in Hrun.
    destruct (exiting shim && is_one_byte_frame shim f) eqn:Hexit.
    + apply andb_true_iff in Hexit as [Hex Hone].
      unfold exit in Hrun. injection Hrun as <- _.
      exists 0%nat, f. split; [lia|]. split; [reflexivity|].
      split; [exact Hone|]. split; [reflexivity|]. congruence.
    + set (shim1 := set_exiting shim (exiting shim || is_eof_frame shim f)) in *.
      set (w1 := world_after_frame shim (set_proxy_io_pending w p1) f) in *.
      destruct (world_after_frame_env shim (set_proxy_io_pending w p1) f)
        as (Hw1p & _).
      fold w1 in Hw1p. cbn in Hw1p.
      destruct (IH shim1 w1 rest k code w' Hwfs) as (j & fs & Hj & Hfs & Hone & Hcode & Heof).
      { rewrite Hw1p. exact Hp1. }
      { simpl in Hk. lia. }
      { exact Hrun. }
      exists (S j), fs. split; [lia|]. split; [exact Hfs|].
      split; [exact Hone|]. split; [exact Hcode|].
      intros Hclear.
      destruct (is_eof_frame shim f) eqn:Hf.
      * exists 0%nat, f. split; [lia|]. split; [reflexivity | exact Hf].
      * destruct Heof as (i & fe & Hi & Hfe & Heofi).
        { subst shim1. cbn. rewrite Hclear. reflexivity. }
        exists (S i), fe. split; [lia|]. split; [exact Hfe | exact Heofi].
Qed.

(** As long as no end-of-stream frame of the shim's streams has come, the
    loop returns with the shim as it was. *)
Lemma proxy_io_events_before_eof (j : nat) :
  forall frames shim w rest,
    Forall well_formed_frame frames ->
    pending_bytes (proxy_io_pending w) = concat frames ++ rest ->
    exiting shim = false -> (j <= length frames)%nat ->
    (forall (i : nat) f, (i < j)%nat -> frames !! i = Some f ->
       is_eof_frame shim f = false) ->
    exists w_j,
      proxy_io_events j shim w = Returns shim w_j /\
      pending_bytes (proxy_io_pending w_j) = concat (drop j frames) ++ rest.
Proof.
  induction j as [|j IH]; intros frames shim w rest Hwf Hpend Hclear Hj Hnoeof.
  - exists w. split; [reflexivity|]. rewrite drop_0. exact Hpend.
  - destruct frames as [|f frames]; [simpl in Hj; lia|].
    inversion Hwf as [|? ? Hwf1 Hwfs]; subst.
    cbn [concat] in Hpend. rewrite <- app_assoc in Hpend.
    destruct (handle_proxy_output_frame shim w f _ Hwf1 Hpend)
      as (p1 & Hp1 & Hstep).
    rewrite dispatch_frame_step, Hclear in Hstep.
    rewrite (Hnoeof 0%nat f ltac:(lia) eq_refl) in Hstep.
    cbn [andb orb] in Hstep. rewrite <- Hclear, set_exiting_same in Hstep.
    set (w1 := world_after_frame shim (set_proxy_io_pending w p1) f) in *.
    destruct (world_after_frame_env shim (set_proxy_io_pending w p1) f)
      as (Hw1p & _).
    fold w1 in Hw1p. cbn in Hw1p.
    destruct (IH frames shim w1 rest Hwfs) as (w_j & Hrun & Hpend_j).
    { rewrite Hw1p. exact Hp1. }
    { exact Hclear. }
    { simpl in Hj. lia. }
    { intros i f' Hi Hf'. apply (Hnoeof (S i) f'); [lia | exact Hf']. }
    exists w_j. cbn [proxy_io_events]. rewrite Hstep. split; [exact Hrun|].
    exact Hpend_j.
Qed.

(** *** The fuel of [read_IO_message] is never used up *)

Lemma read_ret w want :
  fst (fst (read w want)) = -1 \/ 0 <= fst (fst (read w want)).
Proof.
  unfold read. destruct (proxy_io_pending w) as [|[data|] rest]; cbn; lia.
Qed.

Lemma read_IO_loop_total fuel :
  forall w buf bytes_read need_read stream_len,
    need_read <= HYPERSTART_MAX_RECV_BYTES ->
    (Z.to_nat (HYPERSTART_MAX_RECV_BYTES - bytes_read) < fuel)%nat ->
    read_IO_loop fuel w buf bytes_read need_read stream_len <> OutOfFuel.
Proof.
  unfold HYPERSTART_MAX_RECV_BYTES.
  induction fuel as [|fuel IH]; intros w buf bytes_read need_read stream_len
    Hneed Hfuel; [lia|].
  rewrite read_IO_loop_unfold.
  destruct (Z.ltb_spec bytes_read need_read) as [Hlt|Hge]; [|discriminate].
  cbv zeta.
  set (want := if need_read - bytes_read >? BUFSIZ then BUFSIZ
               else need_read - bytes_read).
  pose proof (read_ret w want) as Hret.
  destruct (read w want) as [[ret data] w1]. cbn [fst] in Hret.
  destruct (Z.eqb_spec ret (-1)); [discriminate|].
  destruct (Z.eqb_spec ret 0); [discriminate|].
  assert (Hstep : forall b n s,
            n <= 10240 ->
            read_IO_loop fuel w1 b (bytes_read + ret) n s <> OutOfFuel)
    by (intros; apply IH; unfold HYPERSTART_MAX_RECV_BYTES; lia).
  destruct ((stream_len =? 0) && (bytes_read + ret >=? STREAM_HEADER_SIZE));
    [|apply Hstep; lia].
  cbv zeta. unfold HYPERSTART_MAX_RECV_BYTES.
  destruct (_ =? STREAM_HEADER_SIZE); [discriminate|].
  destruct (Z.gtb_spec (get_big_endian_32
                          (list_inserts (Z.to_nat bytes_read) data buf)
                          STREAM_HEADER_LENGTH_OFFSET) 10240);
    [discriminate|].
  destruct (_ >? STREAM_HEADER_SIZE); apply Hstep; lia.
Qed.

(** [handle_proxy_output] always returns or exits. *)
Lemma handle_proxy_output_total shim w :
  handle_proxy_output shim w <> OutOfFuel.
Proof.
  unfold handle_proxy_output.
  pose proof (read_IO_loop_total read_IO_message_fuel w
                (calloc STREAM_HEADER_SIZE) 0 STREAM_HEADER_SIZE 0) as Htotal.
  fold (read_IO_message shim w) in Htotal.
  destruct (read_IO_message shim w) as [[[buf seq] stream_len] w1|code w1|].
  - destruct buf as [buf|]; [|discriminate].
    destruct ((stream_len <=? 0) || (stream_len >? HYPERSTART_MAX_RECV_BYTES));
      [discriminate|].
    unfold dispatch_frame, exit.
    repeat case_match; discriminate.
  - discriminate.
  - exfalso. apply Htotal.
    + unfold STREAM_HEADER_SIZE, HYPERSTART_MAX_RECV_BYTES. lia.
    + unfold read_IO_message_fuel, HYPERSTART_MAX_RECV_BYTES. lia.
    + reflexivity.
Qed.

(** *** On any input: no exit with a status while [exiting] is clear *)

(** Reading only ever leaves the process through [err_exit]. *)
Lemma read_IO_loop_exits fuel :
  forall w buf bytes_read need_read stream_len code w',
    read_IO_loop fuel w buf bytes_read need_read stream_len = Exits code w' ->
    code = EXIT_FAILURE.
Proof.
  induction fuel as [|fuel IH]; intros w buf bytes_read need_read stream_len
    code w' Hloop; [discriminate|].
  rewrite read_IO_loop_unfold in Hloop.
  destruct (bytes_read <? need_read); [|discriminate].
  cbv zeta in Hloop.
  destruct (read w _) as [[ret data] w1].
  destruct (ret =? -1); [injection Hloop as <- _; reflexivity|].
  destruct (ret =? 0); [injection Hloop as <- _; reflexivity|].
  destruct ((stream_len =? 0) && _); [|eapply IH; exact Hloop].
  cbv zeta in Hloop.
  destruct (_ =? STREAM_HEADER_SIZE); [discriminate|].
  destruct (_ >? HYPERSTART_MAX_RECV_BYTES); [discriminate|].
  destruct (_ >? STREAM_HEADER_SIZE); eapply IH; exact Hloop.
Qed.

(** Whatever bytes arrive, well-formed or not: while [exiting] is clear,
    [handle_proxy_output] leaves the process only through [err_exit], with
    [EXIT_FAILURE], never with a status taken from a frame; and the shim it
    returns has [exiting] set only if the message read had length field 12
    and a sequence number of the shim's streams. *)
Lemma handle_proxy_output_not_exiting shim w :
  exiting shim = false ->
  match handle_proxy_output shim w with
  | Exits code _ => code = EXIT_FAILURE
  | Returns shim' _ =>
      exiting shim' = true ->
      exists buf seq w1,
        read_IO_message shim w = Returns (Some buf, seq, STREAM_HEADER_SIZE) w1 /\
        ((seq =? io_seq_no shim) || (seq =? cast_uint64 (io_seq_no shim + 1)))
        = true
  | OutOfFuel => False
  end.
Proof.
  intros Hclear.
  pose proof (handle_proxy_output_total shim w) as Htotal.
  unfold handle_proxy_output in *.
  destruct (read_IO_message shim w) as [[[buf seq] stream_len] w1|code w1|] eqn:Hread.
  - destruct buf as [buf|]; [|congruence].
    destruct ((stream_len <=? 0) || (stream_len >? HYPERSTART_MAX_RECV_BYTES));
      [congruence|].
    unfold dispatch_frame. rewrite Hclear. cbn [negb andb].
    destruct (seq =? io_seq_no shim) eqn:Hout;
      [|destruct (seq =? cast_uint64 (io_seq_no shim + 1)) eqn:Herr];
      try congruence;
      destruct (Z.eqb_spec stream_len STREAM_HEADER_SIZE) as [->|]; try congruence;
      intros _; exists buf, seq, w1; (split; [reflexivity|]);
      rewrite ?Hout, ?Herr; reflexivity.
  - unfold read_IO_message in Hread. eapply read_IO_loop_exits. exact Hread.
  - congruence.
Qed.

(** *** Runs of the loop *)

Lemma proxy_io_events_add (a b : nat) :
  forall shim w,
    proxy_io_events (a + b) shim w
    = match proxy_io_events a shim w with
      | Returns shim' w' => proxy_io_events b shim' w'
      | o => o
      end.
Proof.
  induction a as [|a IH]; intros shim w; [reflexivity|].
  cbn [Nat.add proxy_io_events].
  destruct (handle_proxy_output shim w) as [shim' w'| |]; try reflexivity.
  apply IH.
Qed.

(** A run over well-formed frames that has not ended the process has read
    the frames one by one; it leaves the terminal and the saved settings
    alone, and of the shim it changes [exiting] at most. *)
Lemma proxy_io_events_returns (k : nat) :
  forall frames shim w rest shim' w',
    Forall well_formed_frame frames ->
    pending_bytes (proxy_io_pending w) = concat frames ++ rest ->
    (k <= length frames)%nat ->
    proxy_io_events k shim w = Returns shim' w' ->
    pending_bytes (proxy_io_pending w') = concat (drop k frames) ++ rest /\
    shim' = set_exiting shim (exiting shim') /\
    stdin_tty w' = stdin_tty w /\
    tcsetattr_fails w' = tcsetattr_fails w /\
    saved_term_settings w' = saved_term_settings w /\
    exists evs, trace w' = trace w ++ evs.
Proof.
  induction k as [|k IH]; intros frames shim w rest shim' w' Hwf Hpend Hk Hrun.
  - injection Hrun as <- <-. rewrite drop_0, set_exiting_same.
    repeat split; try assumption. exists []. rewrite app_nil_r. reflexivity.
  - destruct frames as [|f frames]; [simpl in Hk; lia|].
    inversion Hwf as [|? ? Hwf1 Hwfs]; subst.
    cbn [concat] in Hpend. rewrite <- app_assoc in Hpend.
    destruct (handle_proxy_output_frame shim w f _ Hwf1 Hpend)
      as (p1 & Hp1 & Hstep).
    cbn [proxy_io_events] in Hrun. rewrite Hstep, dispatch_frame_step in Hrun.
    destruct (exiting shim && is_one_byte_frame shim f); [discriminate Hrun|].
    set (shim1 := set_exiting shim (exiting shim || is_eof_frame shim f)) in *.
    set (w1 := world_after_frame shim (set_proxy_io_pending w p1) f) in *.
    destruct (world_after_frame_env shim (set_proxy_io_pending w p1) f)
      as (Hw1p & Hw1tty & Hw1ok & Hw1saved).
    fold w1 in Hw1p, Hw1tty, Hw1ok, Hw1saved.
    cbn in Hw1p, Hw1tty, Hw1ok, Hw1saved.
    assert (Hw1trace : exists evs, trace w1 = trace w ++ evs).
    { subst w1. unfold world_after_frame.
      destruct (seq_matches shim f); [|eexists; reflexivity].
      destruct (negb (exiting shim) && _).
      - exists []. rewrite app_nil_r. reflexivity.
      - rewrite write_all_trace. eexists. reflexivity. }
    destruct (IH frames shim1 w1 rest shim' w' Hwfs)
      as (Hpend' & Hshim' & Htty & Hok & Hsaved & evs & Htrace).
    { rewrite Hw1p. exact Hp1. }
    { simpl in Hk. lia. }
    { exact Hrun. }
    split; [exact Hpend'|].
    split; [rewrite Hshim' at 1; subst shim1; destruct shim; reflexivity|].
    split; [congruence|]. split; [congruence|]. split; [congruence|].
    destruct Hw1trace as [evs1 Hevs1]. exists (evs1 ++ evs).
    rewrite Htrace, Hevs1, app_assoc. reflexivity.
Qed.

(** The write loop on a frame with one payload byte: one [write], of that
    byte, with the result the next [write] has. *)
Lemma write_loop_one_byte results outfd frame :
  Z.of_nat (length frame) = STREAM_HEADER_SIZE + 1 ->
  snd (write_loop results outfd frame STREAM_HEADER_SIZE
         (Z.of_nat (length frame)))
  = [EvWrite outfd (frame_payload frame)
       (match results with [] => 1 | ret :: _ => ret end)].
Proof.
  unfold STREAM_HEADER_SIZE, frame_payload. intros Hlen.
  rewrite write_loop_unfold, Hlen.
  change (12 <? 12 + 1) with true. cbv iota zeta.
  change (Z.to_nat (12 + 1 - 12)) with 1%nat.
  rewrite take_ge by (rewrite length_drop; lia).
  destruct results as [|ret results]; [reflexivity|].
  destruct (Z.leb_spec ret 0) as [|Hpos]; [reflexivity|].
  rewrite write_loop_unfold.
  destruct (Z.ltb_spec (12 + ret) (12 + 1)) as [|_]; [lia|]. reflexivity.
Qed.

End ShimDispatchFacts.

(** ** shim/shim.c: the claims about stream frames *)

Section ShimClaims.

Import BigEndian Termios Shim Examples.

(** C2, as the code has it. A well-formed stream frame that is not taken as
    the exit status (a one-byte frame while [exiting] is set), read while no
    [write] fails or returns zero, is handled without leaving the process,
    and the bytes the handler writes are: the payload on standard output and
    nothing on standard error when the sequence number is the shim's
    [io_seq_no]; the payload on standard error and nothing on standard
    output when it is [io_seq_no + 1] (in 64 bit arithmetic); nothing on
    either for any other sequence number (the handler logs a warning
    instead). For a payload that is not empty this makes "written to standard
    output" equivalent to "sequence number is [io_seq_no]", and "written to
    standard error" to "sequence number is [io_seq_no + 1]". *)
Theorem stream_frame_routing shim w frame rest :
  well_formed_frame frame ->
  pending_bytes (proxy_io_pending w) = frame ++ rest ->
  is_uint64 (io_seq_no shim) ->
  Forall (fun ret => 0 < ret) (write_results w) ->
  exiting shim && is_one_byte_frame shim frame = false ->
  exists shim' w' evs,
    handle_proxy_output shim w = Returns shim' w' /\
    trace w' = trace w ++ evs /\
    (frame_seq frame = io_seq_no shim ->
       fd_output STDOUT_FILENO evs = frame_payload frame /\
       fd_output STDERR_FILENO evs = []) /\
    (frame_seq frame = cast_uint64 (io_seq_no shim + 1) ->
       fd_output STDERR_FILENO evs = frame_payload frame /\
       fd_output STDOUT_FILENO evs = []) /\
    (frame_seq frame <> io_seq_no shim ->
     frame_seq frame <> cast_uint64 (io_seq_no shim + 1) ->
       fd_output STDOUT_FILENO evs = [] /\ fd_output STDERR_FILENO evs = []) /\
    (frame_payload frame <> [] ->
       (fd_output STDOUT_FILENO evs = frame_payload frame
        <-> frame_seq frame = io_seq_no shim) /\
       (fd_output STDERR_FILENO evs = frame_payload frame
        <-> frame_seq frame = cast_uint64 (io_seq_no shim + 1))).
Proof.
  intros Hwf Hpend Hio Hres Hnot.
  destruct (handle_proxy_output_frame shim w frame rest Hwf Hpend)
    as (p' & Hp' & Hhandle).
  rewrite Hhandle, dispatch_frame_step, Hnot.
  set (w1 := set_proxy_io_pending w p').
  pose proof (cast_uint64_succ_neq _ Hio) as Hneq.
  destruct Hwf as [_ Hbound]. unfold STREAM_HEADER_SIZE in Hbound.
  (* the bytes written, by cases on the sequence number *)
  assert (Hcases : exists evs,
    trace (world_after_frame shim w1 frame) = trace w ++ evs /\
    (frame_seq frame = io_seq_no shim ->
       fd_output STDOUT_FILENO evs = frame_payload frame /\
       fd_output STDERR_FILENO evs = []) /\
    (frame_seq frame = cast_uint64 (io_seq_no shim + 1) ->
       fd_output STDERR_FILENO evs = frame_payload frame /\
       fd_output STDOUT_FILENO evs = []) /\
    (frame_seq frame <> io_seq_no shim ->
     frame_seq frame <> cast_uint64 (io_seq_no shim + 1) ->
       fd_output STDOUT_FILENO evs = [] /\ fd_output STDERR_FILENO evs = [])).
  { unfold world_after_frame, seq_matches, routed_fd.
    destruct (Z.eqb_spec (frame_seq frame) (io_seq_no shim)) as [Hout|Hnout];
      [|destruct (Z.eqb_spec (frame_seq frame) (cast_uint64 (io_seq_no shim + 1)))
          as [Herr|Hnerr]]; cbn [orb].
    - (* standard output *)
      destruct (negb (exiting shim) && _) eqn:Heof.
      + exists []. rewrite app_nil_r. split; [reflexivity|].
        apply andb_true_iff in Heof as [_ Heof%Z.eqb_eq].
        assert (Hempty : frame_payload frame = []).
        { unfold frame_payload. apply drop_ge. unfold STREAM_HEADER_SIZE in *. lia. }
        rewrite Hempty. repeat split; intros; congruence.
      + exists (snd (write_loop (write_results w1) STDOUT_FILENO frame
                       STREAM_HEADER_SIZE (Z.of_nat (length frame)))).
        rewrite write_all_trace. split; [reflexivity|].
        destruct (write_loop_output (write_results w1) STDOUT_FILENO frame
                    STREAM_HEADER_SIZE Hres ltac:(unfold STREAM_HEADER_SIZE; lia))
          as [Hdata Hother].
        split; [|split].
        * intros _. split; [exact Hdata|]. apply Hother. discriminate.
        * intros Herr. congruence.
        * intros Hn. congruence.
    - (* standard error *)
      destruct (negb (exiting shim) && _) eqn:Heof.
      + exists []. rewrite app_nil_r. split; [reflexivity|].
        apply andb_true_iff in Heof as [_ Heof%Z.eqb_eq].
        assert (Hempty : frame_payload frame = []).
        { unfold frame_payload. apply drop_ge. unfold STREAM_HEADER_SIZE in *. lia. }
        rewrite Hempty. repeat split; intros; congruence.
      + exists (snd (write_loop (write_results w1) STDERR_FILENO frame
                       STREAM_HEADER_SIZE (Z.of_nat (length frame)))).
        rewrite write_all_trace. split; [reflexivity|].
        destruct (write_loop_output (write_results w1) STDERR_FILENO frame
                    STREAM_HEADER_SIZE Hres ltac:(unfold STREAM_HEADER_SIZE; lia))
          as [Hdata Hother].
        split; [|split].
        * intros Hout. congruence.
        * intros _. split; [exact Hdata|]. apply Hother. discriminate.
        * intros _ Hn. congruence.
    - (* another stream *)
      exists [EvLog LOG_WARNING]. split; [reflexivity|].
      split; [|split]; intros; try congruence. split; reflexivity. }
  destruct Hcases as (evs & Htrace & Hout & Herr & Hnone).
  eexists _, _, evs. split; [reflexivity|]. split; [exact Htrace|].
  split; [exact Hout|]. split; [exact Herr|]. split; [exact Hnone|].
  intros Hpayload. split; split.
  - intros Hwritten.
    destruct (Z.eq_dec (frame_seq frame) (io_seq_no shim)) as [|Hn1]; [assumption|].
    destruct (Z.eq_dec (frame_seq frame) (cast_uint64 (io_seq_no shim + 1)))
      as [He|Hn2].
    + destruct (Herr He) as [_ Hnil]. congruence.
    + destruct (Hnone Hn1 Hn2) as [Hnil _]. congruence.
  - intros Heq. apply Hout, Heq.
  - intros Hwritten.
    destruct (Z.eq_dec (frame_seq frame) (cast_uint64 (io_seq_no shim + 1)))
      as [|Hn2]; [assumption|].
    destruct (Z.eq_dec (frame_seq frame) (io_seq_no shim)) as [He|Hn1].
    + destruct (Hout He) as [_ Hnil]. congruence.
    + destruct (Hnone Hn1 Hn2) as [_ Hnil]. congruence.
  - intros Heq. apply Herr, Heq.
Qed.

Lemma stream_frame_routing_witness :
  exists shim' w' evs,
    handle_proxy_output (shim_5 false)
      (set_write_results (world_on_tty [Some (mk_frame 6 [104; 105; 10])]) [1])
    = Returns shim' w' /\
    trace w' = evs /\
    fd_output STDERR_FILENO evs = [104; 105; 10] /\
    fd_output STDOUT_FILENO evs = [].
Proof.
  assert (H1 : well_formed_frame (mk_frame 6 [104; 105; 10]))
    by (split; [reflexivity | vm_compute; split; discriminate]).
  assert (H2 : pending_bytes (proxy_io_pending
                 (set_write_results
                    (world_on_tty [Some (mk_frame 6 [104; 105; 10])]) [1]))
               = mk_frame 6 [104; 105; 10] ++ []) by reflexivity.
  assert (H3 : is_uint64 (io_seq_no (shim_5 false)))
    by (vm_compute; split; [discriminate | reflexivity]).
  assert (H4 : Forall (fun ret => 0 < ret)
                 (write_results
                    (set_write_results
                       (world_on_tty [Some (mk_frame 6 [104; 105; 10])]) [1])))
    by (repeat constructor).
  assert (H5 : exiting (shim_5 false)
               && is_one_byte_frame (shim_5 false) (mk_frame 6 [104; 105; 10])
               = false) by reflexivity.
  destruct (stream_frame_routing _ _ _ _ H1 H2 H3 H4 H5)
    as (shim' & w' & evs & Hhandle & Htrace & _ & Herr & _).
  exists shim', w', evs. split; [exact Hhandle|]. split; [exact Htrace|].
  apply Herr. reflexivity.
Defined.

(** C2 as stated fails on the frame that carries the exit status: with
    [exiting] set, a well-formed one-byte frame whose sequence number is the
    shim's [io_seq_no] is not written to standard output; the process exits
    with the byte as its status. *)
Lemma stream_frame_routing_counterexample :
  well_formed_frame status_frame /\
  frame_seq status_frame = io_seq_no (shim_5 true) /\
  frame_payload status_frame = [7] /\
  exists w',
    handle_proxy_output (shim_5 true) (world_on_tty [Some status_frame])
    = Exits 7 w' /\
    fd_output STDOUT_FILENO (trace w') = [] /\
    fd_output STDERR_FILENO (trace w') = [].
Proof.
  split; [split; [reflexivity | vm_compute; split; discriminate]|].
  split; [reflexivity|]. split; [reflexivity|].
  eexists. split; [vm_compute; reflexivity|]. split; reflexivity.
Qed.

(** C3. Wherever the session stands: [main] has set up the terminal, and
    the loop has handled any number of frames before (output of the
    container among them) without leaving the process. An end-of-stream frame
    (length field 12) followed by a one-byte frame (length field 13), both
    for one of the shim's streams, then make the shim exit with the payload
    byte of the second frame as its status, nothing more being written; and
    when [tcsetattr] works, standard input has the settings it had at
    start-up again: on a terminal the last thing the process does is the
    [tcsetattr] with the settings saved at start-up. *)
Theorem eof_then_status_exits shim w0 frames shim1 w1 f_eof f_status rest b :
  Forall well_formed_frame frames ->
  well_formed_frame f_eof -> well_formed_frame f_status ->
  is_eof_frame shim f_eof = true -> is_one_byte_frame shim f_status = true ->
  f_status !! 12%nat = Some b -> is_uint8 b ->
  pending_bytes (proxy_io_pending w0)
  = concat frames ++ f_eof ++ f_status ++ rest ->
  tcsetattr_fails w0 = false ->
  proxy_io_events (length frames) shim (setup_terminal w0) = Returns shim1 w1 ->
  exists code w',
    proxy_io_events (length frames + 2) shim (setup_terminal w0)
    = Exits code w' /\
    exit_status code = b /\
    stdin_tty w' = stdin_tty w0 /\
    match stdin_tty w0 with
    | Some t0 => trace w' = trace w1 ++ [EvTcsetattr STDIN_FILENO t0 0]
    | None => trace w' = trace w1
    end.
Proof.
  intros Hwfs Hwf1 Hwf2 Heof Hone Hb Hbyte Hpend Hok Hbefore.
  set (w := setup_terminal w0) in *.
  assert (Hw : proxy_io_pending w = proxy_io_pending w0 /\
               tcsetattr_fails w = false /\
               match stdin_tty w0 with
               | Some t0 => stdin_tty w = Some (cfmakeraw t0) /\
                            saved_term_settings w = Some t0
               | None => stdin_tty w = None
               end).
  { subst w. unfold setup_terminal, tcsetattr.
    destruct (stdin_tty w0) as [t0|] eqn:Htty; cbn; rewrite ?Htty, ?Hok; cbn;
      repeat split; assumption. }
  destruct Hw as (Hwp & Hwok & Hwtty).
  (* the frames before *)
  destruct (proxy_io_events_returns (length frames) frames shim w
              (f_eof ++ f_status ++ rest) shim1 w1 Hwfs)
    as (Hpend1 & Hshim1 & Htty1 & Hok1 & Hsaved1 & _);
    [rewrite Hwp; exact Hpend | lia | exact Hbefore |].
  rewrite drop_all in Hpend1. cbn [concat app] in Hpend1.
  rewrite proxy_io_events_add, Hbefore.
  assert (Heof1 : is_eof_frame shim1 f_eof = true)
    by (rewrite Hshim1; exact Heof).
  assert (Hone1 : is_one_byte_frame shim1 f_status = true)
    by (rewrite Hshim1; exact Hone).
  clear Hshim1 Heof Hone Hbefore.
  (* the end-of-stream frame *)
  destruct (handle_proxy_output_frame shim1 w1 f_eof (f_status ++ rest) Hwf1
              Hpend1) as (p1 & Hp1 & Hstep1).
  rewrite dispatch_frame_step in Hstep1.
  assert (Hnot : is_one_byte_frame shim1 f_eof = false).
  { unfold is_eof_frame, is_one_byte_frame, STREAM_HEADER_SIZE in *.
    apply andb_true_iff in Heof1 as [_ Hlen%Z.eqb_eq].
    rewrite Hlen. apply andb_false_r. }
  rewrite Hnot, andb_false_r, Heof1, orb_true_r in Hstep1.
  set (w2 := world_after_frame shim1 (set_proxy_io_pending w1 p1) f_eof) in *.
  destruct (world_after_frame_env shim1 (set_proxy_io_pending w1 p1) f_eof)
    as (Hw2p & Hw2tty & Hw2ok & Hw2saved).
  fold w2 in Hw2p, Hw2tty, Hw2ok, Hw2saved.
  cbn in Hw2p, Hw2tty, Hw2ok, Hw2saved.
  assert (Hw2trace : trace w2 = trace w1).
  { subst w2. unfold world_after_frame.
    apply andb_true_iff in Heof1 as [-> Hlen%Z.eqb_eq].
    destruct (negb (exiting shim1) && _); [reflexivity|].
    rewrite write_all_nothing by lia. reflexivity. }
  (* the frame with the status *)
  destruct (handle_proxy_output_frame (set_exiting shim1 true) w2 f_status rest
              Hwf2) as (p2 & Hp2 & Hstep2); [rewrite Hw2p; exact Hp1|].
  rewrite dispatch_frame_step, is_one_byte_frame_set_exiting, Hone1 in Hstep2.
  cbn [exiting set_exiting andb] in Hstep2.
  cbn [proxy_io_events]. rewrite Hstep1, Hstep2. unfold exit.
  assert (Hpeek : peek f_status (Z.to_nat STREAM_HEADER_SIZE) = b)
    by (unfold peek; change (Z.to_nat STREAM_HEADER_SIZE) with 12%nat;
        rewrite Hb; reflexivity).
  rewrite Hpeek.
  set (w3 := set_proxy_io_pending w2 p2).
  eexists _, _. split; [reflexivity|].
  split; [apply exit_status_cast_char, Hbyte|].
  destruct (stdin_tty w0) as [t0|] eqn:Htty0.
  - destruct Hwtty as [Hraw Hsaved].
    rewrite (restore_terminal_saved w3 (cfmakeraw t0) t0)
      by (subst w3; cbn; congruence).
    rewrite restore_terminal_not_saved by reflexivity.
    split; [reflexivity|].
    subst w3. cbn. rewrite Hw2trace. reflexivity.
  - rewrite (restore_terminal_not_tty w3) by (subst w3; cbn; congruence).
    rewrite (restore_terminal_not_tty w3) by (subst w3; cbn; congruence).
    split; [subst w3; cbn; congruence|].
    subst w3. cbn. exact Hw2trace.
Qed.

(** Scenario 6 of the specification at the end of a session that has
    carried output: a byte for standard output and one for standard error
    have been handled, then the end-of-stream frame and the frame with
    status byte 7 arrive, in three segments. *)
Lemma eof_then_status_exits_witness :
  exists code w',
    proxy_io_events 4 (shim_5 false)
      (setup_terminal
         (world_on_tty [Some (mk_frame 5 [104] ++ mk_frame 6 [33]
                              ++ take 5 eof_frame);
                        Some (drop 5 eof_frame ++ take 12 status_frame);
                        Some (drop 12 status_frame)]))
    = Exits code w' /\
    exit_status code = 7 /\
    stdin_tty w' = Some cooked /\
    fd_output STDOUT_FILENO (trace w') = [104] /\
    fd_output STDERR_FILENO (trace w') = [33] /\
    last (trace w') = Some (EvTcsetattr STDIN_FILENO cooked 0).
Proof.
  set (w0 := world_on_tty [Some (mk_frame 5 [104] ++ mk_frame 6 [33]
                                 ++ take 5 eof_frame);
                           Some (drop 5 eof_frame ++ take 12 status_frame);
                           Some (drop 12 status_frame)]).
  assert (H0 : Forall well_formed_frame [mk_frame 5 [104]; mk_frame 6 [33]]).
  { repeat constructor; vm_compute; try reflexivity; discriminate. }
  assert (H1 : well_formed_frame eof_frame)
    by (split; [reflexivity | vm_compute; split; discriminate]).
  assert (H2 : well_formed_frame status_frame)
    by (split; [reflexivity | vm_compute; split; discriminate]).
  assert (H3 : is_eof_frame (shim_5 false) eof_frame = true) by reflexivity.
  assert (H4 : is_one_byte_frame (shim_5 false) status_frame = true)
    by reflexivity.
  assert (H5 : status_frame !! 12%nat = Some 7) by reflexivity.
  assert (H6 : is_uint8 7) by (vm_compute; split; [discriminate | reflexivity]).
  assert (H7 : pending_bytes (proxy_io_pending w0)
               = concat [mk_frame 5 [104]; mk_frame 6 [33]]
                 ++ eof_frame ++ status_frame ++ []) by reflexivity.
  assert (H8 : tcsetattr_fails w0 = false) by reflexivity.
  assert (H9 : exists w1,
            proxy_io_events (length [mk_frame 5 [104]; mk_frame 6 [33]])
              (shim_5 false) (setup_terminal w0) = Returns (shim_5 false) w1 /\
            fd_output STDOUT_FILENO (trace w1) = [104] /\
            fd_output STDERR_FILENO (trace w1) = [33])
    by (eexists; split; [vm_compute; reflexivity|]; split; reflexivity).
  destruct H9 as (w1 & H9 & Hout & Herr).
  destruct (eof_then_status_exits _ _ _ _ _ _ _ _ _ H0 H1 H2 H3 H4 H5 H6 H7 H8
              H9)
    as (code & w' & Hexit & Hstatus & Htty & Htrace).
  exists code, w'. split; [exact Hexit|]. split; [exact Hstatus|].
  split; [exact Htty|].
  change (stdin_tty w0) with (Some cooked) in Htrace. rewrite Htrace.
  rewrite !fd_output_app, Hout, Herr, last_snoc. repeat split.
Defined.

(** C8. Over any sequence of well-formed frames, read from a shim that
    starts with [exiting] clear: if the loop ends the process, it does so on a
    one-byte frame (length field 13) of the shim's streams, with that byte as
    the exit code, and an end-of-stream frame (length field 12) of the shim's
    streams was read before it; and a one-byte frame of the shim's streams
    that comes before any such end-of-stream frame is handled as data, the
    shim staying as it was: its byte is handed to one [write] on standard
    output or standard error, the descriptor its sequence number routes to,
    and nothing else is done; when that [write] takes the byte (its result
    is positive), the byte is what the descriptor receives, and no other
    descriptor receives anything. *)
Theorem exit_status_only_after_eof shim w frames rest :
  exiting shim = false ->
  Forall well_formed_frame frames ->
  pending_bytes (proxy_io_pending w) = concat frames ++ rest ->
  (forall (k : nat) code w',
     (k <= length frames)%nat ->
     proxy_io_events k shim w = Exits code w' ->
     exists (i j : nat) f_eof f_status,
       (i < j < k)%nat /\
       frames !! i = Some f_eof /\ is_eof_frame shim f_eof = true /\
       frames !! j = Some f_status /\ is_one_byte_frame shim f_status = true /\
       code = cast_char (peek f_status (Z.to_nat STREAM_HEADER_SIZE))) /\
  (forall (j : nat) f,
     frames !! j = Some f -> is_one_byte_frame shim f = true ->
     (forall (i : nat) f', (i < j)%nat -> frames !! i = Some f' ->
        is_eof_frame shim f' = false) ->
     exists w_j w' ret evs,
       proxy_io_events j shim w = Returns shim w_j /\
       handle_proxy_output shim w_j = Returns shim w' /\
       trace w' = trace w_j ++ evs /\
       evs = [EvWrite (routed_fd shim f) (frame_payload f) ret] /\
       ret = match write_results w_j with [] => 1 | ret :: _ => ret end /\
       length (frame_payload f) = 1%nat /\
       (routed_fd shim f = STDOUT_FILENO \/ routed_fd shim f = STDERR_FILENO) /\
       (0 < ret ->
        fd_output (routed_fd shim f) evs = frame_payload f /\
        forall fd, fd <> routed_fd shim f -> fd_output fd evs = [])).
Proof.
  intros Hclear Hwf Hpend. split.
  - intros k code w' Hk Hrun.
    destruct (proxy_io_events_exits frames shim w rest k code w' Hwf Hpend Hk Hrun)
      as (j & fs & Hj & Hfs & Hone & Hcode & Heof).
    destruct (Heof Hclear) as (i & fe & Hi & Hfe & Heofi).
    exists i, j, fe, fs. repeat split; try assumption; lia.
  - intros j f Hf Hone Hnoeof.
    assert (Hj : (j < length frames)%nat) by (eapply lookup_lt_Some; exact Hf).
    destruct (proxy_io_events_before_eof j frames shim w rest Hwf Hpend Hclear
                ltac:(lia) Hnoeof) as (w_j & Hrun & Hpend_j).
    rewrite (drop_S _ _ _ Hf) in Hpend_j.
    cbn [concat] in Hpend_j. rewrite <- app_assoc in Hpend_j.
    assert (Hwf_f : well_formed_frame f).
    { rewrite Forall_forall in Hwf. apply Hwf.
      apply list_elem_of_lookup. exists j. exact Hf. }
    destruct (handle_proxy_output_frame shim w_j f _ Hwf_f Hpend_j)
      as (p1 & Hp1 & Hstep).
    rewrite dispatch_frame_step, Hclear in Hstep. cbn [andb orb] in Hstep.
    pose proof Hone as Hone'.
    unfold is_one_byte_frame in Hone'.
    apply andb_true_iff in Hone' as [Hseq Hlen%Z.eqb_eq].
    assert (Hnoteof : is_eof_frame shim f = false).
    { unfold is_eof_frame. rewrite Hseq. cbn [andb].
      apply Z.eqb_neq. unfold STREAM_HEADER_SIZE in *. lia. }
    rewrite Hnoteof in Hstep. rewrite <- Hclear, set_exiting_same in Hstep.
    unfold world_after_frame in Hstep. rewrite Hseq, Hclear in Hstep.
    replace (Z.of_nat (length f) =? STREAM_HEADER_SIZE) with false in Hstep
      by (symmetry; apply Z.eqb_neq; unfold STREAM_HEADER_SIZE in *; lia).
    cbn [negb andb] in Hstep.
    assert (Hpayload : length (frame_payload f) = 1%nat).
    { unfold frame_payload, STREAM_HEADER_SIZE in *. rewrite length_drop. lia. }
    exists w_j, (write_all (set_proxy_io_pending w_j p1) (routed_fd shim f) f
                   STREAM_HEADER_SIZE (Z.of_nat (length f))),
      (match write_results w_j with [] => 1 | ret :: _ => ret end),
      [EvWrite (routed_fd shim f) (frame_payload f)
         (match write_results w_j with [] => 1 | ret :: _ => ret end)].
    split; [exact Hrun|]. split; [exact Hstep|].
    split; [rewrite write_all_trace, (write_loop_one_byte _ _ _ Hlen);
            reflexivity|].
    split; [reflexivity|].
    split; [reflexivity|].
    split; [exact Hpayload|].
    split; [unfold routed_fd; destruct (_ =? _); [left|right]; reflexivity|].
    intros Hret. split.
    + rewrite fd_output_cons_write, Z.eqb_refl.
      change (fd_output (routed_fd shim f) []) with (@nil Z).
      rewrite app_nil_r. apply take_ge. lia.
    + intros fd Hfd. rewrite fd_output_cons_write.
      destruct (Z.eqb_spec (routed_fd shim f) fd); [congruence|reflexivity].
Qed.

(** The session of the examples: the process ends at the fourth frame, with
    the end of stream at the third; and the first frame, which has one byte
    and comes before the end of stream, puts its byte on standard output. *)
Lemma exit_status_only_after_eof_witness :
  (exists (i j : nat) f_eof f_status,
     (i < j < 4)%nat /\
     session_frames !! i = Some f_eof /\
     is_eof_frame (shim_5 false) f_eof = true /\
     session_frames !! j = Some f_status /\
     is_one_byte_frame (shim_5 false) f_status = true /\
     7 = cast_char (peek f_status (Z.to_nat STREAM_HEADER_SIZE))) /\
  (exists w',
     handle_proxy_output (shim_5 false)
       (world_on_tty [Some (concat session_frames)])
     = Returns (shim_5 false) w' /\
     fd_output STDOUT_FILENO (trace w') = [104] /\
     fd_output STDERR_FILENO (trace w') = []).
Proof.
  assert (H1 : exiting (shim_5 false) = false) by reflexivity.
  assert (H2 : Forall well_formed_frame session_frames).
  { repeat constructor; vm_compute; try reflexivity; discriminate. }
  assert (H3 : pending_bytes
                 (proxy_io_pending (world_on_tty [Some (concat session_frames)]))
               = concat session_frames ++ []) by reflexivity.
  destruct (exit_status_only_after_eof _ _ _ _ H1 H2 H3) as [Hexit Hdata].
  split.
  - assert (Hrun : exists w',
              proxy_io_events 4 (shim_5 false)
                (world_on_tty [Some (concat session_frames)]) = Exits 7 w')
      by (eexists; vm_compute; reflexivity).
    destruct Hrun as [w' Hrun].
    exact (Hexit 4%nat 7 w' (le_n 4) Hrun).
  - destruct (Hdata 0%nat (mk_frame 5 [104]) eq_refl eq_refl)
      as (w_j & w' & ret & evs & Hrun & Hstep & Htrace & _ & Hret & _ & _
          & Hout).
    { intros i f' Hi. lia. }
    injection Hrun as <-.
    exists w'. split; [exact Hstep|]. rewrite Htrace.
    change (trace (world_on_tty [Some (concat session_frames)]) ++ evs)
      with evs.
    destruct Hout as [Hout Hother]; [rewrite Hret; reflexivity|].
    split; [exact Hout|]. apply Hother. discriminate.
Defined.

(** In that session the two one-byte frames before the end of stream are
    written out as data. *)
Example session_frames_output :
  exists w',
    proxy_io_events 3 (shim_5 false)
      (world_on_tty [Some (concat session_frames)])
    = Returns (shim_5 true) w' /\
    fd_output STDOUT_FILENO (trace w') = [104] /\
    fd_output STDERR_FILENO (trace w') = [33].
Proof. eexists. split; [vm_compute; reflexivity|]. split; reflexivity. Qed.

End ShimClaims.

(** ** src/state.c: the required members of the state document *)

Section StateFacts.

Import Json State Examples.

(** The tree [cc_oci_json_parse_aux] builds for an object and for an array
    of strings. *)
Example cc_oci_json_parse_aux_example :
  cc_oci_json_parse_aux
    (JSON_NODE_OBJECT
       [("pid", JSON_NODE_VALUE (JInt 42));
        ("args", JSON_NODE_ARRAY [JSON_NODE_VALUE (JString "sh");
                                  JSON_NODE_VALUE (JBoolean true)]);
        ("console", JSON_NODE_NULL)]) false
  = [G_NODE None [];
     G_NODE (Some "pid") [G_NODE (Some "42") []];
     G_NODE (Some "args") [G_NODE (Some "sh") [G_NODE None []];
                           G_NODE (Some "true") [G_NODE None []]];
     G_NODE (Some "console") []].
Proof. vm_compute. reflexivity. Qed.

(** A complete document is read. *)
Example read_state_complete :
  exists st,
    read_state vm_members [ctlSocket; ioSocket; consoleSocket] = Some st /\
    pid st = 4242 /\ status st = OCI_STATUS_RUNNING /\ vm_pid (vm st) = 4300 /\
    agent_ctl_socket (proxy st)
    = Some "/var/run/cc-oci-runtime/c1/ga-ctl.sock"%string.
Proof. eexists. split; [vm_compute; reflexivity|]. repeat split. Qed.

(** C4, evaluated on a state document that has every required member except
    the proxy's [ctlSocket]: [cc_oci_state_file_read] returns a state object
    (whose [agent_ctl_socket] is [NULL]) instead of failing. The same holds
    without [ioSocket] and without [consoleSocket]: the [proxy] handler
    counts three members and needs two. *)
Theorem state_read_accepts_missing_proxy_member :
  (exists st,
     read_state vm_members [ioSocket; consoleSocket] = Some st /\
     agent_ctl_socket (proxy st) = None) /\
  (exists st,
     read_state vm_members [ctlSocket; consoleSocket] = Some st /\
     agent_tty_socket (proxy st) = None) /\
  (exists st,
     read_state vm_members [ctlSocket; ioSocket] = Some st /\
     vm_console_socket (proxy st) = None).
Proof.
  repeat split; eexists; (split; [vm_compute; reflexivity | reflexivity]).
Qed.

(** Two proxy members missing, or the whole object, and the read fails; so
    it does without any one member of [vm]. *)
Example read_state_rejects :
  read_state vm_members [consoleSocket] = None /\
  read_state vm_members [] = None /\
  Forall (fun i => read_state (delete i vm_members)
                     [ctlSocket; ioSocket; consoleSocket] = None)
    (seq 0 6).
Proof.
  split; [vm_compute; reflexivity|]. split; [vm_compute; reflexivity|].
  repeat constructor; vm_compute; reflexivity.
Qed.

End StateFacts.

(** ** Listing: which pid decides the status shown *)

Section ListFacts.

Import Host Oci.

Lemma string_app_cons (c : ascii) (a b : string) :
  (String c a ++ b)%string = String c (a ++ b).
Proof. reflexivity. Qed.

Lemma string_app_nil (b : string) : ("" ++ b)%string = b.
Proof. reflexivity. Qed.

Lemma string_length_app (a b : string) :
  String.length (a ++ b) = (String.length a + String.length b)%nat.
Proof.
  induction a as [|c a IH]; [reflexivity|].
  rewrite string_app_cons. simpl. now rewrite IH.
Qed.

Lemma string_app_assoc (a b c : string) :
  ((a ++ b) ++ c = a ++ (b ++ c))%string.
Proof.
  induction a as [|x a IH]; [reflexivity|].
  rewrite !string_app_cons. now rewrite IH.
Qed.

Lemma substring_skip (a b : string) (n m : nat) :
  String.substring (String.length a + n) m (a ++ b) = String.substring n m b.
Proof.
  induction a as [|c a IH]; [reflexivity|].
  rewrite string_app_cons. simpl. exact IH.
Qed.

Lemma substring_all (a : string) (b : string) :
  String.substring 0 (String.length a) (a ++ b) = a.
Proof.
  induction a as [|c a IH].
  - rewrite string_app_nil. now destruct b.
  - rewrite string_app_cons. simpl. now rewrite IH.
Qed.

Lemma length_spaces (n : nat) : String.length (spaces n) = n.
Proof.
  induction n as [|n IH]; [reflexivity|].
  change (spaces (S n)) with (String " " (spaces n)).
  simpl. now rewrite IH.
Qed.

Lemma length_pad (width : nat) (s : string) :
  (String.length s <= width)%nat -> String.length (pad width s) = width.
Proof.
  intros Hs. unfold pad.
  rewrite string_length_app, length_spaces. lia.
Qed.

Lemma rtrim_spaces (n : nat) : rtrim (spaces n) = "".
Proof.
  induction n as [|n IH]; [reflexivity|].
  change (spaces (S n)) with (String " " (spaces n)).
  simpl. now rewrite IH.
Qed.

Lemma rtrim_pad (width : nat) (s : string) : rtrim (pad width s) = rtrim s.
Proof.
  unfold pad.
  generalize (width - String.length s)%nat as n. intros n.
  induction s as [|c s IH].
  - rewrite string_app_nil. apply rtrim_spaces.
  - rewrite string_app_cons. simpl. now rewrite IH.
Qed.

(** The status strings have no space at their end and fit in 8 columns,
    the width [cc_oci_status_length] gives the column. *)
Lemma status_str_shape (status : State.oci_status) (s : string) :
  State.cc_oci_status_to_str status = Some s ->
  rtrim s = s /\ (String.length s <= 8)%nat.
Proof.
  destruct status; cbn; intros H; inversion H; subst; cbn; split;
    (reflexivity || lia).
Qed.

(** The third column of a line read back. *)
Lemma status_column (a b rest tail s : string) (options : format_options) :
  String.length a = (id_width options + 1)%nat ->
  String.length b = (pid_width options + 1)%nat ->
  rtrim s = s -> (String.length s <= status_width options)%nat ->
  reported_status options
    (TableLine (a ++ b ++ (pad (status_width options) s ++ rest) ++ tail))
  = Some s.
Proof.
  intros Ha Hb Hs Hlen. unfold reported_status. f_equal.
  replace (id_width options + 1 + pid_width options + 1)%nat
    with (String.length a + (String.length b + 0))%nat by lia.
  rewrite !substring_skip, string_app_assoc.
  rewrite <- (length_pad (status_width options) s Hlen) at 1.
  rewrite substring_all, rtrim_pad. exact Hs.
Qed.

(** What [cc_oci_list_vm] shows when the status it picks is [s]. *)
Lemma cc_oci_list_vm_reports (e : env) (st : State.oci_state)
    (options : format_options) (s : string) :
  (use_json options = false ->
   (String.length (or_null (State.id st)) <= id_width options)%nat /\
   (String.length (pretty (cast_uint32 (State.pid st))) <= pid_width options)%nat /\
   (8 <= status_width options)%nat) ->
  (if negb (cc_oci_vm_running e st)
   then State.cc_oci_status_to_str State.OCI_STATUS_STOPPED
   else State.cc_oci_status_to_str (State.status st)) = Some s ->
  reported_status options (cc_oci_list_vm e st options) = Some s.
Proof.
  intros Hwidths Hs. unfold cc_oci_list_vm. rewrite Hs.
  assert (Hshape : rtrim s = s /\ (String.length s <= 8)%nat).
  { destruct (negb (cc_oci_vm_running e st));
      eapply status_str_shape; exact Hs. }
  destruct Hshape as [Htrim Hlen].
  destruct (use_json options) eqn:Hjson; simpl negb; cbv iota.
  - reflexivity.
  - destruct (Hwidths eq_refl) as (Hid & Hpid & Hstatus).
    apply status_column.
    + rewrite string_length_app, length_pad by exact Hid. reflexivity.
    + destruct (Z.eqb_spec (State.pid st) 0) as [Hzero|Hzero].
      * rewrite Hzero in Hpid. change (pretty (cast_uint32 0)) with "0"%string in Hpid.
        simpl in Hpid.
        destruct (pid_width options) as [|n]; [lia|].
        replace (String.substring 0 (S n) "0") with "0"%string
          by (now destruct n).
        rewrite string_length_app, length_pad by (simpl; lia). reflexivity.
      * rewrite string_length_app, length_pad by exact Hpid. reflexivity.
    + exact Htrim.
    + simpl or_null. lia.
Qed.

(** C6 (amended): listing shows the status [stopped] for every state whose
    hypervisor pid ([vm.pid]) is zero or names no process that [kill] can
    reach, whatever status the state holds, and the stored status when the
    hypervisor pid names a live process; the shim's pid ([pid]) plays no
    part. In table mode the columns are as wide as [cc_oci_update_options]
    makes them. *)
Theorem list_status_follows_hypervisor (e : env) (st : State.oci_state)
    (options : format_options)
    (Hwidths :
       use_json options = false ->
       (String.length (or_null (State.id st)) <= id_width options)%nat /\
       (String.length (pretty (cast_uint32 (State.pid st)))
        <= pid_width options)%nat /\
       (8 <= status_width options)%nat) :
  (State.vm_pid (State.vm st) = 0
   \/ can_signal e (State.vm_pid (State.vm st)) = false ->
   reported_status options (cc_oci_list_vm e st options) = Some "stopped") /\
  (State.vm_pid (State.vm st) <> 0 ->
   can_signal e (State.vm_pid (State.vm st)) = true ->
   forall s : string,
     State.cc_oci_status_to_str (State.status st) = Some s ->
     reported_status options (cc_oci_list_vm e st options) = Some s).
Proof.
  split.
  - intros Hdead. apply cc_oci_list_vm_reports; [exact Hwidths|].
    unfold cc_oci_vm_running.
    destruct Hdead as [Hzero|Hdead].
    + rewrite Hzero. reflexivity.
    + rewrite Hdead. now destruct (State.vm_pid (State.vm st) =? 0).
  - intros Hpid Hlive s Hs. apply cc_oci_list_vm_reports; [exact Hwidths|].
    unfold cc_oci_vm_running.
    destruct (Z.eqb_spec (State.vm_pid (State.vm st)) 0) as [Hzero|_];
      [contradiction|].
    rewrite Hlive. exact Hs.
Qed.

(** The container [c1], its hypervisor gone, listed as a table. *)
Lemma list_status_follows_hypervisor_witness :
  (use_json (Examples.table_options true) = false ->
   (String.length (or_null (State.id Examples.state_c1)) <= 2)%nat /\
   (String.length (pretty (cast_uint32 (State.pid Examples.state_c1)))
    <= 4)%nat /\
   (8 <= 8)%nat) /\
  reported_status (Examples.table_options true)
    (cc_oci_list_vm
       {| load := load Examples.host_env;
          mkdir_denied := mkdir_denied Examples.host_env;
          can_signal := fun pid => pid =? 4242;
          proxy_connect_ok := true; proxy_attach_ok := true;
          hyper_cmd_ok := true; state_document_ok := true;
          config_file_parse_ok := true; config_check_ok := true;
          ns_setup_ok := true; handle_mounts_ok := true;
          vm_launch_ok := true; pod_container_create_ok := true |}
       Examples.state_c1 (Examples.table_options true))
  = Some "stopped".
Proof.
  assert (Hwidths :
    use_json (Examples.table_options true) = false ->
    (String.length (or_null (State.id Examples.state_c1)) <= 2)%nat /\
    (String.length (pretty (cast_uint32 (State.pid Examples.state_c1)))
     <= 4)%nat /\
    (8 <= 8)%nat).
  { intros _. vm_compute. repeat split; repeat constructor. }
  split; [exact Hwidths|].
  apply (proj1 (list_status_follows_hypervisor _ Examples.state_c1
                  (Examples.table_options true) Hwidths)).
  right. vm_compute. reflexivity.
Defined.

(** As C6 is worded it fails: the shim of [c1] (pid 4242) is gone, its
    hypervisor (pid 4300) runs, and the listing, table or JSON, shows the
    stored status. *)
Lemma list_status_counterexample :
  can_signal Examples.host_env_shim_gone (State.pid Examples.state_c1) = false /\
  State.status Examples.state_c1 = State.OCI_STATUS_RUNNING /\
  cc_oci_list_vm Examples.host_env_shim_gone Examples.state_c1
    (Examples.table_options false)
  = TableLine ("c1 4242 running  /tmp/b1 2016-11-01T10:00:00Z" ++ newline) /\
  reported_status (Examples.table_options false)
    (cc_oci_list_vm Examples.host_env_shim_gone Examples.state_c1
       (Examples.table_options false)) = Some "running" /\
  reported_status (Examples.json_options false)
    (cc_oci_list_vm Examples.host_env_shim_gone Examples.state_c1
       (Examples.json_options false)) = Some "running".
Proof. vm_compute. repeat split. Qed.

End ListFacts.

(** ** [atoi] and the names of the signals *)

Section StrtolFacts.

Import CInt.

Lemma digit_of_Some (c : ascii) :
  is_Some (Strtol.digit_of c) ->
  Strtol.digit_of c = Some (Z.of_nat (nat_of_ascii c) - 48) /\
  (48 <= nat_of_ascii c <= 57)%nat.
Proof.
  unfold Strtol.digit_of. intros [d Hd].
  destruct (Nat.leb_spec 48 (nat_of_ascii c));
    destruct (Nat.leb_spec (nat_of_ascii c) 57);
    cbn [andb] in *; try discriminate Hd.
  split; [reflexivity|lia].
Qed.

Lemma digits_app (ds : list ascii) :
  Forall (fun c => is_Some (Strtol.digit_of c)) ds ->
  forall (rest : list ascii) (acc : Z) (count : nat),
    match rest with [] => True | c :: _ => Strtol.digit_of c = None end ->
    Strtol.digits (ds ++ rest) acc count
    = (fold_left (fun a c => 10 * a + (Z.of_nat (nat_of_ascii c) - 48)) ds acc,
       (count + length ds)%nat).
Proof.
  induction 1 as [|c ds Hc Hds IH]; intros rest acc count Hrest.
  - cbn [app fold_left length]. rewrite Nat.add_0_r.
    destruct rest as [|c rest]; [reflexivity|].
    cbn [Strtol.digits]. rewrite Hrest. reflexivity.
  - cbn [app Strtol.digits fold_left length].
    destruct (digit_of_Some c Hc) as [-> _].
    rewrite (IH rest _ _ Hrest). f_equal. lia.
Qed.

Lemma fold_digits_nonneg (ds : list ascii) :
  Forall (fun c => is_Some (Strtol.digit_of c)) ds ->
  forall acc : Z,
    0 <= acc ->
    0 <= fold_left (fun a c => 10 * a + (Z.of_nat (nat_of_ascii c) - 48)) ds acc.
Proof.
  induction 1 as [|c ds Hc Hds IH]; intros acc Hacc; [exact Hacc|].
  cbn [fold_left]. apply IH.
  destruct (digit_of_Some c Hc) as [_ Hrange]. lia.
Qed.

Lemma digit_not_space (c : ascii) :
  is_Some (Strtol.digit_of c) -> Strtol.isspace c = false.
Proof.
  intros Hc. destruct (digit_of_Some c Hc) as [_ Hrange].
  unfold Strtol.isspace, Strtol.g_ascii_isspace.
  repeat match goal with
         | |- context [(?a =? ?b)%nat] =>
             destruct (Nat.eqb_spec a b); [lia|]
         end.
  reflexivity.
Qed.

Lemma skip_spaces_app (ws l : list ascii) :
  Forall (fun c => Strtol.isspace c = true) ws ->
  match l with [] => True | c :: _ => Strtol.isspace c = false end ->
  Strtol.skip_spaces Strtol.isspace (ws ++ l) = l.
Proof.
  intros Hws Hl. induction Hws as [|c ws Hc Hws IH].
  - destruct l as [|c l]; [reflexivity|]. cbn [app Strtol.skip_spaces].
    rewrite Hl. reflexivity.
  - cbn [app Strtol.skip_spaces]. rewrite Hc. exact IH.
Qed.

(** [strtol] on white space, an optional sign and decimal digits: the
    digits are converted, what follows them is not looked at. *)
Lemma strto_number (lo hi : Z) (ws sign ds rest : list ascii) :
  Forall (fun c => Strtol.isspace c = true) ws ->
  sign = [] \/ sign = ["+"%char] \/ sign = ["-"%char] ->
  ds <> [] -> Forall (fun c => is_Some (Strtol.digit_of c)) ds ->
  match rest with [] => True | c :: _ => Strtol.digit_of c = None end ->
  Strtol.strto Strtol.isspace lo hi
    (string_of_list_ascii (ws ++ sign ++ ds ++ rest))
  = (let v := fold_left
                (fun a c => 10 * a + (Z.of_nat (nat_of_ascii c) - 48)) ds 0 in
     (Z.max lo (Z.min hi (match sign with "-"%char :: _ => - v | _ => v end)),
      true)).
Proof.
  intros Hws Hsign Hne Hds Hrest.
  destruct ds as [|c ds]; [contradiction|]. clear Hne.
  pose proof (digits_app (c :: ds) Hds rest 0 0 Hrest) as Hdigits.
  assert (Hc : is_Some (Strtol.digit_of c)) by (inversion Hds; assumption).
  pose proof (digit_not_space c Hc) as Hspace.
  cbv zeta. remember (fold_left _ (c :: ds) 0) as v eqn:Hv. clear Hv Hds.
  cbn [app length Nat.add] in Hdigits.
  unfold Strtol.strto. rewrite list_ascii_of_string_of_list_ascii.
  rewrite skip_spaces_app;
    [|exact Hws|destruct Hsign as [-> | [-> | ->]]; [exact Hspace|reflexivity..]].
  destruct Hsign as [-> | [-> | ->]]; cbn [app].
  - destruct c as [[] [] [] [] [] [] [] []];
      try (exfalso; clear - Hc; vm_compute in Hc; destruct Hc as [d Hc];
           discriminate Hc);
      cbv beta iota; rewrite Hdigits; reflexivity.
  - cbv beta iota. rewrite Hdigits. reflexivity.
  - cbv beta iota. rewrite Hdigits. reflexivity.
Qed.

(** [strtol] where no digit follows the white space and the sign:
    nothing is converted. *)
Lemma strto_nothing (lo hi : Z) (ws sign rest : list ascii) :
  Forall (fun c => Strtol.isspace c = true) ws ->
  sign = [] \/ sign = ["+"%char] \/ sign = ["-"%char] ->
  match rest with
  | [] => True
  | c :: _ =>
      Strtol.digit_of c = None /\
      (sign = [] ->
       Strtol.isspace c = false /\ c <> "+"%char /\ c <> "-"%char)
  end ->
  Strtol.strto Strtol.isspace lo hi (string_of_list_ascii (ws ++ sign ++ rest))
  = (0, false).
Proof.
  intros Hws Hsign Hrest.
  assert (Hdigits : Strtol.digits rest 0 0 = (0, 0%nat)).
  { destruct rest as [|c rest]; [reflexivity|].
    cbn [Strtol.digits]. destruct Hrest as [-> _]. reflexivity. }
  unfold Strtol.strto. rewrite list_ascii_of_string_of_list_ascii.
  rewrite skip_spaces_app;
    [|exact Hws
     |destruct Hsign as [-> | [-> | ->]]; [|reflexivity..];
      destruct rest as [|c rest]; [exact I|];
      destruct Hrest as [_ Hrest]; apply Hrest; reflexivity].
  destruct Hsign as [-> | [-> | ->]]; cbn [app].
  - destruct rest as [|c rest]; [reflexivity|].
    destruct Hrest as [Hdigit Hc]. destruct (Hc eq_refl) as (_ & Hplus & Hminus).
    clear Hc.
    destruct c as [[] [] [] [] [] [] [] []];
      try (exfalso; apply Hplus; reflexivity);
      try (exfalso; apply Hminus; reflexivity);
      cbv beta iota; rewrite Hdigits; reflexivity.
  - cbv beta iota. rewrite Hdigits. reflexivity.
  - cbv beta iota. rewrite Hdigits. reflexivity.
Qed.

Lemma cast_int_id (x : Z) : - 2 ^ 31 <= x < 2 ^ 31 -> cast_int x = x.
Proof. unfold cast_int. intros Hx. rewrite Z.mod_small; lia. Qed.

(** [atoi] on a decimal number below [2 ^ 31], with white space and a
    sign before it at most: the number, whatever follows its digits. *)
Lemma atoi_number (ws sign ds rest : list ascii) :
  Forall (fun c => Strtol.isspace c = true) ws ->
  sign = [] \/ sign = ["+"%char] \/ sign = ["-"%char] ->
  ds <> [] -> Forall (fun c => is_Some (Strtol.digit_of c)) ds ->
  match rest with [] => True | c :: _ => Strtol.digit_of c = None end ->
  fold_left (fun a c => 10 * a + (Z.of_nat (nat_of_ascii c) - 48)) ds 0
  < 2 ^ 31 ->
  Strtol.atoi (string_of_list_ascii (ws ++ sign ++ ds ++ rest))
  = let v := fold_left
               (fun a c => 10 * a + (Z.of_nat (nat_of_ascii c) - 48)) ds 0 in
    match sign with "-"%char :: _ => - v | _ => v end.
Proof.
  intros Hws Hsign Hne Hds Hrest Hv. unfold Strtol.atoi.
  rewrite (strto_number _ _ ws sign ds rest Hws Hsign Hne Hds Hrest).
  cbv zeta. cbn [fst].
  pose proof (fold_digits_nonneg ds Hds 0 ltac:(lia)) as Hpos.
  set (v := fold_left _ ds 0) in *.
  destruct Hsign as [-> | [-> | ->]]; rewrite cast_int_id; lia.
Qed.

Lemma atoi_nothing (ws sign rest : list ascii) :
  Forall (fun c => Strtol.isspace c = true) ws ->
  sign = [] \/ sign = ["+"%char] \/ sign = ["-"%char] ->
  match rest with
  | [] => True
  | c :: _ =>
      Strtol.digit_of c = None /\
      (sign = [] ->
       Strtol.isspace c = false /\ c <> "+"%char /\ c <> "-"%char)
  end ->
  Strtol.atoi (string_of_list_ascii (ws ++ sign ++ rest)) = 0.
Proof.
  intros Hws Hsign Hrest. unfold Strtol.atoi.
  rewrite (strto_nothing _ _ ws sign rest Hws Hsign Hrest). reflexivity.
Qed.

End StrtolFacts.

Section SignalNameFacts.

Import Util.

Lemma substring_0_all (n : nat) :
  forall s : string, (String.length s <= n)%nat -> String.substring 0 n s = s.
Proof.
  induction n as [|n IH]; intros [|c s] Hlen; simpl in *;
    try reflexivity; try lia.
  rewrite IH by lia. reflexivity.
Qed.

Lemma substring_0_length (n : nat) :
  forall s : string,
    (n <= String.length s)%nat -> String.length (String.substring 0 n s) = n.
Proof.
  induction n as [|n IH]; intros [|c s] Hlen; simpl in *;
    try reflexivity; try lia.
  rewrite IH by lia. reflexivity.
Qed.

(** The names of [signal_table]: each starts with [SIG], is found by
    [cc_oci_get_signum] with and without that prefix, and has no number
    at its start. *)
Lemma signal_table_entry (num : Z) (name : string) :
  In (num, name) signal_table ->
  0 <= num <= 64 /\
  (String.length name < 31)%nat /\
  Strtol.atoi name = 0 /\
  cc_oci_get_signum (Some name) = num /\
  forall short : string,
    name = ("SIG" ++ short)%string ->
    Strtol.atoi short = 0 /\ cc_oci_get_signum (Some short) = num.
Proof.
  unfold signal_table. intros Hin. simpl in Hin.
  repeat (destruct Hin as [Hin|Hin];
          [injection Hin as <- <-;
           split; [lia|]; split; [simpl; lia|];
           split; [vm_compute; reflexivity|];
           split; [vm_compute; reflexivity|];
           intros short Hshort;
           rewrite !string_app_cons, string_app_nil in Hshort;
           injection Hshort as <-;
           split; vm_compute; reflexivity|]).
  contradiction.
Qed.

(** An argument that is no name of the table, with [SIG] put before it
    or not, has no signal number. *)
Lemma cc_oci_get_signum_not_name (s : string) :
  (forall (num : Z) (name : string),
     In (num, name) signal_table ->
     name <> s /\ name <> ("SIG" ++ s)%string) ->
  cc_oci_get_signum (Some s) = -1.
Proof.
  intros Hnot. unfold cc_oci_get_signum, g_strlcat_32.
  change (String.substring 0 31 "SIG") with "SIG"%string.
  set (t := ((if negb (g_str_has_prefix s "SIG") then "SIG" else "") ++ s)%string).
  assert (Ht : forall (num : Z) (name : string),
             In (num, name) signal_table -> name <> t).
  { intros num name Hin. destruct (Hnot num name Hin) as [H1 H2].
    subst t. destruct (negb (g_str_has_prefix s "SIG")); assumption. }
  clearbody t.
  destruct (find _ signal_table) as [[num name]|] eqn:Hfind; [|reflexivity].
  exfalso. apply find_some in Hfind as [Hin Heq].
  apply String.eqb_eq in Heq. cbn [snd] in Heq.
  destruct (signal_table_entry num name Hin) as (_ & Hlen & _).
  destruct (Nat.le_gt_cases (String.length t) 31) as [Hshort|Hlong].
  - rewrite substring_0_all in Heq by exact Hshort.
    apply (Ht num name Hin). congruence.
  - pose proof (substring_0_length 31 t ltac:(lia)) as Hcut.
    rewrite Heq in Hcut. lia.
Qed.

(** An argument that starts with white space, a sign or a digit is no
    name of the table. *)
Lemma signal_table_first_char (c : ascii) (s : string) :
  Strtol.isspace c = true \/ c = "+"%char \/ c = "-"%char
  \/ is_Some (Strtol.digit_of c) ->
  forall (num : Z) (name : string),
    In (num, name) signal_table ->
    name <> String c s /\ name <> ("SIG" ++ String c s)%string.
Proof.
  intros Hc num name Hin.
  assert (Hletter : forall x : ascii,
            (65 <= nat_of_ascii x <= 90)%nat -> c <> x).
  { intros x Hx ->.
    destruct Hc as [Hc|[Hc|[Hc|Hc]]].
    - unfold Strtol.isspace, Strtol.g_ascii_isspace in Hc.
      repeat match type of Hc with
             | context [(?a =? ?b)%nat] =>
                 destruct (Nat.eqb_spec a b); [lia|]
             end.
      discriminate Hc.
    - rewrite Hc in Hx. vm_compute in Hx. lia.
    - rewrite Hc in Hx. vm_compute in Hx. lia.
    - destruct (digit_of_Some x Hc) as [_ Hrange]. lia. }
  unfold signal_table in Hin. simpl in Hin.
  repeat (destruct Hin as [Hin|Hin];
          [injection Hin as <- <-;
           split; intros Heq;
           rewrite ?string_app_cons, ?string_app_nil in Heq;
           injection Heq as Heq _;
           (eapply Hletter; [|symmetry; exact Heq]); vm_compute; lia|]).
  contradiction.
Qed.

End SignalNameFacts.

(** ** [create] and the runtime directory *)

Section CreateFacts.

Import Host Oci.

Lemma is_dir_exists (w : world) (p : path) :
  g_file_test_is_dir w p = true -> g_file_test_exists w p = true.
Proof.
  unfold g_file_test_is_dir, g_file_test_exists.
  now destruct (lookup_path w p) as [[]|].
Qed.

(** Above a directory there are directories only. *)
Lemma is_dir_prefixes (w : world) (p : path) :
  fs_closed w -> g_file_test_is_dir w p = true ->
  forall n : nat, g_file_test_is_dir w (take n p) = true.
Proof.
  intros Hclosed. induction p as [|x p IH] using rev_ind; intros Hdir n.
  - now rewrite take_nil.
  - destruct (decide (n <= length p)%nat) as [Hle|Hgt].
    + rewrite take_app_le by exact Hle. apply IH.
      rewrite <- (removelast_last p x). apply Hclosed.
      apply is_dir_exists, Hdir.
    + rewrite take_ge; [exact Hdir|]. rewrite length_app. simpl. lia.
Qed.

(** [g_mkdir_with_parents] on a path that is there does nothing. *)
Lemma g_mkdir_with_parents_from_there (e : env) (w : world)
    (rest prefix : path) :
  (forall n : nat, g_file_test_is_dir w (prefix ++ take n rest) = true) ->
  g_mkdir_with_parents_from e w prefix rest = (0, w).
Proof.
  revert prefix. induction rest as [|component rest IH]; intros prefix Hdirs;
    [reflexivity|].
  simpl. pose proof (Hdirs 1%nat) as Hfirst. simpl in Hfirst.
  rewrite take_0 in Hfirst.
  rewrite (is_dir_exists _ _ Hfirst), Hfirst. simpl.
  apply IH. intros n. rewrite <- app_assoc. exact (Hdirs (S n)).
Qed.

Lemma g_mkdir_with_parents_there (e : env) (w : world) (p : path) :
  fs_closed w -> g_file_test_is_dir w p = true ->
  g_mkdir_with_parents e w p = (0, w).
Proof.
  intros Hclosed Hdir. apply g_mkdir_with_parents_from_there.
  intros n. simpl. now apply is_dir_prefixes.
Qed.

(** [cc_oci_runtime_dir_setup] succeeds on a runtime directory that is
    there, and leaves the host as it is. *)
Lemma cc_oci_runtime_dir_setup_there (e : env) (config : cc_oci_config)
    (w : world) (id : string) :
  optarg_container_id config = Some id ->
  runtime_path (state config) = "" ->
  fs_closed w ->
  g_file_test_is_dir w
    (path_of_string
       (snprintf_path (default CC_OCI_RUNTIME_DIR_PREFIX (root_dir config)) id))
  = true ->
  exists config' : cc_oci_config,
    cc_oci_runtime_dir_setup e config w = (true, config', w) /\
    dry_run_mode config' = dry_run_mode config /\ pod config' = pod config.
Proof.
  intros Hid Hpath Hclosed Hdir.
  unfold cc_oci_runtime_dir_setup, cc_oci_runtime_path_get.
  rewrite Hpath, Hid. simpl String.eqb. cbv iota. simpl negb. cbv iota.
  simpl runtime_path.
  rewrite (g_mkdir_with_parents_there e w (g_path_get_dirname _)).
  - simpl Z.eqb. cbv iota.
    rewrite (g_mkdir_with_parents_there e w _ Hclosed Hdir).
    eexists. split; [reflexivity|]. split; reflexivity.
  - exact Hclosed.
  - unfold g_path_get_dirname. apply Hclosed, is_dir_exists, Hdir.
Qed.

(** C7, the code: [create] on a container whose runtime directory
    [<root>/<container-id>] is already there as a directory does not stop
    at the directory. [cc_oci_runtime_dir_setup] succeeds
    ([g_mkdir_with_parents] returns 0 for a directory that exists), no
    [container already exists] is reported, and [create] goes on to the
    namespaces, the mounts and the launch, and succeeds when these do. *)
Theorem create_on_existing_runtime_dir (e : env) (config : cc_oci_config)
    (w : world) (id : string)
    (Hid : optarg_container_id config = Some id)
    (Hpath : runtime_path (state config) = "")
    (Hparse : config_file_parse_ok e = true)
    (Hcheck : config_check_ok e = true)
    (Hclosed : fs_closed w)
    (Hdir :
       g_file_test_is_dir w
         (path_of_string
            (snprintf_path
               (default CC_OCI_RUNTIME_DIR_PREFIX (root_dir config)) id))
       = true) :
  exists (ret : bool) (config' : cc_oci_config) (w' : world)
         (tr : list event),
    cc_oci_create e config w = (ret, config', w') /\
    fs w' = fs w /\
    trace w' = trace w ++ EvNamespaceSetup :: tr /\
    forallb (fun m => negb (String.eqb m "container already exists"))
      (criticals tr) = true /\
    (ns_setup_ok e = true -> In EvHandleMounts tr) /\
    (ns_setup_ok e = true -> handle_mounts_ok e = true ->
     dry_run_mode config = false ->
     In (if cc_pod_is_vm config then EvVmLaunch else EvPodContainerCreate) tr) /\
    (ns_setup_ok e = true -> handle_mounts_ok e = true ->
     vm_launch_ok e = true -> pod_container_create_ok e = true ->
     ret = true).
Proof.
  destruct (cc_oci_runtime_dir_setup_there e config w id Hid Hpath Hclosed Hdir)
    as (config' & Hsetup & Hdry & Hpod).
  unfold cc_oci_create. rewrite Hparse, Hcheck, Hsetup. simpl negb. cbv iota.
  unfold cc_pod_is_vm. rewrite Hdry, Hpod.
  destruct (ns_setup_ok e), (handle_mounts_ok e), (dry_run_mode config),
    (match pod config with Some p => State.sandbox p | None => true end),
    (vm_launch_ok e), (pod_container_create_ok e); simpl;
    eexists _, _, _, _; (split; [reflexivity|]);
    unfold emit; simpl; rewrite <- ?app_assoc; simpl;
    (split; [reflexivity|]); (split; [reflexivity|]);
    (split; [reflexivity|]);
    repeat split; intros; try discriminate; try reflexivity; simpl; tauto.
Qed.

(** The host of [c1] is a file system. *)
Lemma world_c1_closed (results : list bool) :
  fs_closed (Examples.world_c1 results).
Proof.
  intros p Hp. destruct p as [|c p]; [reflexivity|].
  unfold g_file_test_exists in Hp.
  destruct (lookup_path _ (c :: p)) as [t|] eqn:Hlookup; [|discriminate Hp].
  unfold lookup_path in Hlookup. simpl fs in Hlookup.
  unfold Examples.runtime_dirs in Hlookup.
  rewrite lookup_insert_Some in Hlookup.
  destruct Hlookup as [[Hkey _]|[_ Hlookup]];
    [rewrite <- Hkey; vm_compute; reflexivity|].
  rewrite lookup_insert_Some in Hlookup.
  destruct Hlookup as [[Hkey _]|[_ Hlookup]];
    [rewrite <- Hkey; vm_compute; reflexivity|].
  rewrite lookup_insert_Some in Hlookup.
  destruct Hlookup as [[Hkey _]|[_ Hlookup]];
    [rewrite <- Hkey; vm_compute; reflexivity|].
  rewrite lookup_insert_Some in Hlookup.
  destruct Hlookup as [[Hkey _]|[_ Hlookup]];
    [rewrite <- Hkey; vm_compute; reflexivity|].
  rewrite lookup_empty in Hlookup. discriminate Hlookup.
Qed.

(** [create c1] on the host where [/var/run/cc-oci-runtime/c1] is there. *)
Lemma create_on_existing_runtime_dir_witness :
  g_file_test_is_dir (Examples.world_c1 [])
    ["var"; "run"; "cc-oci-runtime"; "c1"] = true /\
  exists (ret : bool) (config' : cc_oci_config) (w' : world)
         (tr : list event),
    cc_oci_create Examples.host_env Examples.config_c1 (Examples.world_c1 [])
    = (ret, config', w') /\
    fs w' = fs (Examples.world_c1 []) /\
    trace w' = trace (Examples.world_c1 []) ++ EvNamespaceSetup :: tr /\
    forallb (fun m => negb (String.eqb m "container already exists"))
      (criticals tr) = true /\
    (ns_setup_ok Examples.host_env = true -> In EvHandleMounts tr) /\
    (ns_setup_ok Examples.host_env = true ->
     handle_mounts_ok Examples.host_env = true ->
     dry_run_mode Examples.config_c1 = false ->
     In (if cc_pod_is_vm Examples.config_c1
         then EvVmLaunch else EvPodContainerCreate) tr) /\
    (ns_setup_ok Examples.host_env = true ->
     handle_mounts_ok Examples.host_env = true ->
     vm_launch_ok Examples.host_env = true ->
     pod_container_create_ok Examples.host_env = true ->
     ret = true).
Proof.
  split; [vm_compute; reflexivity|].
  apply (create_on_existing_runtime_dir Examples.host_env Examples.config_c1
           (Examples.world_c1 []) "c1").
  - reflexivity.
  - reflexivity.
  - reflexivity.
  - reflexivity.
  - apply world_c1_closed.
  - vm_compute. reflexivity.
Defined.

(** The run of [create c1] there: it returns [true], having set up the
    namespaces, handled the mounts and launched a VM for a container that
    exists. *)
Lemma create_c1_twice :
  g_file_test_exists_or_is_dir (Examples.world_c1 [])
    (path_of_string "/var/run/cc-oci-runtime/c1") = true /\
  fst (fst (cc_oci_create Examples.host_env Examples.config_c1
              (Examples.world_c1 []))) = true /\
  trace (snd (cc_oci_create Examples.host_env Examples.config_c1
                (Examples.world_c1 [])))
  = [EvNamespaceSetup; EvHandleMounts; EvVmLaunch].
Proof. vm_compute. repeat split. Qed.

(** The message of [cc_oci_create] is met when the runtime directory can
    not be made although something of its name is there: here a file. *)
Lemma create_c1_on_file :
  let w :=
    {| fs := <[ ["var"; "run"; "cc-oci-runtime"; "c1"] := File ]>
               Examples.runtime_dirs;
       state_write_results := []; state_file_status := None; trace := [] |} in
  fst (fst (cc_oci_create Examples.host_env Examples.config_c1 w)) = false /\
  trace (snd (cc_oci_create Examples.host_env Examples.config_c1 w))
  = [EvCritical "container already exists"].
Proof. vm_compute. repeat split. Qed.

End CreateFacts.

(** ** [kill]: the status written and the signal sent *)

Section KillFacts.

Import Host Oci.

Lemma same_but_state_file_refl (config : cc_oci_config) :
  same_but_state_file config config.
Proof. now destruct config as [? ? ? [] ? ? ? ? ? ? ? ?]. Qed.

Lemma same_but_state_file_set (config : cc_oci_config) (file : string) :
  same_but_state_file config (set_state_file_path config file).
Proof. reflexivity. Qed.

Lemma same_but_state_file_trans (c1 c2 c3 : cc_oci_config) :
  same_but_state_file c1 c2 -> same_but_state_file c2 c3 ->
  same_but_state_file c1 c3.
Proof.
  unfold same_but_state_file. intros H12 H23. rewrite H23 at 1.
  rewrite H12. reflexivity.
Qed.

Lemma same_but_state_file_set_status (c1 c2 : cc_oci_config)
    (s : State.oci_status) :
  same_but_state_file c1 c2 ->
  same_but_state_file (set_status c1 s) (set_status c2 s).
Proof.
  unfold same_but_state_file. intros H12. rewrite H12 at 1. reflexivity.
Qed.

(** What two such configurations share. *)
Lemma same_but_state_file_members (c1 c2 : cc_oci_config) :
  same_but_state_file c1 c2 ->
  status (state c2) = status (state c1) /\
  pod c2 = pod c1 /\ proxy c2 = proxy c1 /\
  optarg_container_id c2 = optarg_container_id c1 /\
  forall (e : env) (created : option string),
    state_file_ready e c2 created = state_file_ready e c1 created.
Proof.
  unfold same_but_state_file. intros ->. repeat split.
Qed.

Ltac state_file_not_written same :=
  intros [= <- <- <-];
  split; [apply same|];
  split; [reflexivity|];
  split; [left; reflexivity|];
  exists []; rewrite app_nil_r;
  split; [reflexivity|]; split; [reflexivity|]; split; [reflexivity|];
  split; [reflexivity|]; split; [reflexivity|];
  intros; try discriminate; congruence.

(** [cc_oci_state_file_create]: the configuration keeps all but the path
    of the state file; a write that succeeds puts the status of the
    configuration on disk, one that fails leaves the disk as it is. *)
Lemma cc_oci_state_file_create_spec (e : env) (config : cc_oci_config)
    (created : option string) (w : world)
    (ok : bool) (config' : cc_oci_config) (w' : world) :
  cc_oci_state_file_create e config created w = (ok, config', w') ->
  same_but_state_file config config' /\
  fs w' = fs w /\
  (state_write_results w' = state_write_results w
   \/ state_write_results w' = tail (state_write_results w)) /\
  exists tr : list event,
    trace w' = trace w ++ tr /\ signals tr = [] /\ hyper_commands tr = [] /\
    if ok then
      exists s : string,
        State.cc_oci_status_to_str (status (state config)) = Some s /\
        written_statuses tr = [s] /\ state_file_status w' = Some s /\
        state_file_ready e config created = true /\
        state_write_results w' = tail (state_write_results w)
    else
      written_statuses tr = [] /\ state_file_status w' = state_file_status w /\
      (state_file_ready e config created = true ->
       State.cc_oci_status_to_str (status (state config)) <> None ->
       head (state_write_results w) = Some false).
Proof.
  unfold cc_oci_state_file_create, state_file_ready, cc_oci_state_file_get.
  destruct created as [created|], (optarg_container_id config) as [id|],
    (bundle_path config) as [bundle|], (vm config) as [vm_cfg|],
    (proxy config) as [proxy_cfg|];
    try state_file_not_written same_but_state_file_refl.
  destruct (String.eqb id ""), (String.eqb (runtime_path (state config)) ""),
    (String.eqb (comms_path (state config)) ""),
    (String.eqb (procsock_path (state config)) "");
    try state_file_not_written same_but_state_file_refl.
  simpl negb. cbv iota. unfold set_state.
  cbn [Oci.state Oci.status Oci.state_file_path].
  destruct (State.cc_oci_status_to_str (status (state config))) as [str|];
    [|state_file_not_written same_but_state_file_set].
  destruct (state_document_ok e);
    [|state_file_not_written same_but_state_file_set].
  simpl negb. cbv iota.
  destruct (state_write_results w) as [|[] results]; intros [= <- <- <-];
    simpl; (split; [apply same_but_state_file_set|]);
    (split; [reflexivity|]); (split; [now (left + right)|]);
    eexists; (split; [reflexivity|]); (split; [reflexivity|]);
    (split; [reflexivity|]);
    first [ exists str; repeat split; reflexivity
          | repeat split; intros; reflexivity ].
Qed.

Lemma cc_oci_state_file_create_ready (e : env) (config : cc_oci_config)
    (created : option string) (w : world) :
  state_file_ready e config created = true ->
  State.cc_oci_status_to_str (status (state config)) <> None ->
  head (state_write_results w) <> Some false ->
  fst (fst (cc_oci_state_file_create e config created w)) = true.
Proof.
  intros Hready Hstatus Hwrite.
  destruct (cc_oci_state_file_create e config created w) as [[ok c1] w1]
    eqn:Hcreate.
  apply cc_oci_state_file_create_spec in Hcreate
    as (_ & _ & _ & tr & _ & _ & _ & Hok).
  destruct ok; [reflexivity|].
  destruct Hok as (_ & _ & Hfalse). now apply Hfalse in Hready.
Qed.

(** A state file is only written when the write is not one that fails. *)
Lemma cc_oci_state_file_create_true (e : env) (config : cc_oci_config)
    (created : option string) (w : world) :
  fst (fst (cc_oci_state_file_create e config created w)) = true ->
  head (state_write_results w) <> Some false.
Proof.
  unfold cc_oci_state_file_create, cc_oci_state_file_get.
  destruct created as [created|], (optarg_container_id config) as [id|],
    (bundle_path config) as [bundle|], (vm config) as [vm_cfg|],
    (proxy config) as [proxy_cfg|]; try discriminate.
  destruct (String.eqb id ""), (String.eqb (runtime_path (state config)) ""),
    (String.eqb (comms_path (state config)) ""),
    (String.eqb (procsock_path (state config)) ""); try discriminate.
  simpl negb. cbv iota. unfold set_state.
  cbn [Oci.state Oci.status Oci.state_file_path].
  destruct (State.cc_oci_status_to_str (status (state config))) as [str|];
    [|discriminate].
  destruct (state_document_ok e); [|discriminate].
  simpl negb. cbv iota.
  destruct (state_write_results w) as [|[] results]; simpl;
    try discriminate; intros _ Hhead; discriminate Hhead.
Qed.

(** [kill]: the signal is sent, or nothing is. *)
Lemma kill_spec (e : env) (w : world) (pid signum : Z) :
  (kill e w pid signum = (0, emit w (EvSignal pid signum)) /\
   can_signal e pid = true /\ 0 <= signum <= 64)
  \/ (kill e w pid signum = (-1, w) /\
      (can_signal e pid = false \/ signum < 0 \/ 64 < signum)).
Proof.
  unfold kill.
  destruct (can_signal e pid), (Z.leb_spec 0 signum), (Z.leb_spec signum 64);
    simpl; first [left; split; [reflexivity|split; [reflexivity|lia]]
                 |right; split; [reflexivity|]; auto].
Qed.

(** [cc_proxy_hyper_kill_container]: whether it succeeds depends on the
    proxy and on the container the configuration names. *)
Lemma cc_proxy_hyper_kill_container_fst (e : env) (c c' : cc_oci_config)
    (signum : Z) (w w' : world) :
  proxy c' = proxy c -> pod c' = pod c ->
  optarg_container_id c' = optarg_container_id c ->
  fst (cc_proxy_hyper_kill_container e c' signum w')
  = fst (cc_proxy_hyper_kill_container e c signum w).
Proof.
  intros Hproxy Hpod Hid.
  unfold cc_proxy_hyper_kill_container, cc_pod_container_id.
  rewrite Hproxy, Hpod, Hid.
  destruct (proxy c); [|reflexivity].
  destruct (match pod c with
            | Some p =>
                if State.sandbox p then optarg_container_id c
                else State.sandbox_name p
            | None => optarg_container_id c
            end); [|reflexivity].
  now destruct (proxy_connect_ok e), (proxy_attach_ok e), (hyper_cmd_ok e).
Qed.

Lemma cc_proxy_hyper_kill_container_spec (e : env) (config : cc_oci_config)
    (signum : Z) (w : world) (ok : bool) (w' : world) :
  cc_proxy_hyper_kill_container e config signum w = (ok, w') ->
  fs w' = fs w /\ state_file_status w' = state_file_status w /\
  state_write_results w' = state_write_results w /\
  exists tr : list event,
    trace w' = trace w ++ tr /\ signals tr = [] /\ written_statuses tr = [] /\
    (ok = true ->
     hyper_commands tr
     = [("killcontainer", default "" (optarg_container_id config), signum)]).
Proof.
  unfold cc_proxy_hyper_kill_container.
  destruct (proxy config), (cc_pod_container_id config),
    (proxy_connect_ok e), (proxy_attach_ok e), (hyper_cmd_ok e); simpl;
    intros [= <- <-]; simpl; repeat (split; [reflexivity|]);
    first [ exists []; rewrite app_nil_r; repeat split; discriminate
          | rewrite <- ?app_assoc; eexists; split; [reflexivity|];
            repeat split; discriminate ].
Qed.

Lemma written_statuses_app (a b : list event) :
  written_statuses (a ++ b) = written_statuses a ++ written_statuses b.
Proof. apply omap_app. Qed.

Lemma signals_app (a b : list event) : signals (a ++ b) = signals a ++ signals b.
Proof. apply omap_app. Qed.

Lemma hyper_commands_app (a b : list event) :
  hyper_commands (a ++ b) = hyper_commands a ++ hyper_commands b.
Proof. apply omap_app. Qed.

(** All the ways of [cc_oci_kill]. For a sandbox only the status is
    written. Otherwise [stopping] is written first; when that fails nothing
    else is done (B); when [kill] fails the status before is written back
    (C); when the [hyper] command fails the function returns as it is (E);
    then [stopped] is written (A), and where that fails the status stays
    [stopping] (D). *)
Lemma cc_oci_kill_outcomes (e : env) (config : cc_oci_config)
    (st : State.oci_state) (signum : Z) (w : world) :
  exists (ret : bool) (config' : cc_oci_config) (w' : world)
         (tr : list event),
    cc_oci_kill e config st signum w = (ret, config', w') /\
    trace w' = trace w ++ tr /\
    fs w' = fs w /\
    pod config' = pod config /\
    if cc_pod_is_sandbox config then
      signals tr = [] /\ hyper_commands tr = [] /\
      ((ret = true /\ written_statuses tr = ["stopped"] /\
        status (state config') = State.OCI_STATUS_STOPPED /\
        state_file_status w' = Some "stopped")
       \/ (ret = false /\ written_statuses tr = [] /\
           status (state config') = status (state config) /\
           state_file_status w' = state_file_status w))
    else
      (ret = true /\
       written_statuses tr = ["stopping"; "stopped"] /\
       signals tr = [(State.pid st, signum)] /\
       hyper_commands tr
       = (if (signum =? SIGKILL) || (signum =? SIGSTOP)
          then [("killcontainer", default "" (optarg_container_id config),
                 signum)]
          else []) /\
       status (state config') = State.OCI_STATUS_STOPPED /\
       state_file_status w' = Some "stopped" /\
       state_file_ready e config (State.create_time st) = true /\
       head (state_write_results w) <> Some false /\
       can_signal e (State.pid st) = true /\ 0 <= signum <= 64 /\
       head (tail (state_write_results w)) <> Some false)
      \/ (ret = false /\
          written_statuses tr = [] /\ signals tr = [] /\
          hyper_commands tr = [] /\
          status (state config') = status (state config) /\
          state_file_status w' = state_file_status w /\
          (state_file_ready e config (State.create_time st) = true ->
           head (state_write_results w) = Some false))
      \/ (ret = false /\
          signals tr = [] /\ hyper_commands tr = [] /\
          status (state config') = status (state config) /\
          (can_signal e (State.pid st) = false \/ signum < 0 \/ 64 < signum) /\
          ((exists s : string,
              State.cc_oci_status_to_str (status (state config)) = Some s /\
              written_statuses tr = ["stopping"; s] /\
              state_file_status w' = Some s /\
              head (tail (state_write_results w)) <> Some false)
           \/ (written_statuses tr = ["stopping"] /\
               state_file_status w' = Some "stopping" /\
               (State.cc_oci_status_to_str (status (state config)) = None
                \/ head (tail (state_write_results w)) = Some false))) /\
          state_file_ready e config (State.create_time st) = true /\
          head (state_write_results w) <> Some false)
      \/ (ret = false /\
          written_statuses tr = ["stopping"] /\
          signals tr = [(State.pid st, signum)] /\
          hyper_commands tr
          = (if (signum =? SIGKILL) || (signum =? SIGSTOP)
             then [("killcontainer", default "" (optarg_container_id config),
                    signum)]
             else []) /\
          status (state config') = State.OCI_STATUS_STOPPING /\
          state_file_status w' = Some "stopping" /\
          head (tail (state_write_results w)) = Some false /\
          state_file_ready e config (State.create_time st) = true /\
          head (state_write_results w) <> Some false /\
          can_signal e (State.pid st) = true /\ 0 <= signum <= 64)
      \/ (ret = false /\
          (signum = SIGKILL \/ signum = SIGSTOP) /\
          fst (cc_proxy_hyper_kill_container e config signum w) = false /\
          written_statuses tr = ["stopping"] /\
          signals tr = [(State.pid st, signum)] /\
          status (state config') = State.OCI_STATUS_STOPPING /\
          state_file_status w' = Some "stopping" /\
          state_file_ready e config (State.create_time st) = true /\
          head (state_write_results w) <> Some false /\
          can_signal e (State.pid st) = true /\ 0 <= signum <= 64).
Proof.
  unfold cc_oci_kill.
  destruct (cc_pod_is_sandbox config) eqn:Hsandbox.
  - destruct (cc_oci_state_file_create e
                (set_status config State.OCI_STATUS_STOPPED)
                (State.create_time st) w) as [[ok c1] w1] eqn:Hcreate.
    apply cc_oci_state_file_create_spec in Hcreate
      as (Hsame & Hfs & _ & tr & Htr & Hsig & Hhyper & Hok).
    apply same_but_state_file_members in Hsame as (Hstatus & Hpod & _).
    simpl in Hpod.
    destruct ok.
    + destruct Hok as (s & [= <-] & Hwritten & Hdisk & _).
      exists true, c1, w1, tr. repeat split; try assumption.
      left. repeat split; assumption.
    + destruct Hok as (Hwritten & Hdisk & _).
      exists false, (set_status c1 (status (state config))),
        (emit w1 (EvCritical "failed to recreate state file")),
        (tr ++ [EvCritical "failed to recreate state file"]).
      simpl. rewrite Htr, <- app_assoc, signals_app, hyper_commands_app,
        written_statuses_app, Hsig, Hhyper, Hwritten.
      repeat split; try assumption. right. repeat split; assumption.
  - destruct (cc_oci_state_file_create e
                (set_status config State.OCI_STATUS_STOPPING)
                (State.create_time st) w) as [[ok1 c1] w1] eqn:Hcreate1.
    pose proof (cc_oci_state_file_create_true e
                  (set_status config State.OCI_STATUS_STOPPING)
                  (State.create_time st) w) as Hhead1.
    rewrite Hcreate1 in Hhead1. cbn [fst] in Hhead1.
    apply cc_oci_state_file_create_spec in Hcreate1
      as (Hsame1 & Hfs1 & _ & tr1 & Htr1 & Hsig1 & Hhyper1 & Hok1).
    apply same_but_state_file_members in Hsame1
      as (Hstatus1 & Hpod1 & Hproxy1 & Hid1 & Hready_c1).
    simpl in Hstatus1, Hpod1, Hproxy1, Hid1.
    specialize (Hready_c1 e (State.create_time st)).
    change (state_file_ready e (set_status config State.OCI_STATUS_STOPPING)
              (State.create_time st))
      with (state_file_ready e config (State.create_time st)) in Hready_c1.
    destruct ok1; simpl negb; cbv iota.
    2:{ destruct Hok1 as (Hwritten1 & Hdisk1 & Hready1).
        exists false, (set_status c1 (status (state config))),
          (emit w1 (EvCritical "failed to recreate state file")),
          (tr1 ++ [EvCritical "failed to recreate state file"]).
        simpl. rewrite Htr1, <- app_assoc, signals_app, hyper_commands_app,
          written_statuses_app, Hsig1, Hhyper1, Hwritten1.
        repeat split; try assumption. right. left.
        repeat split; try assumption.
        intros Hready. apply Hready1; [exact Hready|discriminate]. }
    destruct Hok1 as (s1 & [= <-] & Hwritten1 & Hdisk1 & Hready1 & Hresults1).
    specialize (Hhead1 eq_refl).
    change (state_file_ready e (set_status config State.OCI_STATUS_STOPPING)
              (State.create_time st))
      with (state_file_ready e config (State.create_time st)) in Hready1.
    destruct (kill_spec e w1 (State.pid st) signum)
      as [(Hkill & Hcan & Hrange)|(Hkill & Hwhy)]; rewrite Hkill.
    2:{ change (-1 <? 0) with true. cbv iota.
        destruct (cc_oci_state_file_create e
                    (set_status c1 (status (state config)))
                    (State.create_time st)
                    (emit w1 (EvCritical "failed to stop container")))
          as [[ok2 c2] w2] eqn:Hcreate2.
        pose proof (cc_oci_state_file_create_true e
                      (set_status c1 (status (state config)))
                      (State.create_time st)
                      (emit w1 (EvCritical "failed to stop container")))
          as Hhead2.
        rewrite Hcreate2 in Hhead2. cbn [fst] in Hhead2.
        change (state_write_results
                  (emit w1 (EvCritical "failed to stop container")))
          with (state_write_results w1) in Hhead2.
        rewrite Hresults1 in Hhead2.
        apply cc_oci_state_file_create_spec in Hcreate2
          as (Hsame2 & Hfs2 & _ & tr2 & Htr2 & Hsig2 & Hhyper2 & Hok2).
        apply same_but_state_file_members in Hsame2 as (Hstatus2 & Hpod2 & _).
        simpl in Hstatus2, Hpod2, Hfs2, Htr2, Hok2.
        exists false, c2,
          (if ok2 then w2
           else emit w2 (EvCritical "failed to recreate state file")),
          (tr1 ++ [EvCritical "failed to stop container"] ++ tr2
           ++ (if ok2 then []
               else [EvCritical "failed to recreate state file"])).
        split; [reflexivity|].
        split.
        { destruct ok2; simpl; rewrite Htr2, Htr1, <- ?app_assoc; simpl;
            rewrite ?app_nil_r; reflexivity. }
        split; [destruct ok2; simpl; congruence|].
        split; [congruence|].
        right. right. left.
        rewrite !signals_app, !hyper_commands_app, !written_statuses_app,
          Hsig1, Hsig2, Hhyper1, Hhyper2, Hwritten1.
        split; [reflexivity|]. split; [now destruct ok2|].
        split; [now destruct ok2|]. split; [exact Hstatus2|].
        split; [exact Hwhy|].
        split; [|split; [exact Hready1|exact Hhead1]].
        destruct ok2.
        - destruct Hok2 as (s2 & Hs2 & Hwritten2 & Hdisk2 & _).
          left. exists s2. rewrite Hwritten2.
          split; [exact Hs2|]. split; [reflexivity|]. split; [exact Hdisk2|].
          exact (Hhead2 eq_refl).
        - destruct Hok2 as (Hwritten2 & Hdisk2 & Hwhy2).
          right. rewrite Hwritten2. simpl. split; [reflexivity|].
          split; [rewrite Hdisk2; exact Hdisk1|].
          change (state_file_ready e (set_status c1 (status (state config)))
                    (State.create_time st))
            with (state_file_ready e c1 (State.create_time st)) in Hwhy2.
          change (state_write_results
                    (emit w1 (EvCritical "failed to stop container")))
            with (state_write_results w1) in Hwhy2.
          rewrite Hready_c1, Hready1, Hresults1 in Hwhy2.
          destruct (State.cc_oci_status_to_str (status (state config)))
            as [s|] eqn:Hs; [right|left; reflexivity].
          apply Hwhy2; [reflexivity|discriminate]. }
    change (0 <? 0) with false. cbv iota.
    destruct ((if (signum =? SIGKILL) || (signum =? SIGSTOP)
               then cc_proxy_hyper_kill_container e c1 signum
                      (emit w1 (EvSignal (State.pid st) signum))
               else (true, emit w1 (EvSignal (State.pid st) signum))))
      as [hyper_ok w2] eqn:Hhyper.
    assert (Hw2 :
      fs w2 = fs w1 /\ state_file_status w2 = state_file_status w1 /\
      state_write_results w2 = state_write_results w1 /\
      exists trh : list event,
        trace w2 = trace w1 ++ EvSignal (State.pid st) signum :: trh /\
        signals trh = [] /\ written_statuses trh = [] /\
        (hyper_ok = true ->
         hyper_commands trh
         = (if (signum =? SIGKILL) || (signum =? SIGSTOP)
            then [("killcontainer", default "" (optarg_container_id config),
                   signum)]
            else [])) /\
        (hyper_ok = false ->
         (signum = SIGKILL \/ signum = SIGSTOP) /\
         fst (cc_proxy_hyper_kill_container e config signum w) = false)).
    { destruct ((signum =? SIGKILL) || (signum =? SIGSTOP)) eqn:Hks.
      - pose proof Hhyper as Hfst.
        apply cc_proxy_hyper_kill_container_spec in Hhyper
          as (Hfsh & Hdiskh & Hresultsh & trh & Htrh & Hsigh & Hwrittenh
              & Hcmd).
        simpl in Hfsh, Hdiskh, Hresultsh, Htrh.
        split; [exact Hfsh|]. split; [exact Hdiskh|].
        split; [exact Hresultsh|].
        exists trh. rewrite Htrh, <- app_assoc. split; [reflexivity|].
        split; [exact Hsigh|]. split; [exact Hwrittenh|].
        split.
        + intros Hok. rewrite (Hcmd Hok), Hid1. reflexivity.
        + intros ->. split.
          * apply orb_true_iff in Hks as [Hk|Hk]; apply Z.eqb_eq in Hk; auto.
          * rewrite <- (cc_proxy_hyper_kill_container_fst e config c1 signum
                          w (emit w1 (EvSignal (State.pid st) signum)))
              by assumption.
            now rewrite Hfst.
      - injection Hhyper as <- <-. simpl.
        split; [reflexivity|]. split; [reflexivity|]. split; [reflexivity|].
        exists []. repeat split; discriminate. }
    destruct Hw2 as (Hfs2 & Hdisk2 & Hresults2 & trh & Htrh & Hsigh
                     & Hwrittenh & Hcmd & Hfailed).
    destruct hyper_ok; simpl negb; cbv iota.
    2:{ destruct (Hfailed eq_refl) as (Hks & Hfst).
        exists false, c1, (emit w2 (EvCritical "failed to kill container")),
          (tr1 ++ EvSignal (State.pid st) signum :: trh
           ++ [EvCritical "failed to kill container"]).
        split; [reflexivity|].
        split.
        { simpl. rewrite Htrh, Htr1, <- !app_assoc. reflexivity. }
        split; [simpl; congruence|].
        split; [exact Hpod1|].
        right. right. right. right.
        rewrite !signals_app, !written_statuses_app. simpl.
        rewrite !signals_app, !written_statuses_app, Hsig1, Hsigh, Hwritten1,
          Hwrittenh. simpl.
        repeat split; try assumption; try lia. congruence. }
    cbn [Oci.state Oci.status set_status set_state].
    destruct (cc_oci_state_file_create e
                (set_status c1 State.OCI_STATUS_STOPPED)
                (State.create_time st) w2) as [[ok3 c3] w3] eqn:Hcreate3.
    pose proof (cc_oci_state_file_create_true e
                  (set_status c1 State.OCI_STATUS_STOPPED)
                  (State.create_time st) w2) as Hhead3.
    rewrite Hcreate3 in Hhead3. cbn [fst] in Hhead3.
    rewrite Hresults2, Hresults1 in Hhead3.
    apply cc_oci_state_file_create_spec in Hcreate3
      as (Hsame3 & Hfs3 & _ & tr3 & Htr3 & Hsig3 & Hhyper3 & Hok3).
    apply same_but_state_file_members in Hsame3 as (Hstatus3 & Hpod3 & _).
    simpl in Hstatus3, Hpod3, Hok3.
    change (state_file_ready e (set_status c1 State.OCI_STATUS_STOPPED)
              (State.create_time st))
      with (state_file_ready e c1 (State.create_time st)) in Hok3.
    rewrite Hready_c1, Hready1, Hresults2, Hresults1 in Hok3.
    destruct ok3.
    + destruct Hok3 as (s3 & [= <-] & Hwritten3 & Hdisk3 & _).
      exists true, c3, w3,
        (tr1 ++ EvSignal (State.pid st) signum :: trh ++ tr3).
      split; [reflexivity|].
      split.
      { rewrite Htr3, Htrh, Htr1, <- !app_assoc. reflexivity. }
      split; [congruence|].
      split; [congruence|].
      left.
      rewrite !signals_app, !written_statuses_app, !hyper_commands_app. simpl.
      rewrite !signals_app, !written_statuses_app, !hyper_commands_app,
        Hsig1, Hsigh, Hsig3, Hwritten1, Hwrittenh, Hwritten3, Hhyper1,
        Hhyper3, (Hcmd eq_refl). simpl. rewrite ?app_nil_r.
      specialize (Hhead3 eq_refl).
      repeat split; try assumption; lia.
    + destruct Hok3 as (Hwritten3 & Hdisk3 & Hwhy3).
      exists false, (set_status c3 (status (state c1))),
        (emit w3 (EvCritical "failed to recreate state file")),
        (tr1 ++ EvSignal (State.pid st) signum :: trh ++ tr3
         ++ [EvCritical "failed to recreate state file"]).
      split; [reflexivity|].
      split.
      { simpl. rewrite Htr3, Htrh, Htr1, <- !app_assoc. reflexivity. }
      split; [simpl; congruence|].
      split; [simpl; congruence|].
      right. right. right. left.
      rewrite !signals_app, !written_statuses_app, !hyper_commands_app. simpl.
      rewrite !signals_app, !written_statuses_app, !hyper_commands_app,
        Hsig1, Hsigh, Hsig3, Hwritten1, Hwrittenh, Hwritten3, Hhyper1,
        Hhyper3, (Hcmd eq_refl). simpl. rewrite !app_nil_r.
      repeat split; try assumption; try lia; try congruence.
      apply Hwhy3; [reflexivity|discriminate].
Qed.

(** C5 (amended): [kill] on a container that is no sandbox, where the
    [hyper] command [killcontainer] succeeds when it is sent (for
    [SIGKILL] and [SIGSTOP]); every outcome with its cause. The first
    write, of [stopping], fails (the state file cannot be written, or the
    write fails): nothing is sent, [kill] fails, the status in memory and on
    disk stays. Else [stopping] is what is written first, and the signal is
    sent to the shim's pid. Sending fails (no such process, no such signal):
    [kill] fails, nothing is sent, the status in memory is the one before
    and the state file is written again with it; when that write fails the
    disk keeps [stopping]. Sending succeeds: the signal has gone to the
    shim's pid and, for [SIGKILL] and [SIGSTOP], [killcontainer] to the
    proxy; then [stopped] is written and [kill] succeeds, or that last write
    fails, [kill] fails and the status in memory and on disk is [stopping],
    not the one before. *)
Theorem kill_status_transitions (e : env) (config : cc_oci_config)
    (st : State.oci_state) (signum : Z) (w : world)
    (Hsandbox : cc_pod_is_sandbox config = false)
    (Hhyper :
       signum = SIGKILL \/ signum = SIGSTOP ->
       fst (cc_proxy_hyper_kill_container e config signum w) = true) :
  exists (ret : bool) (config' : cc_oci_config) (w' : world)
         (tr : list event),
    cc_oci_kill e config st signum w = (ret, config', w') /\
    trace w' = trace w ++ tr /\
    (state_file_ready e config (State.create_time st) = false
     \/ head (state_write_results w) = Some false ->
     ret = false /\
     written_statuses tr = [] /\ signals tr = [] /\ hyper_commands tr = [] /\
     status (state config') = status (state config) /\
     state_file_status w' = state_file_status w) /\
    (state_file_ready e config (State.create_time st) = true ->
     head (state_write_results w) <> Some false ->
     head (written_statuses tr) = Some "stopping" /\
     (can_signal e (State.pid st) = false \/ signum < 0 \/ 64 < signum ->
      ret = false /\ signals tr = [] /\ hyper_commands tr = [] /\
      status (state config') = status (state config) /\
      (forall s : string,
         State.cc_oci_status_to_str (status (state config)) = Some s ->
         head (tail (state_write_results w)) <> Some false ->
         written_statuses tr = ["stopping"; s] /\
         state_file_status w' = Some s) /\
      (State.cc_oci_status_to_str (status (state config)) = None
       \/ head (tail (state_write_results w)) = Some false ->
       written_statuses tr = ["stopping"] /\
       state_file_status w' = Some "stopping")) /\
     (can_signal e (State.pid st) = true -> 0 <= signum <= 64 ->
      signals tr = [(State.pid st, signum)] /\
      hyper_commands tr
      = (if (signum =? SIGKILL) || (signum =? SIGSTOP)
         then [("killcontainer", default "" (optarg_container_id config),
                signum)]
         else []) /\
      (head (tail (state_write_results w)) <> Some false ->
       ret = true /\
       written_statuses tr = ["stopping"; "stopped"] /\
       status (state config') = State.OCI_STATUS_STOPPED /\
       state_file_status w' = Some "stopped") /\
      (head (tail (state_write_results w)) = Some false ->
       ret = false /\
       written_statuses tr = ["stopping"] /\
       status (state config') = State.OCI_STATUS_STOPPING /\
       state_file_status w' = Some "stopping"))).
Proof.
  destruct (cc_oci_kill_outcomes e config st signum w)
    as (ret & config' & w' & tr & Hkill & Htr & _ & _ & Hcases).
  rewrite Hsandbox in Hcases.
  exists ret, config', w', tr.
  split; [exact Hkill|]. split; [exact Htr|].
  destruct Hcases as [HA|[HB|[HC|[HD|HE]]]].
  - (* all done *)
    destruct HA as (Hret & Hwritten & Hsig & Hcmd & Hstatus & Hdisk & Hready
                    & Hhead & Hcan & Hrange & Hlast).
    split; [intros [Hno|Hno]; congruence|].
    intros _ _. split; [rewrite Hwritten; reflexivity|].
    split; [intros [Hno|[Hno|Hno]]; [congruence|lia|lia]|].
    intros _ _. split; [exact Hsig|]. split; [exact Hcmd|].
    split; [intros _; repeat split; assumption|].
    intros Hno. contradiction.
  - (* the first write *)
    destruct HB as (Hret & Hwritten & Hsig & Hcmd & Hstatus & Hdisk & Hwhy).
    split; [intros _; repeat split; assumption|].
    intros Hready Hhead. apply Hwhy in Hready. contradiction.
  - (* the signal *)
    destruct HC as (Hret & Hsig & Hcmd & Hstatus & Hwhy & Hback & Hready
                    & Hhead).
    split; [intros [Hno|Hno]; congruence|].
    intros _ _.
    split; [destruct Hback as [(s & _ & -> & _)|(-> & _)]; reflexivity|].
    split; [|intros Hcan Hrange; destruct Hwhy as [Hno|Hno]; [congruence|lia]].
    intros _. split; [exact Hret|]. split; [exact Hsig|].
    split; [exact Hcmd|]. split; [exact Hstatus|].
    destruct Hback as [(s & Hs & Hwritten & Hdisk & Hlast)
                      |(Hwritten & Hdisk & Hlast)].
    + split.
      * intros s' Hs' _. replace s' with s by congruence.
        split; assumption.
      * intros [Hno|Hno]; congruence.
    + split.
      * intros s Hs Hno. destruct Hlast; congruence.
      * intros _. split; assumption.
  - (* the last write *)
    destruct HD as (Hret & Hwritten & Hsig & Hcmd & Hstatus & Hdisk & Hlast
                    & Hready & Hhead & Hcan & Hrange).
    split; [intros [Hno|Hno]; congruence|].
    intros _ _. split; [rewrite Hwritten; reflexivity|].
    split; [intros [Hno|[Hno|Hno]]; [congruence|lia|lia]|].
    intros _ _. split; [exact Hsig|]. split; [exact Hcmd|].
    split; [intros Hno; contradiction|].
    intros _. repeat split; assumption.
  - destruct HE as (_ & Hks & Hfst & _).
    rewrite (Hhyper Hks) in Hfst. discriminate.
Qed.

(** [kill c1] with [SIGKILL] on the host where all succeeds. *)
Lemma kill_status_transitions_witness :
  exists (config' : cc_oci_config) (w' : world),
    cc_oci_kill Examples.host_env Examples.config_c1_read Examples.state_c1
      SIGKILL (Examples.world_c1 [])
    = (true, config', w') /\
    written_statuses (trace w') = ["stopping"; "stopped"] /\
    signals (trace w') = [(4242, SIGKILL)] /\
    hyper_commands (trace w') = [("killcontainer", "c1", SIGKILL)] /\
    status (state config') = State.OCI_STATUS_STOPPED /\
    state_file_status w' = Some "stopped".
Proof.
  destruct (kill_status_transitions Examples.host_env Examples.config_c1_read
              Examples.state_c1 SIGKILL (Examples.world_c1 []))
    as (ret & config' & w' & tr & Hkill & Htr & _ & Hwritten).
  - reflexivity.
  - intros _. vm_compute. reflexivity.
  - destruct Hwritten as (_ & _ & Hsent).
    + vm_compute. reflexivity.
    + discriminate.
    + destruct Hsent as (Hsig & Hcmd & Hdone & _).
      * vm_compute. reflexivity.
      * unfold SIGKILL. lia.
      * destruct Hdone as (-> & Hstatuses & Hstatus & Hdisk); [discriminate|].
        exists config', w'. split; [exact Hkill|].
        simpl in Htr. subst tr.
        repeat split; assumption.
Defined.

(** As C5 is worded it fails: [kill c1] with [SIGTERM] where the second
    write of the state file fails. The status was [running]; the signal is
    sent, [kill] fails, and the status stays [stopping] in memory and on
    disk. *)
Lemma kill_status_counterexample :
  cc_pod_is_sandbox Examples.config_c1_read = false /\
  status (state Examples.config_c1_read) = State.OCI_STATUS_RUNNING /\
  state_file_status (Examples.world_c1 [true; false]) = Some "running" /\
  let '(ret, config', w') :=
    cc_oci_kill Examples.host_env Examples.config_c1_read Examples.state_c1
      SIGTERM (Examples.world_c1 [true; false]) in
  ret = false /\
  written_statuses (trace w') = ["stopping"] /\
  signals (trace w') = [(4242, SIGTERM)] /\
  status (state config') = State.OCI_STATUS_STOPPING /\
  state_file_status w' = Some "stopping".
Proof. vm_compute. repeat split. Qed.

(** Left out of C5: where [killcontainer] fails, [cc_oci_kill] returns
    without putting the status back; here with [SIGKILL] and a proxy that
    does not run the command. *)
Lemma kill_hyper_failure :
  let e :=
    {| load := load Examples.host_env;
       mkdir_denied := mkdir_denied Examples.host_env;
       can_signal := can_signal Examples.host_env;
       proxy_connect_ok := true; proxy_attach_ok := true;
       hyper_cmd_ok := false; state_document_ok := true;
       config_file_parse_ok := true; config_check_ok := true;
       ns_setup_ok := true; handle_mounts_ok := true;
       vm_launch_ok := true; pod_container_create_ok := true |} in
  let '(ret, config', w') :=
    cc_oci_kill e Examples.config_c1_read Examples.state_c1 SIGKILL
      (Examples.world_c1 []) in
  ret = false /\
  written_statuses (trace w') = ["stopping"] /\
  signals (trace w') = [(4242, SIGKILL)] /\
  status (state config') = State.OCI_STATUS_STOPPING /\
  state_file_status w' = Some "stopping".
Proof. vm_compute. repeat split. Qed.

End KillFacts.

(** ** The [kill] command: which signal *)

Section KillCommandFacts.

Import Host Oci Commands.

(** [cc_oci_get_config_and_state] sends nothing and writes nothing; when
    it succeeds the state is the one read from the state file of the
    container. *)
Lemma cc_oci_get_config_and_state_spec (e : env) (config : cc_oci_config)
    (id : string) (w : world) :
  optarg_container_id config = Some id ->
  exists (ret : bool) (config_file : option string) (c1 : cc_oci_config)
         (state : option State.oci_state) (w1 : world) (tr : list event),
    cc_oci_get_config_and_state e config w = (ret, config_file, c1, state, w1) /\
    trace w1 = trace w ++ tr /\
    signals tr = [] /\ written_statuses tr = [] /\ hyper_commands tr = [] /\
    optarg_container_id c1 = Some id /\
    (ret = true ->
     tr = [] /\
     exists st : State.oci_state,
       state = Some st /\
       State.cc_oci_state_file_read (load e) (Some (state_file_of config id))
       = Some st).
Proof.
  intros Hid.
  unfold cc_oci_get_config_and_state, cc_oci_runtime_path_get,
    cc_oci_state_file_get, state_file_of.
  rewrite Hid. simpl negb. cbv iota.
  unfold set_state. cbn [Oci.state Oci.runtime_path Oci.state_file_path].
  destruct (String.eqb _ ""); simpl negb; cbv iota.
  - eexists _, _, _, _, _, []. split; [reflexivity|].
    rewrite (app_nil_r (trace w)).
    split; [reflexivity|]. split; [reflexivity|]. split; [reflexivity|].
    split; [reflexivity|]. split; [exact Hid|].
    intros Hfalse. discriminate Hfalse.
  - destruct (State.cc_oci_state_file_read (load e) _) as [st|] eqn:Hread.
    + destruct (cc_oci_config_file_path (State.bundle_path st)).
      * eexists _, _, _, _, _, []. split; [reflexivity|].
        rewrite (app_nil_r (trace w)).
        split; [reflexivity|]. split; [reflexivity|]. split; [reflexivity|].
        split; [reflexivity|]. split; [exact Hid|].
        intros _. split; [reflexivity|]. exists st. split; reflexivity.
      * eexists _, _, _, _, _, []. split; [reflexivity|].
        rewrite (app_nil_r (trace w)).
        split; [reflexivity|]. split; [reflexivity|]. split; [reflexivity|].
        split; [reflexivity|]. split; [exact Hid|].
        intros Hfalse. discriminate Hfalse.
    + eexists _, _, _, _, _, [_]. split; [reflexivity|].
      split; [reflexivity|]. split; [reflexivity|]. split; [reflexivity|].
      split; [reflexivity|]. split; [exact Hid|].
      intros Hfalse. discriminate Hfalse.
Qed.

Lemma g_strlcpy_not_empty (s : string) :
  s <> ""%string -> State.g_strlcpy s <> ""%string.
Proof.
  unfold State.g_strlcpy.
  assert (Hmax : exists n : nat, (State.PATH_MAX - 1)%nat = S n)
    by (exists 4094%nat; reflexivity).
  destruct Hmax as [n ->].
  destruct s as [|c s]; [contradiction|]. discriminate.
Qed.

Lemma snprintf_path_not_empty (a b : string) : snprintf_path a b <> ""%string.
Proof.
  unfold snprintf_path. apply g_strlcpy_not_empty.
  destruct a; discriminate.
Qed.

(** When the state file of the container can be read and names a bundle,
    [cc_oci_get_config_and_state] succeeds with that state. *)
Lemma cc_oci_get_config_and_state_reads (e : env) (config : cc_oci_config)
    (id : string) (w : world) (st : State.oci_state) :
  optarg_container_id config = Some id ->
  State.cc_oci_state_file_read (load e) (Some (state_file_of config id))
  = Some st ->
  cc_oci_config_file_path (State.bundle_path st) <> None ->
  exists (config_file : string) (c1 : cc_oci_config),
    cc_oci_get_config_and_state e config w
    = (true, Some config_file, c1, Some st, w).
Proof.
  intros Hid Hread Hfile.
  unfold cc_oci_get_config_and_state, cc_oci_runtime_path_get,
    cc_oci_state_file_get.
  rewrite Hid. simpl negb. cbv iota.
  unfold set_state. cbn [Oci.state Oci.runtime_path Oci.state_file_path].
  destruct (String.eqb_spec
              (snprintf_path
                 (default CC_OCI_RUNTIME_DIR_PREFIX (root_dir config)) id) "")
    as [Hempty|_]; [now apply snprintf_path_not_empty in Hempty|].
  simpl negb. cbv iota. cbn [Oci.state Oci.runtime_path Oci.state_file_path].
  unfold state_file_of in Hread. rewrite Hread.
  destruct (cc_oci_config_file_path (State.bundle_path st)) as [cf|];
    [|contradiction].
  eexists _, _. reflexivity.
Qed.

(** The end of [handler_kill]: the only signal it sends is [signum], to
    the pid the state file holds; and it sends it, after it has written
    [stopping], whenever the state file can be read and names a bundle,
    the container is no sandbox, the state file can be written and the
    first write does not fail, and [kill] can deliver the signal. *)
Lemma handler_kill_signal_spec (e : env) (config : cc_oci_config)
    (id : string) (signum : Z) (w : world) :
  optarg_container_id config = Some id ->
  exists (ret : bool) (config' : cc_oci_config) (w' : world)
         (tr : list event),
    handler_kill_signal e config signum w = (ret, config', w') /\
    trace w' = trace w ++ tr /\
    (signals tr = []
     \/ exists st : State.oci_state,
         State.cc_oci_state_file_read (load e) (Some (state_file_of config id))
         = Some st /\
         signals tr = [(State.pid st, signum)]) /\
    (forall st : State.oci_state,
       State.cc_oci_state_file_read (load e) (Some (state_file_of config id))
       = Some st ->
       cc_oci_config_file_path (State.bundle_path st) <> None ->
       forall c2 : cc_oci_config,
         c2 = (let '(_, _, c1, _, _) := cc_oci_get_config_and_state e config w in
               snd (cc_oci_config_update c1 st)) ->
         cc_pod_is_sandbox c2 = false ->
         state_file_ready e c2 (State.create_time st) = true ->
         head (state_write_results w) <> Some false ->
         can_signal e (State.pid st) = true -> 0 <= signum <= 64 ->
         signals tr = [(State.pid st, signum)] /\
         head (written_statuses tr) = Some "stopping"%string).
Proof.
  intros Hid. unfold handler_kill_signal.
  destruct (cc_oci_get_config_and_state_spec e config id w Hid)
    as (ret & config_file & c1 & state & w1 & tr & Hget & Htr & Hsig
        & Hwritten & Hcmd & Hid1 & Hok).
  rewrite Hget.
  destruct ret.
  2:{ exists false, c1, w1, tr.
      split; [reflexivity|]. split; [exact Htr|]. split; [now left|].
      intros st Hread Hfile.
      destruct (cc_oci_get_config_and_state_reads e config id w st Hid Hread
                  Hfile) as (cf & c1' & Hget').
      rewrite Hget' in Hget. discriminate Hget. }
  destruct (Hok eq_refl) as (-> & st & -> & Hread).
  rewrite app_nil_r in Htr.
  unfold cc_oci_config_update at 1. simpl negb. cbv iota.
  match goal with
  | |- context [cc_oci_kill e ?c st signum w1] => set (c2 := c)
  end.
  destruct (cc_oci_kill_outcomes e c2 st signum w1)
    as (ret & config' & w' & tr & Hkill & Htr' & _ & Hpod & Hcases).
  exists ret, config', w', tr.
  split; [exact Hkill|]. split; [congruence|].
  split.
  - unfold cc_pod_is_sandbox at 1 in Hcases.
    destruct (match pod c2 with Some p => State.sandbox p | None => false end).
    + left. apply Hcases.
    + destruct Hcases as [HA|[HB|[HC|[HD|HE]]]].
      * right. exists st. split; [exact Hread|]. apply HA.
      * left. apply HB.
      * left. apply HC.
      * right. exists st. split; [exact Hread|]. apply HD.
      * right. exists st. split; [exact Hread|]. apply HE.
  - intros st' Hread' Hfile c2' Hc2' Hsandbox Hready Hhead Hcan Hrange.
    assert (st' = st) by congruence. subst st'.
    assert (w1 = w).
    { destruct (cc_oci_get_config_and_state_reads e config id w st Hid Hread
                  Hfile) as (cf & c1' & Hget').
      congruence. }
    subst w1.
    subst c2'.
    change (cc_pod_is_sandbox c2 = false) in Hsandbox.
    change (state_file_ready e c2 (State.create_time st) = true) in Hready.
    rewrite Hsandbox in Hcases.
    destruct Hcases as [HA|[HB|[HC|[HD|HE]]]].
    + destruct HA as (_ & -> & -> & _). split; reflexivity.
    + destruct HB as (_ & _ & _ & _ & _ & _ & Hwhy).
      apply Hwhy in Hready. contradiction.
    + destruct HC as (_ & _ & _ & _ & [Hno|Hno] & _); [congruence|lia].
    + destruct HD as (_ & -> & -> & _). split; reflexivity.
    + destruct HE as (_ & _ & _ & -> & -> & _). split; reflexivity.
Qed.

(** [handler_kill] once the container id is taken: the signal argument
    is converted, and the rest is [handler_kill_signal]. *)
Lemma handler_kill_unfold (e : env) (config : cc_oci_config) (id : string)
    (args : list string) (w : world) :
  String.eqb id "--help" || String.eqb id "-h" = false ->
  exists c0 : cc_oci_config,
    optarg_container_id c0 = Some id /\
    state_file_of c0 id = state_file_of config id /\
    (forall st, (let '(_, _, c1, _, _) := cc_oci_get_config_and_state e c0 w in
                 snd (cc_oci_config_update c1 st))
                = kill_config e config id st w) /\
    handler_kill e config (id :: args) w
    = match args with
      | [signame] =>
          let signum :=
            if Strtol.atoi signame <=? 0
            then Util.cc_oci_get_signum (Some signame)
            else Strtol.atoi signame in
          if signum <? 0 then
            (false, c0, emit w (EvCritical "invalid signal specified"))
          else handler_kill_signal e c0 signum w
      | _ => handler_kill_signal e c0 SIGTERM w
      end.
Proof.
  intros Hhelp.
  unfold handler_kill, handle_default_usage. rewrite Hhelp.
  replace (Z.of_nat (length (id :: args)) =? 0) with false
    by (symmetry; apply Z.eqb_neq; simpl length; lia).
  replace (Z.of_nat (length (id :: args)) <? 1) with false
    by (symmetry; apply Z.ltb_ge; simpl length; lia).
  simpl orb. cbv iota. simpl lookup.
  eexists. split; [|split; [|split]]; [| | |destruct args as [|? [|? ?]];
                                             reflexivity].
  - reflexivity.
  - reflexivity.
  - intros st. reflexivity.
Qed.

(** C10 (amended): [kill <id> <args>], the container id not being a
    request for help. Which signal the command asks for: [SIGTERM] when
    no argument or more than one follows the id; for one argument that is
    a decimal number (after white space and a [+] at most) of positive
    value below [2 ^ 31], that value, whatever follows the digits; for one
    argument that is a name of [signal_table], with or without its [SIG],
    the number of that name. The signal asked for is the only one the
    command sends, to the pid in the state file of the container; and it
    is sent whenever that file can be read and names a bundle, the
    container is no sandbox, the state file can be written, the first write
    does not fail and [kill] can deliver the signal. One argument that is
    zero or a negative number, or that has no digits at its start and is no
    name of the table, makes the command fail with
    [invalid signal specified] and do nothing else. *)
Theorem kill_signal_argument (e : env) (config : cc_oci_config) (id : string)
    (args : list string) (w : world)
    (Hhelp : String.eqb id "--help" || String.eqb id "-h" = false) :
  exists (ret : bool) (config' : cc_oci_config) (w' : world)
         (tr : list event),
    handler_kill e config (id :: args) w = (ret, config', w') /\
    trace w' = trace w ++ tr /\
    let value (ds : list ascii) : Z :=
      fold_left (fun a c => 10 * a + (Z.of_nat (nat_of_ascii c) - 48)) ds 0 in
    let asked (signum : Z) : Prop :=
      (signals tr = []
       \/ exists st : State.oci_state,
           State.cc_oci_state_file_read (load e)
             (Some (state_file_of config id)) = Some st /\
           signals tr = [(State.pid st, signum)]) /\
      (forall st : State.oci_state,
         State.cc_oci_state_file_read (load e)
           (Some (state_file_of config id)) = Some st ->
         cc_oci_config_file_path (State.bundle_path st) <> None ->
         cc_pod_is_sandbox (kill_config e config id st w) = false ->
         state_file_ready e (kill_config e config id st w)
           (State.create_time st) = true ->
         head (state_write_results w) <> Some false ->
         can_signal e (State.pid st) = true -> signum <= 64 ->
         signals tr = [(State.pid st, signum)] /\
         head (written_statuses tr) = Some "stopping"%string) in
    let fails : Prop :=
      ret = false /\ tr = [EvCritical "invalid signal specified"] in
    (length args <> 1%nat -> asked SIGTERM) /\
    (forall ws plus ds rest : list ascii,
       args = [string_of_list_ascii (ws ++ plus ++ ds ++ rest)] ->
       Forall (fun c => Strtol.isspace c = true) ws ->
       plus = [] \/ plus = ["+"%char] ->
       ds <> [] -> Forall (fun c => is_Some (Strtol.digit_of c)) ds ->
       match rest with [] => True | c :: _ => Strtol.digit_of c = None end ->
       0 < value ds < 2 ^ 31 ->
       asked (value ds)) /\
    (forall (num : Z) (name short : string),
       In (num, name) Util.signal_table -> name = ("SIG" ++ short)%string ->
       args = [name] \/ args = [short] ->
       asked num) /\
    (forall ws sign ds rest : list ascii,
       args = [string_of_list_ascii (ws ++ sign ++ ds ++ rest)] ->
       Forall (fun c => Strtol.isspace c = true) ws ->
       sign = [] \/ sign = ["+"%char] \/ sign = ["-"%char] ->
       ds <> [] -> Forall (fun c => is_Some (Strtol.digit_of c)) ds ->
       match rest with [] => True | c :: _ => Strtol.digit_of c = None end ->
       value ds < 2 ^ 31 ->
       sign = ["-"%char] \/ value ds = 0 ->
       fails) /\
    (forall ws sign rest : list ascii,
       args = [string_of_list_ascii (ws ++ sign ++ rest)] ->
       Forall (fun c => Strtol.isspace c = true) ws ->
       sign = [] \/ sign = ["+"%char] \/ sign = ["-"%char] ->
       match rest with
       | [] => True
       | c :: _ =>
           Strtol.digit_of c = None /\
           (sign = [] ->
            Strtol.isspace c = false /\ c <> "+"%char /\ c <> "-"%char)
       end ->
       (forall (num : Z) (name : string),
          In (num, name) Util.signal_table ->
          name <> string_of_list_ascii (ws ++ sign ++ rest) /\
          name <> ("SIG" ++ string_of_list_ascii (ws ++ sign ++ rest))%string) ->
       fails).
Proof.
  destruct (handler_kill_unfold e config id args w Hhelp)
    as (c0 & Hid & Hfile & Hconfig & Hkill).
  (* what the command adds to the trace *)
  assert (Hrun : exists (ret : bool) (config' : cc_oci_config) (w' : world)
                        (tr : list event),
            handler_kill e config (id :: args) w = (ret, config', w') /\
            trace w' = trace w ++ tr).
  { rewrite Hkill.
    assert (Hsignal : forall signum,
              exists ret config' w' tr,
                handler_kill_signal e c0 signum w = (ret, config', w') /\
                trace w' = trace w ++ tr).
    { intros signum.
      destruct (handler_kill_signal_spec e c0 id signum w Hid)
        as (ret & config' & w' & tr & Hsig & Htr & _).
      exists ret, config', w', tr. split; assumption. }
    destruct args as [|signame [|arg args]]; try apply Hsignal.
    cbv zeta. destruct (_ <? 0); [|apply Hsignal].
    eexists _, _, _, _. split; reflexivity. }
  destruct Hrun as (ret & config' & w' & tr & Hrun & Htr).
  exists ret, config', w', tr. split; [exact Hrun|]. split; [exact Htr|].
  cbv zeta.
  (* a signal that is asked for *)
  assert (Hasked : forall signum : Z,
            0 <= signum ->
            handler_kill e config (id :: args) w
            = handler_kill_signal e c0 signum w ->
            (signals tr = []
             \/ exists st : State.oci_state,
                 State.cc_oci_state_file_read (load e)
                   (Some (state_file_of config id)) = Some st /\
                 signals tr = [(State.pid st, signum)]) /\
            (forall st : State.oci_state,
               State.cc_oci_state_file_read (load e)
                 (Some (state_file_of config id)) = Some st ->
               cc_oci_config_file_path (State.bundle_path st) <> None ->
               cc_pod_is_sandbox (kill_config e config id st w) = false ->
               state_file_ready e (kill_config e config id st w)
                 (State.create_time st) = true ->
               head (state_write_results w) <> Some false ->
               can_signal e (State.pid st) = true -> signum <= 64 ->
               signals tr = [(State.pid st, signum)] /\
               head (written_statuses tr) = Some "stopping"%string)).
  { intros signum Hpos Heq.
    destruct (handler_kill_signal_spec e c0 id signum w Hid)
      as (ret2 & config2 & w2 & tr2 & Hsig & Htr2 & Honly & Hsent).
    assert (w2 = w') by congruence. subst w2.
    assert (tr2 = tr) by (rewrite Htr in Htr2; apply app_inv_head in Htr2;
                          congruence).
    subst tr2. rewrite Hfile in Honly, Hsent.
    split; [exact Honly|].
    intros st Hread Hbundle Hsandbox Hready Hhead Hcan Hmax.
    apply (Hsent st Hread Hbundle (kill_config e config id st w));
      try assumption; [symmetry; apply Hconfig|lia]. }
  (* the command fails *)
  assert (Hfails : forall s : string,
            args = [s] -> Strtol.atoi s <= 0 ->
            Util.cc_oci_get_signum (Some s) = -1 ->
            ret = false /\ tr = [EvCritical "invalid signal specified"]).
  { intros s -> Hatoi Hname. cbv zeta in Hkill.
    replace (Strtol.atoi s <=? 0) with true in Hkill
      by (symmetry; apply Z.leb_le; exact Hatoi).
    rewrite Hname in Hkill. change (-1 <? 0) with true in Hkill.
    cbv iota in Hkill. rewrite Hkill in Hrun.
    injection Hrun as <- _ <-. split; [reflexivity|].
    cbn [trace emit] in Htr. apply app_inv_head in Htr. congruence. }
  split; [|split; [|split; [|split]]].
  - intros Hlen. apply Hasked; [unfold SIGTERM; lia|].
    rewrite Hkill. destruct args as [|signame [|arg args]];
      [reflexivity|simpl in Hlen; lia|reflexivity].
  - intros ws plus ds rest -> Hws Hplus Hne Hds Hrest Hvalue.
    assert (Hatoi :
      Strtol.atoi (string_of_list_ascii (ws ++ plus ++ ds ++ rest))
      = fold_left (fun a c => 10 * a + (Z.of_nat (nat_of_ascii c) - 48)) ds 0).
    { rewrite (atoi_number ws plus ds rest Hws) by
        (try assumption; try lia; destruct Hplus; auto).
      cbv zeta. destruct Hplus as [-> | ->]; reflexivity. }
    apply Hasked; [lia|]. rewrite Hkill. cbv zeta. rewrite Hatoi.
    destruct (Z.leb_spec (fold_left
                (fun a c => 10 * a + (Z.of_nat (nat_of_ascii c) - 48)) ds 0) 0)
      as [|_]; [lia|].
    destruct (Z.ltb_spec (fold_left
                (fun a c => 10 * a + (Z.of_nat (nat_of_ascii c) - 48)) ds 0) 0)
      as [|_]; [lia|].
    reflexivity.
  - intros num name short Hin Hshort Hargs.
    destruct (signal_table_entry num name Hin)
      as (Hnum & _ & Hatoi & Hname & Hwithout).
    destruct (Hwithout short Hshort) as [Hatoi' Hname'].
    apply Hasked; [lia|]. rewrite Hkill.
    destruct Hargs as [-> | ->]; cbv zeta.
    + rewrite Hatoi, Hname. change (0 <=? 0) with true. cbv iota.
      destruct (Z.ltb_spec num 0) as [|_]; [lia|]. reflexivity.
    + rewrite Hatoi', Hname'. change (0 <=? 0) with true. cbv iota.
      destruct (Z.ltb_spec num 0) as [|_]; [lia|]. reflexivity.
  - intros ws sign ds rest Hargs Hws Hsign Hne Hds Hrest Hvalue Hnot.
    apply (Hfails _ Hargs).
    + rewrite (atoi_number ws sign ds rest Hws Hsign Hne Hds Hrest Hvalue).
      cbv zeta.
      pose proof (fold_digits_nonneg ds Hds 0 ltac:(lia)) as Hpos.
      destruct Hnot as [-> | Hzero]; [lia|].
      rewrite Hzero. destruct Hsign as [-> | [-> | ->]]; lia.
    + apply cc_oci_get_signum_not_name.
      destruct ds as [|d ds]; [contradiction|].
      assert (Hd : is_Some (Strtol.digit_of d)) by (inversion Hds; assumption).
      destruct ws as [|c ws].
      * destruct Hsign as [-> | [-> | ->]]; cbn [app string_of_list_ascii];
          apply signal_table_first_char; auto.
      * cbn [app string_of_list_ascii]. apply signal_table_first_char.
        left. inversion Hws; assumption.
  - intros ws sign rest Hargs Hws Hsign Hrest Hnot.
    apply (Hfails _ Hargs).
    + rewrite (atoi_nothing ws sign rest Hws Hsign Hrest). lia.
    + apply cc_oci_get_signum_not_name. exact Hnot.
Qed.

(** [kill c1 TERM] on the host of [c1]: [SIGTERM] goes to the shim. *)
Lemma kill_signal_argument_witness :
  exists (ret : bool) (config' : cc_oci_config) (w' : world),
    handler_kill Examples.host_env Examples.config_new ["c1"; "TERM"]
      (Examples.world_c1 []) = (ret, config', w') /\
    signals (trace w') = [(4242, SIGTERM)].
Proof.
  destruct (kill_signal_argument Examples.host_env Examples.config_new "c1"
              ["TERM"] (Examples.world_c1 []) eq_refl)
    as (ret & config' & w' & tr & Hkill & Htr & _ & _ & Hname & _).
  exists ret, config', w'. split; [exact Hkill|].
  destruct (Hname SIGTERM "SIGTERM"%string "TERM"%string) as [_ Hsent].
  - unfold Util.signal_table. simpl. tauto.
  - reflexivity.
  - right. reflexivity.
  - rewrite Htr.
    destruct (Hsent Examples.state_c1) as [Hsig _].
    + vm_compute. reflexivity.
    + vm_compute. discriminate.
    + vm_compute. reflexivity.
    + vm_compute. reflexivity.
    + vm_compute. discriminate.
    + vm_compute. reflexivity.
    + vm_compute. discriminate.
    + exact Hsig.
Defined.

(** As C10 is worded it fails: [9abc] is no decimal number and no name of
    a signal, and [kill c1 9abc] succeeds, having sent signal 9 to the
    shim and [killcontainer] to the proxy. *)
Lemma kill_signal_argument_counterexample :
  forallb (fun c => bool_decide (is_Some (Strtol.digit_of c)))
    (list_ascii_of_string "9abc") = false /\
  Util.cc_oci_get_signum (Some "9abc") = -1 /\
  let '(ret, config', w') :=
    handler_kill Examples.host_env Examples.config_new ["c1"; "9abc"]
      (Examples.world_c1 []) in
  ret = true /\
  signals (trace w') = [(4242, SIGKILL)] /\
  hyper_commands (trace w') = [("killcontainer", "c1", SIGKILL)] /\
  state_file_status w' = Some "stopped".
Proof. vm_compute. repeat split. Qed.

(** The [kill] command on [c1]: without a signal, with a number, with a
    name, with neither. *)
Lemma handler_kill_examples :
  signals (trace (snd (handler_kill Examples.host_env Examples.config_new
                         ["c1"] (Examples.world_c1 []))))
  = [(4242, SIGTERM)] /\
  signals (trace (snd (handler_kill Examples.host_env Examples.config_new
                         ["c1"; "10"] (Examples.world_c1 []))))
  = [(4242, 10)] /\
  signals (trace (snd (handler_kill Examples.host_env Examples.config_new
                         ["c1"; "SIGUSR1"] (Examples.world_c1 []))))
  = [(4242, 10)] /\
  handler_kill Examples.host_env Examples.config_new ["c1"; "NOSIG"]
    (Examples.world_c1 [])
  = (false,
     snd (fst (handler_kill Examples.host_env Examples.config_new
                 ["c1"; "NOSIG"] (Examples.world_c1 []))),
     emit (Examples.world_c1 []) (EvCritical "invalid signal specified")).
Proof. vm_compute. repeat split. Qed.

End KillCommandFacts.

(** ** shim/utils.c: what a store writes, and storing what was read *)

Section BigEndianLayout.

Import BigEndian.

(** A store replaces four bytes of the buffer. *)
Lemma set_big_endian_32_eq (off : nat) :
  forall (buf : list Z) (val : Z),
    (off + 4 <= length buf)%nat ->
    set_big_endian_32 buf off val
    = take off buf ++ be32_bytes val ++ drop (off + 4) buf.
Proof.
  induction off as [|off IH]; intros buf val Hlen.
  - destruct buf as [|b0 [|b1 [|b2 [|b3 rest]]]]; simpl in Hlen; try lia.
    reflexivity.
  - destruct buf as [|x buf]; simpl in Hlen; [lia|].
    specialize (IH buf val ltac:(lia)).
    unfold set_big_endian_32 in *. simpl. f_equal. exact IH.
Qed.

Lemma be32_bytes_uint8 (val : Z) : Forall is_uint8 (be32_bytes val).
Proof. unfold be32_bytes. repeat constructor; apply cast_uint8_range. Qed.

Lemma be32_bytes_value (val : Z) :
  fold_left (fun acc b => 256 * acc + b) (be32_bytes val) 0 = val mod 2 ^ 32.
Proof.
  unfold be32_bytes, cast_uint8. simpl fold_left.
  rewrite !Z.shiftr_div_pow2 by lia.
  change (2 ^ 32) with (2 ^ 8 * (2 ^ 8 * (2 ^ 8 * 2 ^ 8))).
  rewrite !Z.rem_mul_r by lia.
  rewrite !Z.div_div by lia.
  change (2 ^ 8 * 2 ^ 8) with (2 ^ 16).
  change (2 ^ 16 * 2 ^ 8) with (2 ^ 24).
  change (2 ^ 8) with 256. change (2 ^ 16) with 65536.
  change (2 ^ 24) with 16777216. lia.
Qed.

Lemma set_big_endian_64_eq (buf : list Z) (off : nat) (val : Z) :
  (off + 8 <= length buf)%nat ->
  set_big_endian_64 buf off val
  = take off buf ++ be64_bytes val ++ drop (off + 8) buf.
Proof.
  intros Hlen. unfold set_big_endian_64, be64_bytes.
  rewrite (set_big_endian_32_eq (off + 4))
    by (rewrite length_set_big_endian_32; lia).
  rewrite (set_big_endian_32_eq off) by lia.
  rewrite take_app_ge by (rewrite length_take; lia).
  rewrite length_take, Nat.min_l by lia.
  replace (off + 4 - off)%nat with 4%nat by lia.
  rewrite drop_app_ge by (rewrite length_take; lia).
  rewrite length_take, Nat.min_l by lia.
  replace (off + 4 + 4 - off)%nat with 8%nat by lia.
  change (take 4 (be32_bytes (cast_uint32 (Z.shiftr val 32)) ++ ?x))
    with (be32_bytes (cast_uint32 (Z.shiftr val 32))).
  change (drop 8 (be32_bytes (cast_uint32 (Z.shiftr val 32)) ++ ?x))
    with (drop 4 x).
  rewrite drop_drop, <- !app_assoc.
  replace (off + 4 + 4)%nat with (off + 8)%nat by lia. reflexivity.
Qed.

Lemma be64_bytes_value (val : Z) :
  fold_left (fun acc b => 256 * acc + b) (be64_bytes val) 0 = val mod 2 ^ 64.
Proof.
  unfold be64_bytes. rewrite fold_left_app, be32_bytes_value.
  assert (Hshift :
    forall (bs : list Z) (a : Z),
      length bs = 4%nat ->
      fold_left (fun acc b => 256 * acc + b) bs a
      = 2 ^ 32 * a + fold_left (fun acc b => 256 * acc + b) bs 0).
  { intros bs a Hbs.
    destruct bs as [|b0 [|b1 [|b2 [|b3 [|b4 bs]]]]]; try discriminate.
    simpl. lia. }
  rewrite Hshift by reflexivity. rewrite be32_bytes_value.
  unfold cast_uint32. rewrite !Z.mod_mod by lia.
  rewrite Z.shiftr_div_pow2 by lia.
  change (2 ^ 64) with (2 ^ 32 * 2 ^ 32).
  rewrite (Z.rem_mul_r val) by lia. lia.
Qed.

(** The bytes a buffer holds, put back where they are. *)
Lemma take_peek_drop (off : nat) :
  forall buf : list Z,
    (off + 4 <= length buf)%nat ->
    take off buf
    ++ [peek buf off; peek buf (off + 1); peek buf (off + 2);
        peek buf (off + 3)]
    ++ drop (off + 4) buf = buf.
Proof.
  induction off as [|off IH]; intros buf Hlen.
  - destruct buf as [|b0 [|b1 [|b2 [|b3 rest]]]]; simpl in Hlen; try lia.
    reflexivity.
  - destruct buf as [|x buf]; simpl in Hlen; [lia|].
    simpl. f_equal. apply IH. lia.
Qed.

Lemma set_get_big_endian_32 (buf : list Z) (off : nat) :
  (off + 4 <= length buf)%nat ->
  (forall k : nat, (k < 4)%nat -> is_uint8 (peek buf (off + k))) ->
  set_big_endian_32 buf off (get_big_endian_32 buf off) = buf.
Proof.
  intros Hlen Hbytes.
  pose proof (Hbytes 0%nat ltac:(lia)) as H0. rewrite Nat.add_0_r in H0.
  pose proof (Hbytes 1%nat ltac:(lia)) as H1.
  pose proof (Hbytes 2%nat ltac:(lia)) as H2.
  pose proof (Hbytes 3%nat ltac:(lia)) as H3.
  rewrite set_big_endian_32_eq by exact Hlen.
  rewrite (get_big_endian_32_bytes buf off _ _ _ _ eq_refl eq_refl eq_refl
             eq_refl H0 H1 H2 H3).
  unfold be32_bytes.
  rewrite (bytes_slice_of_compose _ _ _ _ 24 H0 H1 H2 H3) by lia.
  rewrite (bytes_slice_of_compose _ _ _ _ 16 H0 H1 H2 H3) by lia.
  rewrite (bytes_slice_of_compose _ _ _ _ 8 H0 H1 H2 H3) by lia.
  rewrite <- (Z.shiftr_0_r (Z.lor _ (peek buf (off + 3)))) at 1.
  rewrite (bytes_slice_of_compose _ _ _ _ 0 H0 H1 H2 H3) by lia.
  simpl Z.eqb. cbv iota. apply take_peek_drop. exact Hlen.
Qed.

Lemma get_big_endian_32_range (buf : list Z) (off : nat) :
  is_uint32 (get_big_endian_32 buf off).
Proof. unfold get_big_endian_32. apply cast_uint32_range. Qed.

Lemma set_get_big_endian_64 (buf : list Z) (off : nat) :
  (off + 8 <= length buf)%nat ->
  (forall k : nat, (k < 8)%nat -> is_uint8 (peek buf (off + k))) ->
  set_big_endian_64 buf off (get_big_endian_64 buf off) = buf.
Proof.
  intros Hlen Hbytes. unfold set_big_endian_64, get_big_endian_64.
  pose proof (get_big_endian_32_range buf off) as Hhi.
  pose proof (get_big_endian_32_range buf (off + 4)) as Hlo.
  set (hi := get_big_endian_32 buf off) in *.
  set (lo := get_big_endian_32 buf (off + 4)) in *.
  unfold is_uint32 in Hhi, Hlo.
  assert (Hv : cast_uint64 (Z.lor (cast_uint64 (Z.shiftl hi 32)) lo)
               = 2 ^ 32 * hi + lo).
  { rewrite (cast_uint64_id (Z.shiftl hi 32))
      by (unfold is_uint64; rewrite Z.shiftl_mul_pow2 by lia; lia).
    rewrite <- Z.lxor_lor.
    - rewrite <- Z.add_nocarry_lxor.
      + rewrite Z.shiftl_mul_pow2 by lia.
        rewrite cast_uint64_id by (unfold is_uint64; lia). lia.
      + apply Z.bits_inj'. intros k Hk.
        rewrite Z.land_spec, Z.shiftl_spec, Z.bits_0 by lia.
        destruct (Z.ltb_spec k 32).
        * rewrite Z.testbit_neg_r by lia. reflexivity.
        * rewrite (testbit_above lo 32 k) by lia. apply andb_false_r.
    - apply Z.bits_inj'. intros k Hk.
      rewrite Z.land_spec, Z.shiftl_spec, Z.bits_0 by lia.
      destruct (Z.ltb_spec k 32).
      + rewrite Z.testbit_neg_r by lia. reflexivity.
      + rewrite (testbit_above lo 32 k) by lia. apply andb_false_r. }
  rewrite Hv.
  replace (cast_uint32 (Z.shiftr (2 ^ 32 * hi + lo) 32)) with hi.
  2:{ rewrite Z.shiftr_div_pow2 by lia.
      replace ((2 ^ 32 * hi + lo) / 2 ^ 32) with hi
        by (apply (Z.div_unique _ _ hi lo); lia).
      symmetry. apply cast_uint32_id. exact Hhi. }
  replace (cast_uint32 (2 ^ 32 * hi + lo)) with lo.
  2:{ unfold cast_uint32. apply (Z.mod_unique _ _ hi lo); lia. }
  subst hi. rewrite set_get_big_endian_32.
  - subst lo. apply set_get_big_endian_32; [lia|].
    intros k Hk. rewrite <- Nat.add_assoc. apply Hbytes. lia.
  - lia.
  - intros k Hk. apply Hbytes. lia.
Qed.

(** [set_big_endian_32] and [set_big_endian_64] replace the four, the
    eight bytes at their position and nothing else: the buffer keeps its
    length and every other byte. The bytes written are the digits of the
    value in base 256, most significant first (network byte order), the
    value taken modulo [2 ^ 32], [2 ^ 64]. *)
Theorem set_big_endian_network_order (buf : list Z) (off : nat) (val : Z) :
  ((off + 4 <= length buf)%nat ->
   exists bs : list Z,
     set_big_endian_32 buf off val = take off buf ++ bs ++ drop (off + 4) buf /\
     length bs = 4%nat /\ Forall is_uint8 bs /\
     fold_left (fun acc b => 256 * acc + b) bs 0 = val mod 2 ^ 32) /\
  ((off + 8 <= length buf)%nat ->
   exists bs : list Z,
     set_big_endian_64 buf off val = take off buf ++ bs ++ drop (off + 8) buf /\
     length bs = 8%nat /\ Forall is_uint8 bs /\
     fold_left (fun acc b => 256 * acc + b) bs 0 = val mod 2 ^ 64).
Proof.
  split; intros Hlen.
  - exists (be32_bytes val).
    split; [apply set_big_endian_32_eq; exact Hlen|].
    split; [reflexivity|]. split; [apply be32_bytes_uint8|].
    apply be32_bytes_value.
  - exists (be64_bytes val).
    split; [apply set_big_endian_64_eq; exact Hlen|].
    split; [reflexivity|].
    split; [unfold be64_bytes; apply Forall_app; split; apply be32_bytes_uint8|].
    apply be64_bytes_value.
Qed.

(** Storing what was read changes nothing: for a buffer of bytes,
    [set_big_endian_32 (buf, get_big_endian_32 (buf))] and its 64 bit
    counterpart leave the buffer as it is. *)
Theorem set_get_big_endian (buf : list Z) (off : nat)
    (Hbytes : Forall is_uint8 buf) :
  ((off + 4 <= length buf)%nat ->
   set_big_endian_32 buf off (get_big_endian_32 buf off) = buf) /\
  ((off + 8 <= length buf)%nat ->
   set_big_endian_64 buf off (get_big_endian_64 buf off) = buf).
Proof.
  assert (Hpeek : forall i : nat, (i < length buf)%nat -> is_uint8 (peek buf i)).
  { intros i Hi. unfold peek.
    destruct (lookup_lt_is_Some_2 buf i Hi) as [x Hx]. rewrite Hx. simpl.
    exact (proj1 (Forall_lookup _ _) Hbytes i x Hx). }
  split; intros Hlen.
  - apply set_get_big_endian_32; [exact Hlen|].
    intros k Hk. apply Hpeek. lia.
  - apply set_get_big_endian_64; [exact Hlen|].
    intros k Hk. apply Hpeek. lia.
Qed.

Lemma set_get_big_endian_witness :
  Forall is_uint8 [1; 2; 0; 0; 0; 0; 0; 0; 0; 5; 0; 0; 0; 13; 255] /\
  set_big_endian_64 [1; 2; 0; 0; 0; 0; 0; 0; 0; 5; 0; 0; 0; 13; 255] 2
    (get_big_endian_64 [1; 2; 0; 0; 0; 0; 0; 0; 0; 5; 0; 0; 0; 13; 255] 2)
  = [1; 2; 0; 0; 0; 0; 0; 0; 0; 5; 0; 0; 0; 13; 255].
Proof.
  assert (Hbytes :
    Forall is_uint8 [1; 2; 0; 0; 0; 0; 0; 0; 0; 5; 0; 0; 0; 13; 255])
    by (repeat constructor; unfold is_uint8; lia).
  split; [exact Hbytes|].
  apply (proj2 (set_get_big_endian _ 2 Hbytes)). simpl. lia.
Defined.

End BigEndianLayout.

(** ** src/proxy.c: [cc_proxy_msg_write] on a channel that is not ready *)

Section ProxyWriteFacts.

Import BigEndian Glib Proxy.




(** A message of single-byte characters, on a fresh channel that answers
    [G_IO_STATUS_AGAIN] any number of times before it is ready: the frame
    reaches the socket whole, its length field holding the length of the
    message in bytes, and the reply watch is registered. *)
Theorem cc_proxy_msg_write_retries (le : bool) (again : nat)
    (msg_to_send : list Z)
    (Hchars : Forall (fun c => c < 192) msg_to_send)
    (Hlen : strlen msg_to_send < 2 ^ 32) :
  cc_proxy_msg_write le
    {| chan_buffered := []; chan_sent := [];
       chan_pending := replicate again G_IO_STATUS_AGAIN |}
    G_IO_OUT msg_to_send
  = ({| chan_buffered := [];
        chan_sent := be32_bytes (strlen msg_to_send) ++ [0; 0; 0; 0]
                     ++ msg_to_send;
        chan_pending := [] |}, true) /\
  get_big_endian_32
    (chan_sent
       (fst (cc_proxy_msg_write le
               {| chan_buffered := []; chan_sent := [];
                  chan_pending := replicate again G_IO_STATUS_AGAIN |}
               G_IO_OUT msg_to_send))) 0
  = strlen msg_to_send.
Proof.
  assert (Hwrite :
    cc_proxy_msg_write le
      {| chan_buffered := []; chan_sent := [];
         chan_pending := replicate again G_IO_STATUS_AGAIN |}
      G_IO_OUT msg_to_send
    = ({| chan_buffered := [];
          chan_sent := be32_bytes (strlen msg_to_send) ++ [0; 0; 0; 0]
                       ++ msg_to_send;
          chan_pending := [] |}, true)).
  { induction again as [|again IH].
    - unfold cc_proxy_msg_write, do_while_again, proxy_msg_header_in_memory.
      cbn -[htonl guint32_in_memory g_utf8_strlen Z.to_nat take cast_uint32
            be32_bytes].
      rewrite htonl_in_memory, guint32_in_memory_zero.
      rewrite g_utf8_strlen_single by exact Hchars.
      unfold strlen. rewrite Nat2Z.id, firstn_all.
      rewrite cast_uint32_id by (unfold is_uint32, strlen in *; lia).
      reflexivity.
    - rewrite <- IH.
      unfold cc_proxy_msg_write, do_while_again. reflexivity. }
  split; [exact Hwrite|].
  rewrite Hwrite. cbn [fst chan_sent].
  exact (get_set_big_endian_32
           (replicate 4 0 ++ [0; 0; 0; 0] ++ msg_to_send) 0
           (strlen msg_to_send)
           ltac:(rewrite length_app; simpl; lia)
           ltac:(unfold is_uint32, strlen in *; lia)).
Qed.

Lemma cc_proxy_msg_write_retries_witness :
  Forall (fun c => c < 192) [123; 125] /\
  cc_proxy_msg_write true
    {| chan_buffered := []; chan_sent := [];
       chan_pending := replicate 3 G_IO_STATUS_AGAIN |}
    G_IO_OUT [123; 125]
  = ({| chan_buffered := [];
        chan_sent := [0; 0; 0; 2; 0; 0; 0; 0; 123; 125];
        chan_pending := [] |}, true).
Proof.
  assert (Hchars : Forall (fun c => c < 192) [123; 125])
    by (repeat constructor; lia).
  split; [exact Hchars|].
  apply (cc_proxy_msg_write_retries true 3 [123; 125] Hchars). reflexivity.
Defined.

End ProxyWriteFacts.

(** ** shim/shim.c: short reads, failing writes, frames out of bounds *)

Section ShimOutputFacts.

Import BigEndian Termios Shim.

(** A frame that arrives in pieces is read whole: whatever the segments
    the bytes of a well-formed frame come in, [read_IO_message] returns the
    frame, its sequence number and its length, and leaves the bytes that
    follow the frame for the next call. *)
Theorem read_IO_message_reassembles (shim : cc_shim) (w : world)
    (frame rest : list Z)
    (Hframe : well_formed_frame frame)
    (Hpending : pending_bytes (proxy_io_pending w) = frame ++ rest) :
  exists w' : world,
    read_IO_message shim w
    = Returns (Some frame, frame_seq frame, Z.of_nat (length frame)) w' /\
    pending_bytes (proxy_io_pending w') = rest /\
    trace w' = trace w.
Proof.
  destruct (read_IO_message_frame shim w frame rest Hframe Hpending)
    as (p' & Hread & Hp').
  exists (set_proxy_io_pending w p'). split; [exact Hread|].
  split; [exact Hp'|reflexivity].
Qed.

(** The frame [hi] for standard output; it comes in three pieces, the
    first of which ends inside the header, and a byte follows it. *)
Lemma read_IO_message_reassembles_witness :
  exists w' : world,
    read_IO_message (Examples.shim_5 false)
      (Examples.world_on_tty
         [Some [0; 0; 0; 0; 0]; Some [0; 0; 5; 0; 0; 0; 14; 104];
          Some [105; 33]])
    = Returns (Some (mk_frame 5 [104; 105]), 5, 14) w' /\
    pending_bytes (proxy_io_pending w') = [33] /\
    trace w' = [].
Proof.
  apply (read_IO_message_reassembles (Examples.shim_5 false)
           (Examples.world_on_tty
              [Some [0; 0; 0; 0; 0]; Some [0; 0; 5; 0; 0; 0; 14; 104];
               Some [105; 33]])
           (mk_frame 5 [104; 105]) [33]).
  - split; [reflexivity|]. vm_compute. split; discriminate.
  - reflexivity.
Defined.

(** Whatever the [write]s return, the write loop hands the descriptor a
    prefix of the bytes from [offset] on, in order and none twice, and
    nothing to any other descriptor. *)
Lemma write_loop_prefix (results : list Z) (outfd : Z) (buf : list Z) :
  forall offset : Z,
    0 <= offset ->
    fd_output outfd
      (snd (write_loop results outfd buf offset (Z.of_nat (length buf))))
    `prefix_of` drop (Z.to_nat offset) buf /\
    (forall fd : Z,
       fd <> outfd ->
       fd_output fd
         (snd (write_loop results outfd buf offset (Z.of_nat (length buf))))
       = []).
Proof.
  induction results as [|ret results IH]; intros offset Hoffset;
    rewrite write_loop_unfold;
    destruct (Z.ltb_spec offset (Z.of_nat (length buf))) as [Hlt|Hge];
    try (cbn [snd]; split; [apply prefix_nil|reflexivity]).
  - cbv zeta. cbn [snd].
    rewrite take_ge by (rewrite length_drop; lia). split.
    + rewrite fd_output_cons_write, Z.eqb_refl.
      rewrite take_ge by (rewrite length_drop; lia).
      rewrite app_nil_r. reflexivity.
    + intros fd Hfd. rewrite fd_output_cons_write.
      destruct (Z.eqb_spec outfd fd); [congruence|reflexivity].
  - cbv zeta. rewrite take_ge by (rewrite length_drop; lia).
    destruct (Z.leb_spec ret 0) as [Hfail|Hok].
    + cbn [snd]. split.
      * rewrite fd_output_cons_write, Z.eqb_refl.
        replace (Z.to_nat ret) with 0%nat by lia. apply prefix_nil.
      * intros fd Hfd. rewrite fd_output_cons_write.
        destruct (Z.eqb_spec outfd fd); [congruence|reflexivity].
    + destruct (IH (offset + ret) ltac:(lia)) as [IHout IHother].
      destruct (write_loop results outfd buf (offset + ret)
                  (Z.of_nat (length buf))) as [results' evs].
      cbn [snd] in *. split.
      * rewrite fd_output_cons_write, Z.eqb_refl.
        rewrite <- (take_drop (Z.to_nat ret) (drop (Z.to_nat offset) buf))
          at 2.
        apply prefix_app. rewrite drop_drop, <- Z2Nat.inj_add by lia.
        exact IHout.
      * intros fd Hfd. rewrite fd_output_cons_write, (IHother fd Hfd).
        destruct (Z.eqb_spec outfd fd); [congruence|reflexivity].
Qed.

(** A frame whose [write]s fail part of the way: the shim does not leave
    the process and does not write anything out of place. For every
    well-formed frame that is not taken as the exit status, and whatever
    the [write]s return, the descriptor the frame is routed to gets a
    prefix of the payload, every other descriptor gets nothing, and the
    input behind the frame is left for the next turn. *)
Theorem stream_frame_failing_writes (shim : cc_shim) (w : world)
    (frame rest : list Z)
    (Hframe : well_formed_frame frame)
    (Hpending : pending_bytes (proxy_io_pending w) = frame ++ rest)
    (Hstatus : exiting shim && is_one_byte_frame shim frame = false) :
  exists (shim' : cc_shim) (w' : world) (evs : list event),
    handle_proxy_output shim w = Returns shim' w' /\
    trace w' = trace w ++ evs /\
    fd_output (routed_fd shim frame) evs `prefix_of` frame_payload frame /\
    (forall fd : Z, fd <> routed_fd shim frame -> fd_output fd evs = []) /\
    pending_bytes (proxy_io_pending w') = rest /\
    exiting shim' = exiting shim || is_eof_frame shim frame.
Proof.
  destruct (handle_proxy_output_frame shim w frame rest Hframe Hpending)
    as (p' & Hp' & Hhandle).
  rewrite Hhandle, dispatch_frame_step, Hstatus.
  set (w1 := set_proxy_io_pending w p').
  destruct Hframe as [_ Hbound]. unfold STREAM_HEADER_SIZE in Hbound.
  exists (set_exiting shim (exiting shim || is_eof_frame shim frame)),
    (world_after_frame shim w1 frame).
  unfold world_after_frame.
  destruct (seq_matches shim frame) eqn:Hseq.
  - destruct (negb (exiting shim)
              && (Z.of_nat (length frame) =? STREAM_HEADER_SIZE)) eqn:Heof.
    + exists []. split; [reflexivity|]. split; [symmetry; apply app_nil_r|].
      split; [apply prefix_nil|]. split; [reflexivity|].
      split; [exact Hp'|reflexivity].
    + exists (snd (write_loop (write_results w1) (routed_fd shim frame) frame
                     STREAM_HEADER_SIZE (Z.of_nat (length frame)))).
      split; [reflexivity|].
      split; [rewrite write_all_trace; reflexivity|].
      destruct (write_loop_prefix (write_results w1) (routed_fd shim frame)
                  frame STREAM_HEADER_SIZE ltac:(unfold STREAM_HEADER_SIZE; lia))
        as [Hout Hother].
      split; [exact Hout|]. split; [exact Hother|].
      split; [rewrite write_all_pending; exact Hp'|reflexivity].
  - exists [EvLog LOG_WARNING]. split; [reflexivity|].
    split; [reflexivity|]. split; [apply prefix_nil|].
    split; [reflexivity|]. split; [exact Hp'|reflexivity].
Qed.

(** The frame [hi!] for standard output, whose second [write] fails. *)
Lemma stream_frame_failing_writes_witness :
  exists (shim' : cc_shim) (w' : world) (evs : list event),
    handle_proxy_output (Examples.shim_5 false)
      (set_write_results
         (Examples.world_on_tty [Some (mk_frame 5 [104; 105; 33])]) [2; -1])
    = Returns shim' w' /\
    trace w' = evs /\
    fd_output STDOUT_FILENO evs `prefix_of` [104; 105; 33] /\
    (forall fd : Z, fd <> STDOUT_FILENO -> fd_output fd evs = []) /\
    pending_bytes (proxy_io_pending w') = [] /\
    exiting shim' = false.
Proof.
  apply (stream_frame_failing_writes (Examples.shim_5 false)
           (set_write_results
              (Examples.world_on_tty [Some (mk_frame 5 [104; 105; 33])])
              [2; -1])
           (mk_frame 5 [104; 105; 33]) []).
  - split; [reflexivity|]. vm_compute. split; discriminate.
  - reflexivity.
  - reflexivity.
Defined.

(** Reading a header whose length field is below the header size or
    above the bound: the twelve bytes are taken, whatever the segments they
    come in, and nothing after them. *)
Lemma read_IO_loop_bad_length (header rest : list Z) :
  length header = 12%nat ->
  frame_length header < STREAM_HEADER_SIZE
  \/ HYPERSTART_MAX_RECV_BYTES < frame_length header ->
  forall (fuel : nat) (w : world) (n : nat),
    pending_bytes (proxy_io_pending w) = drop n header ++ rest ->
    (n < 12)%nat -> (13 - n < fuel)%nat ->
    exists p' : list (option (list Z)),
      read_IO_loop fuel w (take n header ++ replicate (12 - n) 0)
        (Z.of_nat n) STREAM_HEADER_SIZE 0
      = (if frame_length header >? HYPERSTART_MAX_RECV_BYTES
         then Returns (None, 0, frame_length header)
                (emit (set_proxy_io_pending w p') (EvLog LOG_WARNING))
         else Returns (Some header, frame_seq header, frame_length header)
                (set_proxy_io_pending w p')) /\
      pending_bytes p' = rest.
Proof.
  intros Hlen Hbad.
  unfold STREAM_HEADER_SIZE, HYPERSTART_MAX_RECV_BYTES in *.
  induction fuel as [|fuel IH]; intros w n Hpend Hn Hfuel; [lia|].
  rewrite read_IO_loop_unfold.
  unfold STREAM_HEADER_SIZE, HYPERSTART_MAX_RECV_BYTES.
  destruct (Z.ltb_spec (Z.of_nat n) 12) as [_|]; [|lia].
  cbv zeta.
  destruct (Z.gtb_spec (12 - Z.of_nat n) BUFSIZ) as [Hbig|_];
    [unfold BUFSIZ in Hbig; lia|].
  destruct (read_pending w (12 - Z.of_nat n) _ Hpend)
    as (k & p1 & Hk1 & Hk2 & Hk3 & Hread & Hp1).
  { intros Hnil. apply (f_equal length) in Hnil.
    rewrite length_app, length_drop in Hnil. simpl in Hnil. lia. }
  { lia. }
  rewrite Hread.
  destruct (Z.eqb_spec (Z.of_nat k) (-1)) as [|_]; [lia|].
  destruct (Z.eqb_spec (Z.of_nat k) 0) as [|_]; [lia|].
  assert (Htake : take k (drop n header ++ rest) = take k (drop n header)).
  { apply take_app_le. rewrite length_drop. lia. }
  rewrite Htake, Nat2Z.id.
  assert (Hfill :
    list_inserts n (take k (drop n header))
      (take n header ++ replicate (12 - n) 0)
    = take (n + k) header ++ replicate (12 - (n + k)) 0).
  { rewrite <- (length_take_le header n) at 1 by lia.
    rewrite list_inserts_fill by (rewrite length_take, length_drop; lia).
    rewrite take_take_drop, length_take, length_drop.
    f_equal. f_equal. lia. }
  rewrite Hfill.
  replace (Z.of_nat n + Z.of_nat k) with (Z.of_nat (n + k)) by lia.
  assert (Hpend1 : pending_bytes (proxy_io_pending (set_proxy_io_pending w p1))
                   = drop (n + k) header ++ rest).
  { cbn. rewrite Hp1. rewrite drop_app_le by (rewrite length_drop; lia).
    rewrite drop_drop. reflexivity. }
  cbn [Z.eqb andb].
  destruct (Z.geb_spec (Z.of_nat (n + k)) 12) as [Hfull|Hpart].
  - assert (Hnk : (n + k)%nat = 12%nat) by lia. rewrite Hnk in *.
    change (12 - 12)%nat with 0%nat. cbn [replicate]. rewrite app_nil_r.
    cbv zeta.
    assert (Hall : take 12 header = header) by (apply take_ge; lia).
    rewrite Hall. fold (frame_length header).
    exists p1. split.
    + destruct (Z.eqb_spec (frame_length header) 12) as [|_]; [lia|].
      destruct (Z.gtb_spec (frame_length header) 10240) as [Hover|Hunder];
        [reflexivity|].
      destruct (Z.gtb_spec (frame_length header) 12) as [|_]; [lia|].
      destruct fuel as [|fuel]; [lia|].
      rewrite read_IO_loop_unfold.
      destruct (Z.ltb_spec (Z.of_nat 12) 12) as [|_]; [lia|]. reflexivity.
    + rewrite Hp1. rewrite drop_app_le by (rewrite length_drop; lia).
      rewrite drop_drop, Hnk, drop_ge by lia. reflexivity.
  - destruct (IH (set_proxy_io_pending w p1) (n + k)%nat) as (p' & Hloop & Hp');
      try lia.
    { exact Hpend1. }
    unfold STREAM_HEADER_SIZE, HYPERSTART_MAX_RECV_BYTES in Hloop.
    rewrite Hloop.
    exists p'. split; [reflexivity|exact Hp'].
Qed.

(** A header that announces less than its own twelve bytes, or more than
    [HYPERSTART_MAX_RECV_BYTES]: [handle_proxy_output] takes the header,
    writes nothing to any descriptor, leaves the shim as it is and returns.
    What follows the header stays pending: the payload of a frame that was
    too big is read as the next header. *)
Theorem stream_frame_bad_length (shim : cc_shim) (w : world)
    (header rest : list Z)
    (Hheader : length header = 12%nat)
    (Hpending : pending_bytes (proxy_io_pending w) = header ++ rest)
    (Hbad :
       frame_length header < STREAM_HEADER_SIZE
       \/ HYPERSTART_MAX_RECV_BYTES < frame_length header) :
  exists (w' : world) (evs : list event),
    handle_proxy_output shim w = Returns shim w' /\
    trace w' = trace w ++ evs /\
    (forall fd : Z, fd_output fd evs = []) /\
    pending_bytes (proxy_io_pending w') = rest.
Proof.
  destruct (read_IO_loop_bad_length header rest Hheader Hbad
              read_IO_message_fuel w 0) as (p' & Hread & Hp').
  { rewrite drop_0. exact Hpending. }
  { lia. }
  { unfold read_IO_message_fuel, HYPERSTART_MAX_RECV_BYTES. lia. }
  unfold handle_proxy_output, read_IO_message, calloc.
  change (take 0 header ++ replicate (12 - 0) 0)
    with (replicate (Z.to_nat STREAM_HEADER_SIZE) 0) in Hread.
  change (Z.of_nat 0) with 0 in Hread. rewrite Hread.
  unfold STREAM_HEADER_SIZE, HYPERSTART_MAX_RECV_BYTES in *.
  destruct (Z.gtb_spec (frame_length header) 10240) as [Hover|Hunder].
  - exists (emit (set_proxy_io_pending w p') (EvLog LOG_WARNING)),
      [EvLog LOG_WARNING].
    split; [reflexivity|]. split; [reflexivity|]. split; [reflexivity|].
    exact Hp'.
  - destruct Hbad as [Hshort|]; [|lia].
    destruct (Z.leb_spec (frame_length header) 0) as [Hzero|Hpos]; cbn [orb].
    + exists (set_proxy_io_pending w p'), [].
      split; [reflexivity|]. split; [symmetry; apply app_nil_r|].
      split; [reflexivity|]. exact Hp'.
    + destruct (Z.gtb_spec (frame_length header) 10240) as [|_]; [lia|].
      unfold dispatch_frame, STREAM_HEADER_SIZE.
      destruct (Z.eqb_spec (frame_length header) 12) as [|_]; [lia|].
      destruct (Z.eqb_spec (frame_length header) (12 + 1)) as [|_]; [lia|].
      rewrite !andb_false_r.
      rewrite !write_all_nothing by lia.
      destruct (frame_seq header =? io_seq_no shim);
        [|destruct (frame_seq header =? cast_uint64 (io_seq_no shim + 1))].
      * exists (set_proxy_io_pending w p'), [].
        split; [reflexivity|]. split; [symmetry; apply app_nil_r|].
        split; [reflexivity|]. exact Hp'.
      * exists (set_proxy_io_pending w p'), [].
        split; [reflexivity|]. split; [symmetry; apply app_nil_r|].
        split; [reflexivity|]. exact Hp'.
      * exists (emit (set_proxy_io_pending w p') (EvLog LOG_WARNING)),
          [EvLog LOG_WARNING].
        split; [reflexivity|]. split; [reflexivity|].
        split; [reflexivity|]. exact Hp'.
Qed.

(** A header announcing 70000 bytes, and the first bytes of its payload. *)
Lemma stream_frame_bad_length_witness :
  exists (w' : world) (evs : list event),
    handle_proxy_output (Examples.shim_5 false)
      (Examples.world_on_tty
         [Some [0; 0; 0; 0; 0; 0; 0; 5; 0; 1; 17; 112; 104; 105]])
    = Returns (Examples.shim_5 false) w' /\
    trace w' = trace (Examples.world_on_tty
                        [Some [0; 0; 0; 0; 0; 0; 0; 5; 0; 1; 17; 112; 104;
                               105]]) ++ evs /\
    (forall fd : Z, fd_output fd evs = []) /\
    pending_bytes (proxy_io_pending w') = [104; 105].
Proof.
  apply (stream_frame_bad_length (Examples.shim_5 false)
           (Examples.world_on_tty
              [Some [0; 0; 0; 0; 0; 0; 0; 5; 0; 1; 17; 112; 104; 105]])
           [0; 0; 0; 0; 0; 0; 0; 5; 0; 1; 17; 112] [104; 105]).
  - reflexivity.
  - reflexivity.
  - right. vm_compute. reflexivity.
Defined.

(** The terminal is given back once. [restore_terminal] called again
    changes nothing ([exit] runs it a second time, through [atexit], after
    [handle_proxy_output] and [err_exit] have called it); and where
    [tcsetattr] works, restoring after the set-up of [main] gives the
    terminal the settings it had, with no settings left saved. *)
Theorem restore_terminal_once (w : world) :
  restore_terminal (restore_terminal w) = restore_terminal w /\
  (tcsetattr_fails w = false ->
   stdin_tty (restore_terminal (setup_terminal w)) = stdin_tty w /\
   (isatty_stdin w = true ->
    saved_term_settings (restore_terminal (setup_terminal w)) = None)).
Proof.
  split.
  - unfold restore_terminal, isatty_stdin, tcsetattr.
    destruct (saved_term_settings w) as [saved|] eqn:Hsaved;
      [|rewrite Hsaved; reflexivity].
    destruct (stdin_tty w) as [cur|] eqn:Htty;
      [|rewrite Hsaved, Htty; reflexivity].
    destruct (tcsetattr_fails w); reflexivity.
  - intros Hok. destruct w as [pending results tty fails saved tr].
    simpl in Hok. subst fails.
    unfold setup_terminal, restore_terminal, isatty_stdin, tcsetattr.
    destruct tty as [cur|]; cbn.
    + split; reflexivity.
    + destruct saved; split; try reflexivity; discriminate.
Qed.

End ShimOutputFacts.

(** ** shim/shim.c: standard input *)

Section ShimInputFacts.

Import BigEndian Shim ShimInput.

Lemma list_inserts_eq (i : nat) (k l : list Z) :
  (i + length k <= length l)%nat ->
  list_inserts i k l = take i l ++ k ++ drop (i + length k) l.
Proof.
  intros Hlen.
  rewrite <- (take_drop i l) at 1.
  replace i with (length (take i l) + 0)%nat at 1
    by (rewrite length_take; lia).
  rewrite list_inserts_app_r. f_equal.
  rewrite <- (take_drop (length k) (drop i l)) at 1.
  rewrite list_inserts_0_r by (rewrite length_take, length_drop; lia).
  rewrite drop_drop. reflexivity.
Qed.

(** Reading back what a store has written at the front of a buffer. *)
Lemma get_big_endian_64_be64_bytes (v : Z) (tail : list Z) :
  is_uint64 v -> get_big_endian_64 (be64_bytes v ++ tail) 0 = v.
Proof.
  intros Hv.
  change (be64_bytes v ++ tail)
    with (set_big_endian_64 (replicate 8 0 ++ tail) 0 v).
  apply get_set_big_endian_64; [|exact Hv].
  rewrite length_app. simpl. lia.
Qed.

Lemma get_big_endian_32_be32_bytes (head : list Z) (v : Z) (tail : list Z) :
  length head = 8%nat -> is_uint32 v ->
  get_big_endian_32 (head ++ be32_bytes v ++ tail) 8 = v.
Proof.
  intros Hhead Hv.
  do 8 (destruct head as [|? head]; [discriminate|]).
  destruct head; [|discriminate].
  match goal with
  | |- get_big_endian_32 (?h ++ _) _ = _ =>
      change (h ++ be32_bytes v ++ tail)
        with (set_big_endian_32 (h ++ replicate 4 0 ++ tail) 8 v)
  end.
  apply get_set_big_endian_32; [|exact Hv].
  rewrite !length_app. simpl. lia.
Qed.

(** A frame built from its parts is well formed and holds the parts. *)
Lemma mk_frame_facts (seq : Z) (payload : list Z) :
  is_uint64 seq ->
  STREAM_HEADER_SIZE + Z.of_nat (length payload) <= HYPERSTART_MAX_RECV_BYTES ->
  well_formed_frame (mk_frame seq payload) /\
  frame_seq (mk_frame seq payload) = seq /\
  frame_payload (mk_frame seq payload) = payload /\
  Z.of_nat (length (mk_frame seq payload))
  = STREAM_HEADER_SIZE + Z.of_nat (length payload).
Proof.
  unfold STREAM_HEADER_SIZE, HYPERSTART_MAX_RECV_BYTES. intros Hseq Hlen.
  assert (Hlength : Z.of_nat (length (mk_frame seq payload))
                    = 12 + Z.of_nat (length payload)).
  { unfold mk_frame. rewrite !length_app. simpl. lia. }
  assert (Hfl : frame_length (mk_frame seq payload)
                = 12 + Z.of_nat (length payload)).
  { unfold frame_length, mk_frame, STREAM_HEADER_LENGTH_OFFSET,
      STREAM_HEADER_SIZE.
    apply get_big_endian_32_be32_bytes; [reflexivity|].
    unfold is_uint32. lia. }
  split; [split|split; [|split]].
  - rewrite Hfl, Hlength. reflexivity.
  - unfold STREAM_HEADER_SIZE, HYPERSTART_MAX_RECV_BYTES. lia.
  - unfold frame_seq, mk_frame.
    apply get_big_endian_64_be64_bytes. exact Hseq.
  - reflexivity.
  - exact Hlength.
Qed.

(** The frame [handle_stdin] builds in its buffer. *)
Lemma stdin_frame (buf data : list Z) (seq : Z) :
  (12 + length data <= length buf)%nat ->
  Z.of_nat (length data) + 12 < 2 ^ 32 ->
  take (Z.to_nat (Z.of_nat (length data) + STREAM_HEADER_SIZE))
    (set_big_endian_32
       (set_big_endian_64
          (list_inserts (Z.to_nat STREAM_HEADER_SIZE) data buf) 0 seq)
       STREAM_HEADER_LENGTH_OFFSET
       (cast_uint32 (Z.of_nat (length data) + STREAM_HEADER_SIZE)))
  = mk_frame seq data.
Proof.
  unfold STREAM_HEADER_SIZE, STREAM_HEADER_LENGTH_OFFSET. intros Hbuf Hlen.
  change (Z.to_nat 12) with 12%nat.
  rewrite list_inserts_eq by lia.
  rewrite cast_uint32_id by (unfold is_uint32; lia).
  replace (Z.to_nat (Z.of_nat (length data) + 12))
    with (12 + length data)%nat by lia.
  do 12 (destruct buf as [|? buf]; [simpl in Hbuf; lia|]).
  change (drop (12 + length data) (_ :: _ :: _ :: _ :: _ :: _ :: _ :: _ :: _
                                   :: _ :: _ :: _ :: buf))
    with (drop (length data) buf).
  match goal with
  | |- take _ (set_big_endian_32 (set_big_endian_64 (take 12 ?b ++ ?t) 0 _) 8 ?l)
       = _ =>
      change (set_big_endian_32 (set_big_endian_64 (take 12 b ++ t) 0 seq) 8 l)
        with (be64_bytes seq ++ be32_bytes l ++ t)
  end.
  unfold mk_frame, STREAM_HEADER_SIZE.
  replace (12 + Z.of_nat (length data)) with (Z.of_nat (length data) + 12)
    by lia.
  change (take (12 + length data) (be64_bytes seq ++ be32_bytes ?l ++ ?t))
    with (be64_bytes seq ++ be32_bytes l ++ take (length data) t).
  rewrite take_app_length. reflexivity.
Qed.

Lemma read_stdin_length (w : world) (want : Z) :
  0 <= want ->
  (fst (fst (read_stdin w want)) = -1 /\ snd (fst (read_stdin w want)) = [])
  \/ (fst (fst (read_stdin w want))
      = Z.of_nat (length (snd (fst (read_stdin w want)))) /\
      Z.of_nat (length (snd (fst (read_stdin w want)))) <= want).
Proof.
  intros Hwant. unfold read_stdin.
  destruct (stdin_pending w) as [|[data|] rest]; cbn [fst snd].
  - right. simpl. lia.
  - right. rewrite length_take. lia.
  - left. split; reflexivity.
Qed.

Lemma read_stdin_rest (w : world) (want : Z) :
  write_result (snd (read_stdin w want)) = write_result w /\
  writes (snd (read_stdin w want)) = writes w /\
  poll_fds (snd (read_stdin w want)) = poll_fds w /\
  stdin_buf (snd (read_stdin w want)) = stdin_buf w /\
  trace (snd (read_stdin w want)) = trace w.
Proof.
  unfold read_stdin.
  destruct (stdin_pending w) as [|[data|] rest]; repeat split.
Qed.

(** [handle_stdin] sends what it reads as one stream frame. Whenever the
    [read] of standard input does not fail, the bytes handed to the one
    [write] on the proxy I/O descriptor are the frame of the shim's
    sequence number with the bytes read as its payload, at most [BUFSIZ] of
    them, so that the frame is well formed and within the bound of the
    reader. At the end of input the frame is the bare header, and the
    entry of standard input in [poll_fds] gets the descriptor -1. A [write]
    that takes only part of the frame is not repeated. *)
Theorem handle_stdin_frame (shim : cc_shim) (w : world)
    (Hfd : 0 <= proxy_io_fd shim)
    (Hseq : is_uint64 (io_seq_no shim))
    (Hbuf : Z.of_nat (length (stdin_buf w)) = BUFSIZ + STREAM_HEADER_SIZE)
    (Hread : 0 <= fst (fst (read_stdin w BUFSIZ))) :
  exists (data : list Z) (ret : Z),
    data = snd (fst (read_stdin w BUFSIZ)) /\
    Z.of_nat (length data) <= BUFSIZ /\
    ret = write_result w (writes w)
            (STREAM_HEADER_SIZE + Z.of_nat (length data)) /\
    trace (handle_stdin shim w)
    = trace w
      ++ EvWrite (proxy_io_fd shim) (mk_frame (io_seq_no shim) data) ret
      :: (if cast_int ret =? -1 then [EvLog LOG_WARNING] else []) /\
    writes (handle_stdin shim w) = S (writes w) /\
    well_formed_frame (mk_frame (io_seq_no shim) data) /\
    frame_seq (mk_frame (io_seq_no shim) data) = io_seq_no shim /\
    frame_payload (mk_frame (io_seq_no shim) data) = data /\
    (data <> [] -> poll_fds (handle_stdin shim w) = poll_fds w) /\
    (data = [] ->
     forall pfd : pollfd,
       poll_fds w !! STDIN_INDEX = Some pfd ->
       poll_fds (handle_stdin shim w) !! STDIN_INDEX
       = Some {| pfd_fd := -1; pfd_events := pfd_events pfd |}).
Proof.
  unfold BUFSIZ, STREAM_HEADER_SIZE in *.
  destruct (read_stdin_length w 8192 ltac:(lia)) as [[Hfail _]|[Hnread Hmax]];
    [unfold BUFSIZ in Hread; lia|].
  destruct (read_stdin_rest w 8192) as (Hwr & Hwrites & Hfds & Hsbuf & Htrace).
  unfold handle_stdin, BUFSIZ, STREAM_HEADER_SIZE.
  destruct (Z.ltb_spec (proxy_io_fd shim) 0) as [|_]; [lia|].
  destruct (read_stdin w 8192) as [[nread data] w1] eqn:Hrd.
  cbn [fst snd] in *. subst nread.
  destruct (Z.ltb_spec (Z.of_nat (length data)) 0) as [|_]; [lia|].
  exists data, (write_result w (writes w) (12 + Z.of_nat (length data))).
  split; [reflexivity|]. split; [exact Hmax|]. split; [reflexivity|].
  cbv zeta. unfold write.
  cbn [writes write_result trace stdin_buf poll_fds stdin_pending signal_pipe
       window].
  rewrite Hwr, Hwrites, Hsbuf, Htrace, Hfds.
  pose proof (stdin_frame (stdin_buf w) data (io_seq_no shim)
                ltac:(lia) ltac:(lia)) as Hframe.
  unfold STREAM_HEADER_SIZE in Hframe.
  rewrite Hframe. clear Hframe.
  replace (Z.of_nat (length data) + 12) with (12 + Z.of_nat (length data))
    by lia.
  set (ret := write_result w (writes w) (12 + Z.of_nat (length data))).
  destruct (mk_frame_facts (io_seq_no shim) data Hseq
              ltac:(unfold STREAM_HEADER_SIZE, HYPERSTART_MAX_RECV_BYTES; lia))
    as (Hwf & Hfseq & Hfpayload & _).
  assert (Hpoll_data : data <> [] -> (Z.of_nat (length data) =? 0) = false).
  { intros Hdata. destruct data; [contradiction|reflexivity]. }
  destruct (cast_int ret =? -1); unfold emit;
    cbn [writes write_result trace stdin_buf poll_fds stdin_pending
         signal_pipe window].
  - split; [rewrite <- app_assoc; reflexivity|].
    split; [reflexivity|].
    split; [exact Hwf|]. split; [exact Hfseq|]. split; [exact Hfpayload|].
    split.
    + intros Hdata. rewrite (Hpoll_data Hdata). reflexivity.
    + intros -> pfd Hpfd. cbn [length Z.of_nat Z.eqb]. rewrite Hpfd.
      apply list_lookup_insert_eq, lookup_lt_is_Some.
      eexists; exact Hpfd.
  - split; [reflexivity|].
    split; [reflexivity|].
    split; [exact Hwf|]. split; [exact Hfseq|]. split; [exact Hfpayload|].
    split.
    + intros Hdata. rewrite (Hpoll_data Hdata). reflexivity.
    + intros -> pfd Hpfd. cbn [length Z.of_nat Z.eqb]. rewrite Hpfd.
      apply list_lookup_insert_eq, lookup_lt_is_Some.
      eexists; exact Hpfd.
Qed.

Lemma handle_stdin_frame_witness :
  exists ret : Z,
    ShimInput.trace
      (handle_stdin (Examples.shim_5 false)
         (Examples.input_world [Some [108; 115; 10]] []))
    = [EvWrite 4 [0; 0; 0; 0; 0; 0; 0; 5; 0; 0; 0; 15; 108; 115; 10] ret].
Proof.
  destruct (handle_stdin_frame (Examples.shim_5 false)
              (Examples.input_world [Some [108; 115; 10]] []))
    as (data & ret & Hdata & _ & Hret & Htrace & _).
  - vm_compute. discriminate.
  - vm_compute. split; [discriminate | reflexivity].
  - vm_compute. reflexivity.
  - vm_compute. discriminate.
  - exists ret. rewrite Htrace, Hret, Hdata. vm_compute. reflexivity.
Defined.

(** *** The control socket *)

Lemma take_plus {A : Type} (a b : nat) (l : list A) :
  take (a + b) l = take a l ++ take b (drop a l).
Proof.
  revert l. induction a as [|a IH]; intros [|x l]; simpl; try reflexivity.
  - destruct b; reflexivity.
  - rewrite IH. reflexivity.
Qed.

Lemma get_proxy_ctl_msg_eq (json : list Z) :
  get_proxy_ctl_msg (Some json)
  = Some (be32_bytes (cast_uint32 (Glib.strlen json)) ++ [0; 0; 0; 0] ++ json
          ++ [0],
          Glib.strlen json + 8).
Proof.
  unfold get_proxy_ctl_msg, Glib.strlen, PROXY_CTL_HEADER_SIZE,
    PROXY_CTL_HEADER_LENGTH_OFFSET, calloc.
  replace (Z.to_nat (Z.of_nat (length json) + 8 + 1))
    with (8 + (length json + 1))%nat by lia.
  rewrite Nat2Z.id, firstn_all.
  rewrite replicate_add.
  change (replicate 8 0) with [0; 0; 0; 0; 0; 0; 0; 0].
  change (Z.to_nat 8) with 8%nat.
  set (v := cast_uint32 (Z.of_nat (length json))).
  change (set_big_endian_32
            ([0; 0; 0; 0; 0; 0; 0; 0] ++ replicate (length json + 1) 0) 0 v)
    with (be32_bytes v ++ [0; 0; 0; 0] ++ replicate (length json + 1) 0).
  rewrite list_inserts_eq
    by (rewrite !length_app, length_replicate; simpl; lia).
  change (take 8 (be32_bytes v ++ [0; 0; 0; 0]
                  ++ replicate (length json + 1) 0))
    with (be32_bytes v ++ [0; 0; 0; 0]).
  rewrite <- drop_drop.
  change (drop 8 (be32_bytes v ++ [0; 0; 0; 0]
                  ++ replicate (length json + 1) 0))
    with (replicate (length json + 1) 0).
  rewrite replicate_add, drop_app_length'
    by (rewrite length_replicate; reflexivity).
  rewrite <- !app_assoc. reflexivity.
Qed.

Lemma send_loop_progress (fd : Z) (msg : list Z) (len : Z) :
  forall (fuel : nat) (w : world) (offset : Z),
    writes_progress w -> 0 <= offset <= len ->
    (Z.to_nat (len - offset) < fuel)%nat ->
    exists (w' : world) (evs : list event),
      send_loop fuel w fd msg offset len = Some w' /\
      ShimInput.trace w' = ShimInput.trace w ++ evs /\
      fd_output fd evs
      = take (Z.to_nat (len - offset)) (drop (Z.to_nat offset) msg) /\
      (forall fd', fd' <> fd -> fd_output fd' evs = []) /\
      Forall (fun e => exists data ret, e = EvWrite fd data ret) evs /\
      write_result w' = write_result w /\
      (writes w <= writes w')%nat /\
      signal_pipe w' = signal_pipe w /\ window w' = window w /\
      poll_fds w' = poll_fds w /\ stdin_pending w' = stdin_pending w /\
      stdin_buf w' = stdin_buf w.
Proof.
  intros fuel. induction fuel as [|fuel IH]; intros w offset Hw Hoff Hfuel;
    [lia|].
  cbn [send_loop].
  destruct (Z.ltb_spec offset len) as [Hlt|Hge].
  - unfold write.
    set (data := take (Z.to_nat (len - offset)) (drop (Z.to_nat offset) msg)).
    set (ret := write_result w (writes w) (len - offset)).
    destruct (Hw (writes w) (len - offset) ltac:(lia) ltac:(lia))
      as [Hret Heintr].
    fold ret in Hret, Heintr.
    destruct (Z.eqb_spec ret EINTR) as [|_]; [contradiction|].
    destruct (Z.leb_spec ret 0) as [|_]; [lia|].
    match goal with
    | |- context [send_loop fuel ?w1 _ _ _ _] =>
        assert (Hw1 : writes_progress w1)
          by (intros k n Hk Hn; apply (Hw k n); [cbn in Hk; lia | exact Hn]);
        destruct (IH w1 (offset + ret) Hw1 ltac:(lia) ltac:(lia))
          as (w' & evs & Hsend & Htrace & Hout & Hother & Hevs & Hwr & Hwrites
              & Hrest)
    end.
    exists w', (EvWrite fd data ret :: evs).
    split; [exact Hsend|].
    split; [rewrite Htrace; cbn [ShimInput.trace]; rewrite <- app_assoc;
            reflexivity|].
    split.
    { rewrite fd_output_cons_write, Z.eqb_refl, Hout. unfold data.
      rewrite take_take.
      replace (Z.to_nat ret `min` Z.to_nat (len - offset))%nat
        with (Z.to_nat ret) by lia.
      replace (Z.to_nat (offset + ret))
        with (Z.to_nat offset + Z.to_nat ret)%nat by lia.
      rewrite <- drop_drop.
      rewrite <- take_plus. f_equal. lia. }
    split.
    { intros fd' Hfd'. rewrite fd_output_cons_write, (Hother fd' Hfd').
      destruct (Z.eqb_spec fd fd') as [Heq|_]; [congruence|reflexivity]. }
    split; [constructor; [eexists; eexists; reflexivity|exact Hevs]|].
    split; [exact Hwr|].
    split; [cbn [writes] in Hwrites; lia|].
    exact Hrest.
  - exists w, []. split; [reflexivity|].
    split; [rewrite app_nil_r; reflexivity|].
    replace (Z.to_nat (len - offset)) with 0%nat by lia.
    split; [reflexivity|]. split; [reflexivity|]. split; [constructor|].
    split; [reflexivity|]. split; [lia|]. repeat split.
Qed.

Lemma length_hyper_message (hyper_cmd json : string) :
  length (hyper_message hyper_cmd json)
  = (8 + length (bytes_of_string (hyper_payload hyper_cmd json)))%nat.
Proof. reflexivity. Qed.

Lemma send_proxy_hyper_message_eq (fuel : nat) (w : world) (fd : Z)
    (hyper_cmd json : string) :
  0 <= fd ->
  send_proxy_hyper_message fuel w fd hyper_cmd (Some json)
  = send_loop fuel w fd (hyper_message hyper_cmd json ++ [0]) 0
      (Z.of_nat (length (hyper_message hyper_cmd json))).
Proof.
  intros Hfd. unfold send_proxy_hyper_message.
  destruct (Z.ltb_spec fd 0) as [|_]; [lia|].
  rewrite get_proxy_ctl_msg_eq, length_hyper_message.
  unfold hyper_message, Glib.strlen. rewrite <- !app_assoc.
  f_equal. lia.
Qed.

Lemma send_proxy_hyper_message_progress (fuel : nat) (w : world) (fd : Z)
    (hyper_cmd json : string) :
  0 <= fd -> writes_progress w ->
  (length (hyper_message hyper_cmd json) < fuel)%nat ->
  exists (w' : world) (evs : list event),
    send_proxy_hyper_message fuel w fd hyper_cmd (Some json) = Some w' /\
    ShimInput.trace w' = ShimInput.trace w ++ evs /\
    fd_output fd evs = hyper_message hyper_cmd json /\
    (forall fd', fd' <> fd -> fd_output fd' evs = []) /\
    Forall (fun e => exists data ret, e = EvWrite fd data ret) evs /\
    write_result w' = write_result w /\
    (writes w <= writes w')%nat /\
    signal_pipe w' = signal_pipe w /\ window w' = window w /\
    poll_fds w' = poll_fds w /\ stdin_pending w' = stdin_pending w /\
    stdin_buf w' = stdin_buf w.
Proof.
  intros Hfd Hw Hfuel. rewrite send_proxy_hyper_message_eq by exact Hfd.
  set (msg := hyper_message hyper_cmd json) in *.
  destruct (send_loop_progress fd (msg ++ [0]) (Z.of_nat (length msg)) fuel w 0
              Hw ltac:(lia) ltac:(lia))
    as (w' & evs & Hsend & Htrace & Hout & Hrest).
  exists w', evs. split; [exact Hsend|]. split; [exact Htrace|].
  split; [|exact Hrest].
  rewrite Hout, Z.sub_0_r, Nat2Z.id. change (Z.to_nat 0) with 0%nat.
  rewrite drop_0, take_app_length. reflexivity.
Qed.

(** [send_proxy_hyper_message] delivers its message once. On a descriptor
    that is not negative, with [write]s that each take some of the bytes
    they are given (and not exactly [EINTR], that is four, of them), the
    function returns, and what the descriptor has taken, over however
    many [write]s, is the message: the length of the payload in four bytes,
    most significant first, four zero bytes, and the payload, whose length
    the first four bytes give back. Nothing goes to another descriptor and
    nothing is logged. *)
Theorem send_proxy_hyper_message_delivers (fuel : nat) (w : world) (fd : Z)
    (hyper_cmd json : string)
    (Hfd : 0 <= fd) (Hw : writes_progress w)
    (Hfuel : (length (hyper_message hyper_cmd json) < fuel)%nat)
    (Hlen : Glib.strlen (bytes_of_string (hyper_payload hyper_cmd json))
            < 2 ^ 32) :
  exists (w' : world) (evs : list event),
    send_proxy_hyper_message fuel w fd hyper_cmd (Some json) = Some w' /\
    ShimInput.trace w' = ShimInput.trace w ++ evs /\
    fd_output fd evs = hyper_message hyper_cmd json /\
    get_big_endian_32 (fd_output fd evs) 0
    = Glib.strlen (bytes_of_string (hyper_payload hyper_cmd json)) /\
    drop 8 (fd_output fd evs) = bytes_of_string (hyper_payload hyper_cmd json) /\
    (forall fd', fd' <> fd -> fd_output fd' evs = []) /\
    Forall (fun e => exists data ret, e = EvWrite fd data ret) evs.
Proof.
  destruct (send_proxy_hyper_message_progress fuel w fd hyper_cmd json
              Hfd Hw Hfuel)
    as (w' & evs & Hsend & Htrace & Hout & Hother & Hevs & _).
  exists w', evs. split; [exact Hsend|]. split; [exact Htrace|].
  split; [exact Hout|]. rewrite Hout.
  split; [|split; [reflexivity|split; [exact Hother|exact Hevs]]].
  unfold hyper_message.
  set (payload := bytes_of_string (hyper_payload hyper_cmd json)) in *.
  rewrite cast_uint32_id
    by (unfold is_uint32, Glib.strlen in *; lia).
  change (be32_bytes (Glib.strlen payload) ++ [0; 0; 0; 0] ++ payload)
    with (set_big_endian_32 ([0; 0; 0; 0] ++ [0; 0; 0; 0] ++ payload) 0
            (Glib.strlen payload)).
  apply get_set_big_endian_32; [simpl; lia|].
  unfold is_uint32, Glib.strlen in *; lia.
Qed.

Lemma input_world_progress (pending : list (option (list Z))) (sigs : list Z) :
  writes_progress (Examples.input_world pending sigs).
Proof.
  intros k n _ Hn. cbn [write_result Examples.input_world]. unfold EINTR.
  destruct (Z.eqb_spec n 4); lia.
Qed.

Lemma send_proxy_hyper_message_delivers_witness :
  exists w' : world,
    send_proxy_hyper_message 100 (Examples.input_world [] []) 3 "killcontainer"
      (Some (killcontainer_json "c1" 15))
    = Some w' /\
    fd_output 3 (ShimInput.trace w')
    = hyper_message "killcontainer" (killcontainer_json "c1" 15).
Proof.
  destruct (send_proxy_hyper_message_delivers 100 (Examples.input_world [] [])
              3 "killcontainer" (killcontainer_json "c1" 15))
    as (w' & evs & Hsend & Htrace & Hout & _).
  - lia.
  - apply input_world_progress.
  - vm_compute. lia.
  - vm_compute. reflexivity.
  - exists w'. split; [exact Hsend|]. rewrite Htrace. exact Hout.
Defined.

(** A [write] that takes exactly four bytes is taken for an interrupted
    one: [send_proxy_hyper_message] compares the return value, not [errno],
    with [EINTR]. When the first [write] of a message takes four bytes and
    the later ones make progress, the message is sent again from its start:
    the descriptor receives the first four bytes of the message, then the
    whole message. *)
Theorem send_proxy_hyper_message_four_bytes_twice (fuel : nat) (w : world)
    (fd : Z) (hyper_cmd json : string)
    (Hfd : 0 <= fd)
    (Hfirst : write_result w (writes w)
                (Z.of_nat (length (hyper_message hyper_cmd json))) = EINTR)
    (Hnext : writes_progress_from (S (writes w)) w)
    (Hfuel : (S (length (hyper_message hyper_cmd json)) < fuel)%nat) :
  exists (w' : world) (evs : list event),
    send_proxy_hyper_message fuel w fd hyper_cmd (Some json) = Some w' /\
    ShimInput.trace w' = ShimInput.trace w ++ evs /\
    fd_output fd evs
    = take 4 (hyper_message hyper_cmd json) ++ hyper_message hyper_cmd json.
Proof.
  rewrite send_proxy_hyper_message_eq by exact Hfd.
  pose proof (length_hyper_message hyper_cmd json) as Hlength.
  set (msg := hyper_message hyper_cmd json) in *.
  destruct fuel as [|fuel]; [lia|].
  cbn [send_loop].
  destruct (Z.ltb_spec 0 (Z.of_nat (length msg))) as [_|]; [|lia].
  unfold write. rewrite Z.sub_0_r, Hfirst, Z.eqb_refl.
  match goal with
  | |- context [send_loop fuel ?w1 _ _ _ _] =>
      destruct (send_loop_progress fd (msg ++ [0]) (Z.of_nat (length msg))
                  fuel w1 0 Hnext ltac:(lia) ltac:(lia))
        as (w' & evs & Hsend & Htrace & Hout & _)
  end.
  eexists w', (_ :: evs). split; [exact Hsend|].
  split; [rewrite Htrace; cbn [ShimInput.trace]; rewrite <- app_assoc;
          reflexivity|].
  rewrite fd_output_cons_write, Z.eqb_refl, Hout.
  rewrite Z.sub_0_r, Nat2Z.id. change (Z.to_nat 0) with 0%nat.
  rewrite drop_0, take_app_length. reflexivity.
Qed.

Lemma send_proxy_hyper_message_four_bytes_twice_witness :
  exists w' : world,
    send_proxy_hyper_message 100
      (Examples.input_world_four [])
      3 "killcontainer" (Some (killcontainer_json "c1" 15))
    = Some w' /\
    fd_output 3 (ShimInput.trace w')
    = [0; 0; 0; 90]
      ++ hyper_message "killcontainer" (killcontainer_json "c1" 15).
Proof.
  destruct (send_proxy_hyper_message_four_bytes_twice 100
              (Examples.input_world_four [])
              3 "killcontainer" (killcontainer_json "c1" 15))
    as (w' & evs & Hsend & Htrace & Hout).
  - lia.
  - reflexivity.
  - intros k n Hk Hn.
    cbn [write_result writes Examples.input_world_four] in *. unfold EINTR.
    destruct k as [|k]; [lia|]. destruct (Z.eqb_spec n 4); lia.
  - vm_compute. lia.
  - exists w'. split; [exact Hsend|]. rewrite Htrace.
    change (fd_output 3 (ShimInput.trace (Examples.input_world_four []) ++ evs))
      with (fd_output 3 evs).
    rewrite Hout. vm_compute. reflexivity.
Defined.

(** *** Signals *)

Lemma writes_progress_later (w w' : world) :
  writes_progress w -> write_result w' = write_result w ->
  (writes w <= writes w')%nat -> writes_progress w'.
Proof.
  intros Hw Hwr Hwrites k n Hk Hn. rewrite Hwr. apply Hw; [lia|exact Hn].
Qed.

Lemma handle_signals_loop_forwards (fuel : nat) (shim : cc_shim) :
  0 <= proxy_sock_fd shim ->
  forall (sigs : list Z) (w : world),
    writes_progress w -> signal_pipe w = sigs ->
    (forall sig, In sig sigs ->
                 (length (signal_message shim (window w) sig) < fuel)%nat) ->
    exists (w' : world) (evs : list event),
      handle_signals_loop fuel shim sigs w = Some w' /\
      signal_pipe w' = [] /\
      ShimInput.trace w' = ShimInput.trace w ++ evs /\
      fd_output (proxy_sock_fd shim) evs
      = concat (map (signal_message shim (window w)) sigs) /\
      (forall fd', fd' <> proxy_sock_fd shim -> fd_output fd' evs = []) /\
      poll_fds w' = poll_fds w /\ stdin_pending w' = stdin_pending w /\
      window w' = window w.
Proof.
  intros Hfd sigs.
  induction sigs as [|sig sigs IH]; intros w Hw Hpipe Hfuel.
  - exists w, []. cbn [handle_signals_loop map concat].
    rewrite app_nil_r. repeat split. exact Hpipe.
  - cbn [handle_signals_loop map concat].
    pose proof (Hfuel sig (or_introl eq_refl)) as Hfuel_sig.
    assert (Hfuel_rest : forall s, In s sigs ->
              (length (signal_message shim (window w) s) < fuel)%nat)
      by (intros s Hs; exact (Hfuel s (or_intror Hs))).
    clear Hfuel.
    remember {| stdin_pending := stdin_pending w; signal_pipe := sigs;
                window := window w; write_result := write_result w;
                writes := writes w; poll_fds := poll_fds w;
                stdin_buf := stdin_buf w; trace := ShimInput.trace w |}
      as w1 eqn:Hw1def.
    assert (Hw1 : writes_progress w1) by (subst w1; exact Hw).
    assert (Hwin1 : window w1 = window w) by (subst w1; reflexivity).
    assert (Hpipe1 : signal_pipe w1 = sigs) by (subst w1; reflexivity).
    assert (Htrace1 : ShimInput.trace w1 = ShimInput.trace w)
      by (subst w1; reflexivity).
    assert (Hfds1 : poll_fds w1 = poll_fds w) by (subst w1; reflexivity).
    assert (Hpending1 : stdin_pending w1 = stdin_pending w)
      by (subst w1; reflexivity).
    clear Hw1def. rewrite Hwin1.
    rewrite <- Htrace1, <- Hfds1, <- Hpending1.
    unfold signal_message at 1. unfold signal_message at 1 in Hfuel_sig.
    destruct (sig =? SIGWINCH).
    + destruct (window w) as [[row column]|] eqn:Hwindow.
      * destruct (send_proxy_hyper_message_progress fuel w1 (proxy_sock_fd shim)
                    "winsize" (winsize_json (io_seq_no shim) row column)
                    Hfd Hw1 Hfuel_sig)
          as (w2 & evs2 & Hsend & Htrace2 & Hout2 & Hother2 & _ & Hwr2
              & Hwrites2 & Hpipe2 & Hwindow2 & Hfds2 & Hpending2 & _).
        rewrite Hsend.
        destruct (IH w2) as (w' & evs & Hloop & Hpipe' & Htrace & Hout
                             & Hother & Hfds & Hpending & Hwin).
        { exact (writes_progress_later w1 w2 Hw1 Hwr2 Hwrites2). }
        { rewrite Hpipe2. exact Hpipe1. }
        { rewrite Hwindow2, Hwin1. exact Hfuel_rest. }
        exists w', (evs2 ++ evs). split; [exact Hloop|].
        split; [exact Hpipe'|].
        split; [rewrite Htrace, Htrace2, <- app_assoc; reflexivity|].
        split.
        { rewrite fd_output_app, Hout2, Hout, Hwindow2, Hwin1. reflexivity. }
        split.
        { intros fd' Hfd'.
          rewrite fd_output_app, (Hother2 fd' Hfd'), (Hother fd' Hfd').
          reflexivity. }
        rewrite Hfds, Hfds2, Hpending, Hpending2, Hwin, Hwindow2, Hwin1.
        repeat split.
      * destruct (IH (emit w1 (EvLog LOG_WARNING)))
          as (w' & evs & Hloop & Hpipe' & Htrace & Hout & Hother & Hfds
              & Hpending & Hwin).
        { exact Hw1. }
        { exact Hpipe1. }
        { cbn [window emit]. rewrite Hwin1. exact Hfuel_rest. }
        exists w', (EvLog LOG_WARNING :: evs). split; [exact Hloop|].
        split; [exact Hpipe'|].
        split; [rewrite Htrace; cbn [ShimInput.trace emit];
                rewrite <- app_assoc; reflexivity|].
        split.
        { change (fd_output (proxy_sock_fd shim) (EvLog LOG_WARNING :: evs))
            with (fd_output (proxy_sock_fd shim) evs).
          rewrite Hout. cbn [window emit]. rewrite Hwin1. reflexivity. }
        split.
        { intros fd' Hfd'.
          change (fd_output fd' (EvLog LOG_WARNING :: evs))
            with (fd_output fd' evs).
          exact (Hother fd' Hfd'). }
        rewrite Hfds, Hpending, Hwin. cbn [window emit poll_fds stdin_pending].
        rewrite Hwin1. repeat split.
    + destruct (send_proxy_hyper_message_progress fuel w1 (proxy_sock_fd shim)
                  "killcontainer" (killcontainer_json (container_id shim) sig)
                  Hfd Hw1 Hfuel_sig)
        as (w2 & evs2 & Hsend & Htrace2 & Hout2 & Hother2 & _ & Hwr2
            & Hwrites2 & Hpipe2 & Hwindow2 & Hfds2 & Hpending2 & _).
      rewrite Hsend.
      destruct (IH w2) as (w' & evs & Hloop & Hpipe' & Htrace & Hout
                           & Hother & Hfds & Hpending & Hwin).
      { exact (writes_progress_later w1 w2 Hw1 Hwr2 Hwrites2). }
      { rewrite Hpipe2. exact Hpipe1. }
      { rewrite Hwindow2, Hwin1. exact Hfuel_rest. }
      exists w', (evs2 ++ evs). split; [exact Hloop|].
      split; [exact Hpipe'|].
      split; [rewrite Htrace, Htrace2, <- app_assoc; reflexivity|].
      split.
      { rewrite fd_output_app, Hout2, Hout, Hwindow2, Hwin1. reflexivity. }
      split.
      { intros fd' Hfd'.
        rewrite fd_output_app, (Hother2 fd' Hfd'), (Hother fd' Hfd').
        reflexivity. }
      rewrite Hfds, Hfds2, Hpending, Hpending2, Hwin, Hwindow2, Hwin1.
      repeat split.
Qed.

(** [handle_signals] forwards every signal in the pipe, in the order they
    were caught. With a proxy descriptor that is not negative and [write]s
    that make progress, it returns with the pipe empty, and the proxy
    descriptor has taken one message for each signal: [killcontainer] with
    the container and the number of the signal, or, for [SIGWINCH],
    [winsize] with the rows and columns of the terminal; a [SIGWINCH] whose
    [ioctl] fails sends nothing. No other descriptor is written, and the
    entries of [poll_fds] stay. *)
Theorem handle_signals_forwards (fuel : nat) (shim : cc_shim) (w : world)
    (Hfd : 0 <= proxy_sock_fd shim) (Hw : writes_progress w)
    (Hfuel : forall sig, In sig (signal_pipe w) ->
               (length (signal_message shim (window w) sig) < fuel)%nat) :
  exists (w' : world) (evs : list event),
    handle_signals fuel shim w = Some w' /\
    signal_pipe w' = [] /\
    ShimInput.trace w' = ShimInput.trace w ++ evs /\
    fd_output (proxy_sock_fd shim) evs
    = concat (map (signal_message shim (window w)) (signal_pipe w)) /\
    (forall fd', fd' <> proxy_sock_fd shim -> fd_output fd' evs = []) /\
    poll_fds w' = poll_fds w.
Proof.
  unfold handle_signals.
  destruct (Z.ltb_spec (proxy_sock_fd shim) 0) as [|_]; [lia|].
  destruct (handle_signals_loop_forwards fuel shim Hfd (signal_pipe w) w Hw
              eq_refl Hfuel)
    as (w' & evs & Hloop & Hpipe & Htrace & Hout & Hother & Hfds & _).
  exists w', evs. repeat split; assumption.
Qed.

Lemma handle_signals_forwards_witness :
  exists w' : world,
    handle_signals 110 (Examples.shim_5 false)
      (Examples.input_world [] [15; 28]) = Some w' /\
    fd_output 3 (ShimInput.trace w')
    = hyper_message "killcontainer" (killcontainer_json "c1" 15)
      ++ hyper_message "winsize" (winsize_json 5 24 80).
Proof.
  destruct (handle_signals_forwards 110 (Examples.shim_5 false)
              (Examples.input_world [] [15; 28]))
    as (w' & evs & Hsignals & _ & Htrace & Hout & _).
  - vm_compute. discriminate.
  - apply input_world_progress.
  - intros sig [<-|[<-|[]]]; vm_compute; lia.
  - exists w'. split; [exact Hsignals|]. rewrite Htrace.
    change (fd_output 3
              (ShimInput.trace (Examples.input_world [] [15; 28]) ++ evs))
      with (fd_output (proxy_sock_fd (Examples.shim_5 false)) evs).
    rewrite Hout. vm_compute. reflexivity.
Defined.

(** *** The numbers of the command line *)

Lemma strtoll_digits (ds rest : list ascii) :
  ds <> [] -> Forall (fun c => is_Some (Strtol.digit_of c)) ds ->
  match rest with [] => True | c :: _ => Strtol.digit_of c = None end ->
  strtoll (string_of_list_ascii (ds ++ rest))
  = (let v := fold_left
                (fun a c => 10 * a + (Z.of_nat (nat_of_ascii c) - 48)) ds 0 in
     (Z.max (- 2 ^ 63) (Z.min (2 ^ 63 - 1) v), rest,
      (v <? - 2 ^ 63) || (2 ^ 63 - 1 <? v))).
Proof.
  intros Hne Hds Hrest.
  destruct ds as [|c ds]; [contradiction|]. clear Hne.
  pose proof (digits_app (c :: ds) Hds rest 0 0 Hrest) as Hdigits.
  assert (Hc : is_Some (Strtol.digit_of c)) by (inversion Hds; assumption).
  destruct (digit_of_Some c Hc) as [_ Hrange].
  unfold strtoll. rewrite list_ascii_of_string_of_list_ascii.
  cbn [app Strtol.skip_spaces].
  assert (Hspace : Strtol.isspace c = false).
  { unfold Strtol.isspace, Strtol.g_ascii_isspace.
    repeat match goal with
           | |- context [(?a =? ?b)%nat] =>
               destruct (Nat.eqb_spec a b); [lia|]
           end.
    reflexivity. }
  rewrite Hspace. clear Hspace Hrange Hds.
  cbn [app length Nat.add] in Hdigits.
  destruct c as [[] [] [] [] [] [] [] []];
    try (exfalso; clear - Hc; vm_compute in Hc; destruct Hc as [d Hc];
         discriminate Hc);
    cbv beta iota; rewrite Hdigits; cbv beta iota zeta;
    change (drop (S (length ds)) (?c :: ds ++ rest))
      with (drop (length ds) (ds ++ rest));
    rewrite drop_app_length; reflexivity.
Qed.

(** [parse_numeric_option] on a decimal number. An argument that starts
    with decimal digits and goes on with something that is not a digit is
    rejected with -1; an argument of digits only gives their value, or -1
    when the value is above the largest [long long]. So a number followed by
    a space or a unit is refused, and 9223372036854775808 is. *)
Theorem parse_numeric_option_decimal (ds rest : list ascii)
    (Hne : ds <> [])
    (Hds : Forall (fun c => is_Some (Strtol.digit_of c)) ds)
    (Hrest : match rest with
             | [] => True
             | c :: _ => Strtol.digit_of c = None
             end) :
  parse_numeric_option (Some (string_of_list_ascii (ds ++ rest)))
  = let v := fold_left
               (fun a c => 10 * a + (Z.of_nat (nat_of_ascii c) - 48)) ds 0 in
    match rest with
    | [] => if v <=? 2 ^ 63 - 1 then v else -1
    | _ :: _ => -1
    end.
Proof.
  unfold parse_numeric_option.
  rewrite (strtoll_digits ds rest Hne Hds Hrest). cbv zeta.
  pose proof (fold_digits_nonneg ds Hds 0 ltac:(lia)) as Hv.
  set (v := fold_left _ ds 0) in *.
  destruct (Z.ltb_spec v (- 2 ^ 63)) as [|_]; [lia|].
  destruct (Z.ltb_spec (2 ^ 63 - 1) v) as [Hbig|Hfits];
    destruct (Z.leb_spec v (2 ^ 63 - 1)) as [Hle|Hgt]; try lia;
    destruct rest as [|c rest]; cbn [orb]; try reflexivity.
  lia.
Qed.

Lemma parse_numeric_option_decimal_witness :
  parse_numeric_option (Some "42") = 42 /\
  parse_numeric_option (Some "42 ") = -1 /\
  parse_numeric_option (Some "9223372036854775808") = -1.
Proof.
  split; [|split].
  - apply (parse_numeric_option_decimal ["4"; "2"]%char []).
    + discriminate.
    + repeat constructor; eexists; vm_compute; reflexivity.
    + exact I.
  - apply (parse_numeric_option_decimal ["4"; "2"]%char [" "]%char).
    + discriminate.
    + repeat constructor; eexists; vm_compute; reflexivity.
    + reflexivity.
  - apply (parse_numeric_option_decimal
             (list_ascii_of_string "9223372036854775808") []).
    + discriminate.
    + repeat constructor; eexists; vm_compute; reflexivity.
    + exact I.
Defined.

End ShimInputFacts.
